(** * Lightnet training engine

    A shallow embedding of [lightnet/engine/_parameter.py] (the
    [HyperParameters] container) and [lightnet/engine/engine.py] (the
    [Engine] training loop, its hook registry, its attribute bridge and its
    SIGINT handler), together with the properties of both.

    Python objects are modelled by their attribute dictionaries
    ([gmap string Value]); methods are computations in a small
    state-and-exception monad over the objects they can reach. *)

From Stdlib Require Import ZArith Ascii String List Bool Lia.
From stdpp Require Import base option list gmap strings.

Set Warnings "-register-all".

Local Open Scope string_scope.
Local Open Scope list_scope.
Local Open Scope Z_scope.

(** ** Exceptions and results *)

Inductive Exn : Type :=
| AttributeError
| ValueError
| TypeError
| ZeroDivisionError
| IndexError
| KeyError
| FileNotFoundError
| RecursionError
| UnpicklingError.

Inductive Res (A : Type) : Type :=
| Ok (a : A)
| Raise (e : Exn).
Arguments Ok {A} a.
Arguments Raise {A} e.

Definition is_raise {A} (r : Res A) : bool :=
  match r with Ok _ => false | Raise _ => true end.

(** A computation over a state [S]: the state reached is returned also when
    an exception is raised, as the mutations done before a Python [raise]
    stay. *)
Definition M (S A : Type) : Type := S -> Res A * S.

Definition ret {S A} (a : A) : M S A := fun s => (Ok a, s).
Definition raise {S A} (e : Exn) : M S A := fun s => (Raise e, s).
Definition bind {S A B} (c : M S A) (k : A -> M S B) : M S B :=
  fun s => match c s with
           | (Ok a, s') => k a s'
           | (Raise e, s') => (Raise e, s')
           end.
Definition get {S} : M S S := fun s => (Ok s, s).
Definition modify {S} (f : S -> S) : M S unit := fun s => (Ok tt, f s).
Definition lift {S A} (r : Res A) : M S A := fun s => (r, s).

Notation "'do' x <- c ; k" := (bind c (fun x => k))
  (at level 10, x name, c at level 99, k at level 200).
Notation "c ;; k" := (bind c (fun _ => k))
  (at level 100, k at level 200, right associativity).

(** [for x in l: body x] *)
Fixpoint for_each {S A} (l : list A) (body : A -> M S unit) : M S unit :=
  match l with
  | [] => ret tt
  | x :: rest => body x ;; for_each rest body
  end.

(** ** Python values *)

(** A tensor as [HyperParameters.to] sees it: the device of its [data] and,
    when [_grad] is not [None], the device of the gradient's [data]. *)
Record Tensor : Type := mkTensor {
  data_device : string;
  grad_device : option string
}.

(** What one level below a dict-valued optimizer state entry can hold. *)
Inductive SubParam : Type :=
| STensor (t : Tensor)
| SOther (n : Z).

(** A value of [optim.state] or of [sched.__dict__]. *)
Inductive Param : Type :=
| PTensor (t : Tensor)
| PDict (d : list (string * SubParam))
| POther (n : Z).

(** The snapshot [state_dict()] returns. *)
Abbreviation StateDict := (list (string * Param)).

Inductive Value : Type :=
| VNone
| VBool (b : bool)
| VInt (n : Z)
| VStr (s : string)
| VList (items : list Value)
| VRef (addr : nat)            (* a torch module, optimizer or scheduler *)
| VStateDict (sd : StateDict)  (* the result of [state_dict()] *)
| VMethod (name : string)      (* a function or other object bound in a class body *)
| VStore.                      (* the session's HyperParameters object *)

(** [int(v)] for the values Python treats as integers ([bool] is a subclass
    of [int]). *)
Definition as_int (v : Value) : Res Z :=
  match v with
  | VInt n => Ok n
  | VBool b => Ok (if b then 1 else 0)
  | _ => Raise TypeError
  end.

(** Truth value testing. *)
Definition truthy (v : Value) : bool :=
  match v with
  | VNone => false
  | VBool b => b
  | VInt n => negb (n =? 0)
  | VStr s => negb (String.eqb s "")
  | VList l => match l with [] => false | _ => true end
  | VStateDict sd => match sd with [] => false | _ => true end
  | _ => true
  end.

(** [v[0]] *)
Definition subscript0 (v : Value) : Res Value :=
  match v with
  | VList (x :: _) => Ok x
  | VList [] => Raise IndexError
  | VStr (String c _) => Ok (VStr (String c EmptyString))
  | VStr EmptyString => Raise IndexError
  | VStateDict _ => Raise KeyError
  | _ => Raise TypeError
  end.

(** [a // b] and [a % b] on integers; Python floors like [Z.div] and gives
    the remainder the sign of the divisor like [Z.modulo]. *)
Definition floordiv (a b : Z) : Res Z :=
  if b =? 0 then Raise ZeroDivisionError else Ok (a / b).
Definition pymod (a b : Z) : Res Z :=
  if b =? 0 then Raise ZeroDivisionError else Ok (a mod b).

(** [isinstance(v, collections.Iterable)] *)
Definition is_iterable (v : Value) : bool :=
  match v with
  | VList _ | VStr _ | VStateDict _ => true
  | _ => false
  end.

(** [key in l] for a list [l] of values: equality with the string [key]. *)
Definition is_str (key : string) (v : Value) : bool :=
  match v with VStr s => String.eqb s key | _ => false end.
Definition str_in (key : string) (l : list Value) : bool := existsb (is_str key) l.

(** [l.remove(key)]: drops the first element equal to [key]. *)
Fixpoint remove_first (key : string) (l : list Value) : list Value :=
  match l with
  | [] => []
  | v :: rest => if is_str key v then rest else v :: remove_first key rest
  end.

(** [for x in v]: the elements a value yields when iterated. *)
Fixpoint chars (s : string) : list Value :=
  match s with
  | EmptyString => []
  | String c rest => VStr (String c EmptyString) :: chars rest
  end.
Definition iterate (v : Value) : Res (list Value) :=
  match v with
  | VList l => Ok l
  | VStr s => Ok (chars s)
  | VStateDict sd => Ok (map (fun kv => VStr (fst kv)) sd)
  | _ => Raise TypeError
  end.

(** [v[i]] for a position [i] of an enumeration. *)
Definition subscript (v : Value) (i : nat) : Res Value :=
  match v with
  | VList l => match nth_error l i with Some x => Ok x | None => Raise IndexError end
  | VStr s => match nth_error (chars s) i with Some x => Ok x | None => Raise IndexError end
  | VStateDict _ => Raise KeyError
  | _ => Raise TypeError
  end.

(** Names every Python object answers to, inherited from [object]. *)
Definition object_names : list string :=
  ["__class__"; "__delattr__"; "__dict__"; "__dir__"; "__doc__"; "__eq__";
   "__format__"; "__ge__"; "__getattribute__"; "__gt__"; "__hash__";
   "__init__"; "__init_subclass__"; "__le__"; "__lt__"; "__module__";
   "__ne__"; "__new__"; "__reduce__"; "__reduce_ex__"; "__repr__";
   "__setattr__"; "__sizeof__"; "__str__"; "__subclasshook__"; "__weakref__"].

Definition name_in (name : string) (l : list string) : bool :=
  existsb (String.eqb name) l.

(** ** The torch objects a store refers to *)

(** A module, an optimizer or a scheduler: the device its parameters were
    moved to and the mapping [HyperParameters.to] walks ([optim.state] or
    [sched.__dict__]). *)
Record TorchObj : Type := mkObj {
  obj_device : string;
  obj_state : list (string * Param)
}.

(** What a call of [torch.save] leaves in the file it was given: the record,
    or, when it raised after the file had been opened for writing, a file
    that holds no complete record. *)
Inductive File : Type :=
| Pickled (state : gmap string Value)
| Incomplete.

(** The part of torch the container calls and this repository does not
    define. *)
Class TorchAPI : Type := {
  (* [torch.save(state, f)] opens [f] for writing: returns or raises *)
  open_for_writing : string -> Res unit;
  (* and then pickles the record into it: returns or raises *)
  pickle : gmap string Value -> Res unit;
  (* what [torch.load] raises on a file without a complete record *)
  truncated : Exn;
  (* [obj.state_dict()] *)
  state_dict : TorchObj -> StateDict;
  (* [module.load_state_dict(sd, strict=strict)] *)
  module_load_state_dict : bool -> StateDict -> TorchObj -> Res TorchObj;
  (* [optim.load_state_dict(sd)], [sched.load_state_dict(sd)] *)
  optim_load_state_dict : StateDict -> TorchObj -> Res TorchObj;
  (* [module.to(device)] *)
  module_to : string -> TorchObj -> TorchObj
}.

(** * _parameter.py: the HyperParameters container *)

Module HyperParameters.

(** The name Python gives the private attribute [self.__no_serialize]. *)
Definition no_serialize : string := "_HyperParameters__no_serialize".

Definition property_names : list string :=
  ["optimizer"; "scheduler"; "batch_subdivisions"].
Definition method_names : list string := ["save"; "load"; "to"].

(** Lookup past the properties: the instance dictionary, then the class. *)
Definition inst_attr (self : gmap string Value) (name : string) : Res Value :=
  match self !! name with
  | Some v => Ok v
  | None => if name_in name (method_names ++ object_names)
            then Ok (VMethod name) else Raise AttributeError
  end.

(** [getattr(self, name)]: the three properties are data descriptors and
    win over the instance dictionary. *)
Definition getattr (self : gmap string Value) (name : string) : Res Value :=
  if String.eqb name "optimizer" then
    match inst_attr self "optimizers" with
    | Ok v => subscript0 v
    | Raise e => Raise e
    end
  else if String.eqb name "scheduler" then
    match inst_attr self "schedulers" with
    | Ok v => subscript0 v
    | Raise e => Raise e
    end
  else if String.eqb name "batch_subdivisions" then
    match inst_attr self "batch_size", inst_attr self "mini_batch_size" with
    | Ok a, Ok b =>
        match as_int a, as_int b with
        | Ok x, Ok y => match floordiv x y with Ok q => Ok (VInt q) | Raise e => Raise e end
        | Raise e, _ => Raise e
        | _, Raise e => Raise e
        end
    | Raise e, _ => Raise e
    | _, Raise e => Raise e
    end
  else inst_attr self name.

(** [hasattr] answers [False] on [AttributeError] only; any other exception
    of a property getter propagates. *)
Definition hasattr (self : gmap string Value) (name : string) : Res bool :=
  match getattr self name with
  | Ok _ => Ok true
  | Raise AttributeError => Ok false
  | Raise e => Raise e
  end.

(** [setattr(self, name, v)]: the properties have no setter. *)
Definition setattr (self : gmap string Value) (name : string) (v : Value)
  : Res (gmap string Value) :=
  if name_in name property_names then Raise AttributeError
  else Ok (<[name := v]> self).

(** What the methods of a store can reach. *)
Record World : Type := mkWorld {
  self : gmap string Value;                  (* [vars(self)] *)
  heap : gmap nat TorchObj;                  (* the torch objects *)
  files : gmap string File;                  (* what [torch.save] wrote *)
  warnings : list string                     (* [log.warn] records *)
}.

Definition read (name : string) : M World Value :=
  fun w => (getattr (self w) name, w).
Definition has (name : string) : M World bool :=
  fun w => (hasattr (self w) name, w).
Definition assign (name : string) (v : Value) : M World unit :=
  fun w => match setattr (self w) name v with
           | Ok s => (Ok tt, mkWorld s (heap w) (files w) (warnings w))
           | Raise e => (Raise e, w)
           end.
Definition warn (msg : string) : M World unit :=
  modify (fun w => mkWorld (self w) (heap w) (files w) (warnings w ++ [msg])).

(** The list behind [self.__no_serialize]; a value without [append] or
    [remove] raises. *)
Definition read_no_serialize : M World (list Value) :=
  do v <- read no_serialize;
  match v with
  | VList l => ret l
  | _ => raise AttributeError
  end.

Definition collision_warning (key : string) : string :=
  (key ++ " attribute already exists as a HyperParameter and will not be overwritten.")%string.

(** One turn of [for key in kwargs]. *)
Definition init_kwarg (kv : string * Value) : M World unit :=
  let val := snd kv in
  do key <- match fst kv with
            | String "_"%char rest =>
                do l <- read_no_serialize;
                assign no_serialize (VList (l ++ [VStr rest])) ;;
                ret rest
            | key => ret key
            end;
  do h <- has key;
  if negb h then assign key val
  else
    warn (collision_warning key) ;;
    do l <- read_no_serialize;
    if str_in key l then assign no_serialize (VList (remove_first key l))
    else ret tt.

(** [HyperParameters.__init__(network, optimizers, schedulers, batch_size,
    mini_batch_size, **kwargs)]; [kwargs] is a dict, so its keys are
    distinct and come in the order they were written. *)
Definition __init__ (network optimizers schedulers : Value)
    (batch_size : Z) (mini_batch_size : option Z)
    (kwargs : list (string * Value)) : M World unit :=
  assign "network" network ;;
  assign "batch_size" (VInt batch_size) ;;
  assign "batch" (VInt 0) ;;
  assign "epoch" (VInt 0) ;;
  match mini_batch_size with
  | None => assign "mini_batch_size" (VInt batch_size)
  | Some m =>
      if m >? batch_size then assign "mini_batch_size" (VInt batch_size)
      else
        do r <- lift (pymod batch_size m);
        if negb (r =? 0) then raise ValueError
        else assign "mini_batch_size" (VInt m)
  end ;;
  (if orb (match optimizers with VNone => true | _ => false end) (is_iterable optimizers)
   then assign "optimizers" optimizers
   else assign "optimizers" (VList [optimizers])) ;;
  (if orb (match schedulers with VNone => true | _ => false end) (is_iterable schedulers)
   then assign "schedulers" schedulers
   else assign "schedulers" (VList [schedulers])) ;;
  assign no_serialize (VList [VStr "network"; VStr "optimizers"; VStr "schedulers"]) ;;
  for_each kwargs init_kwarg.

(** The parameters of [__init__]: Python rejects a call that passes one of
    them among the keyword arguments as well, before the body runs. *)
Definition parameter_names : list string :=
  ["self"; "network"; "optimizers"; "schedulers"; "batch_size"; "mini_batch_size"].

(** Construction: [__init__] on a new object whose dictionary is empty. *)
Definition new (w : World) (network optimizers schedulers : Value)
    (batch_size : Z) (mini_batch_size : option Z)
    (kwargs : list (string * Value)) : Res unit * World :=
  if existsb (fun kv => name_in (fst kv) parameter_names) kwargs then (Raise TypeError, w)
  else
    __init__ network optimizers schedulers batch_size mini_batch_size kwargs
      (mkWorld ∅ (heap w) (files w) (warnings w)).

Definition empty_world : World := mkWorld ∅ ∅ ∅ [].

(** Whether a field is left out of [save]. *)
Definition excluded (self : gmap string Value) (key : string) : bool :=
  match self !! no_serialize with
  | Some (VList l) => str_in key l
  | _ => false
  end.

(** [key in container] *)
Definition contains (container : Value) (key : string) : Res bool :=
  match container with
  | VList l => Ok (str_in key l)
  | VStr s => Ok (match String.index 0 key s with Some _ => true | None => false end)
  | VStateDict sd => Ok (name_in key (map fst sd))
  | _ => Raise TypeError
  end.

(** [key not in container], for a container that supports the test. *)
Definition kept (container : Value) (key : string) : bool :=
  match contains container key with Ok false => true | _ => false end.

Section Persistence.
Context `{TorchAPI}.

(** The object behind an expression such as [self.network] or [optim];
    a value that is no torch object has none of the methods called on it. *)
Definition deref (v : Value) : M World (nat * TorchObj) :=
  fun w => match v with
           | VRef a => match heap w !! a with
                       | Some o => (Ok (a, o), w)
                       | None => (Raise AttributeError, w)
                       end
           | _ => (Raise AttributeError, w)
           end.

Definition store_obj (a : nat) (o : TorchObj) : M World unit :=
  modify (fun w => mkWorld (self w) (<[a := o]> (heap w)) (files w) (warnings w)).

(** [obj.state_dict()] *)
Definition snapshot (v : Value) : M World Value :=
  do ao <- deref v;
  ret (VStateDict (state_dict (snd ao))).

Fixpoint map_m {A B} (f : A -> M World B) (l : list A) : M World (list B) :=
  match l with
  | [] => ret []
  | x :: rest => do y <- f x; do ys <- map_m f rest; ret (y :: ys)
  end.

(** [{k: v for k, v in vars(self).items() if k not in self.__no_serialize}].
    The comprehension reads [self.__no_serialize] once for each item and the
    read changes nothing, so it is read once here, and not at all when
    [vars(self)] is empty. *)
Definition serializable : M World (gmap string Value) :=
  do w <- get;
  match map_to_list (self w) with
  | [] => ret ∅
  | _ :: _ =>
      do c <- read no_serialize;
      lift (contains c "") ;;
      ret (filter (fun kv : string * Value => kept c (fst kv) = true) (self w))
  end.

(** [torch.save(state, filename)]: the file is opened for writing, which
    empties it, and the record is pickled into it.  Either step can raise;
    when the second does, the file is left without a complete record. *)
Definition torch_save (state : gmap string Value) (filename : string) : M World unit :=
  lift (open_for_writing filename) ;;
  modify (fun w => mkWorld (self w) (heap w) (<[filename := Incomplete]> (files w))
                     (warnings w)) ;;
  lift (pickle state) ;;
  modify (fun w => mkWorld (self w) (heap w) (<[filename := Pickled state]> (files w))
                     (warnings w)).

(** [HyperParameters.save(filename)] *)
Definition save (filename : string) : M World unit :=
  do state <- serializable;
  do net <- read "network";
  do sd <- snapshot net;
  let state := <["network" := sd]> state in
  do optims <- read "optimizers";
  do state <- match optims with
              | VNone => ret state
              | _ => do items <- lift (iterate optims);
                     do sds <- map_m snapshot items;
                     ret (<["optimizers" := VList sds]> state)
              end;
  do scheds <- read "schedulers";
  do state <- match scheds with
              | VNone => ret state
              | _ => do items <- lift (iterate scheds);
                     do sds <- map_m snapshot items;
                     ret (<["schedulers" := VList sds]> state)
              end;
  torch_save state filename.

(** [state.pop(key)] *)
Definition pop (key : string) (state : gmap string Value)
  : M World (Value * gmap string Value) :=
  match state !! key with
  | Some v => ret (v, delete key state)
  | None => raise KeyError
  end.

Definition as_state_dict (v : Value) : M World StateDict :=
  match v with
  | VStateDict sd => ret sd
  | _ => raise TypeError
  end.

(** [for i, optim in enumerate(items): optim.load_state_dict(saved[i])] *)
Fixpoint load_each (saved : Value) (i : nat) (items : list Value) : M World unit :=
  match items with
  | [] => ret tt
  | optim :: rest =>
      do ao <- deref optim;
      do v <- lift (subscript saved i);
      do sd <- as_state_dict v;
      do o <- lift (optim_load_state_dict sd (snd ao));
      store_obj (fst ao) o ;;
      load_each saved (S i) rest
  end.

(** [HyperParameters.load(filename, strict)].  The fields of the record are
    written back in the key order of the map. *)
Definition load (filename : string) (strict : bool) : M World unit :=
  do w <- get;
  do state <- match files w !! filename with
              | Some (Pickled st) => ret st
              | Some Incomplete => raise truncated
              | None => raise FileNotFoundError
              end;
  do net <- read "network";
  do ao <- deref net;
  do vs <- pop "network" state;
  do sd <- as_state_dict (fst vs);
  do o <- lift (module_load_state_dict strict sd (snd ao));
  store_obj (fst ao) o ;;
  let state := snd vs in
  do optims <- read "optimizers";
  do state <- match optims with
              | VNone => ret state
              | _ => do vs <- pop "optimizers" state;
                     do items <- lift (iterate optims);
                     load_each (fst vs) 0 items ;;
                     ret (snd vs)
              end;
  do scheds <- read "schedulers";
  do state <- match scheds with
              | VNone => ret state
              | _ => do vs <- pop "schedulers" state;
                     do items <- lift (iterate scheds);
                     load_each (fst vs) 0 items ;;
                     ret (snd vs)
              end;
  for_each (map_to_list state) (fun kv => assign (fst kv) (snd kv)).

(** [param.data = param.data.to(device)], and the same for the gradient
    when there is one. *)
Definition move_tensor (device : string) (t : Tensor) : Tensor :=
  mkTensor device (match grad_device t with Some _ => Some device | None => None end).

Definition move_subparam (device : string) (sp : SubParam) : SubParam :=
  match sp with
  | STensor t => STensor (move_tensor device t)
  | SOther n => SOther n
  end.

(** The body of [for param in optim.state.values()]. *)
Definition move_optim_param (device : string) (p : Param) : Param :=
  match p with
  | PTensor t => PTensor (move_tensor device t)
  | PDict d => PDict (map (fun kv => (fst kv, move_subparam device (snd kv))) d)
  | POther n => POther n
  end.

(** The body of [for param in sched.__dict__.values()]. *)
Definition move_sched_param (device : string) (p : Param) : Param :=
  match p with
  | PTensor t => PTensor (move_tensor device t)
  | other => other
  end.

Definition move_obj (f : Param -> Param) (v : Value) : M World unit :=
  do ao <- deref v;
  let o := snd ao in
  store_obj (fst ao)
    (mkObj (obj_device o) (map (fun kv => (fst kv, f (snd kv))) (obj_state o))).

(** [HyperParameters.to(device)] *)
Definition to (device : string) : M World unit :=
  do net <- read "network";
  do ao <- deref net;
  store_obj (fst ao) (module_to device (snd ao)) ;;
  do optims <- read "optimizers";
  do items <- lift (iterate optims);
  for_each items (move_obj (move_optim_param device)) ;;
  do scheds <- read "schedulers";
  do items <- lift (iterate scheds);
  for_each items (move_obj (move_sched_param device)).

End Persistence.

(** ** Vocabulary of the properties *)

(** The key of a keyword argument once the exclusion prefix is stripped. *)
Definition stripped (key : string) : string :=
  match key with
  | String "_"%char rest => rest
  | _ => key
  end.

(** Whether a keyword argument carries the exclusion prefix. *)
Definition prefixed (key : string) : bool :=
  match key with
  | String "_"%char _ => true
  | _ => false
  end.

(** Keyword arguments none of which names a property of the class. *)
Definition benign (kwargs : list (string * Value)) : Prop :=
  Forall (fun kv => name_in (stripped (fst kv)) property_names = false) kwargs.

(** A computation that never raises [ValueError]. *)
Definition quiet {A} (c : M World A) : Prop := forall w, fst (c w) <> Raise ValueError.

(** A single optimizer or scheduler becomes a list of one. *)
Definition normalised (v : Value) : Value :=
  if orb (match v with VNone => true | _ => false end) (is_iterable v)
  then v else VList [v].

(** The dictionary [__init__] has built when it reaches the keyword
    arguments, [m] being the mini-batch size it settled on. *)
Definition fields (network optimizers schedulers : Value) (bs m : Z) : gmap string Value :=
  <[no_serialize := VList [VStr "network"; VStr "optimizers"; VStr "schedulers"]]>
    (<["schedulers" := normalised schedulers]>
      (<["optimizers" := normalised optimizers]>
        (<["mini_batch_size" := VInt m]>
          (<["epoch" := VInt 0]>
            (<["batch" := VInt 0]>
              (<["batch_size" := VInt bs]>
                (<["network" := network]> ∅))))))).

(** The world [__init__] starts from. *)
Definition blank (w : World) : World := mkWorld ∅ (heap w) (files w) (warnings w).

(** What holds of the dictionary of a store from its construction on: the
    exclusion list is a list that names the three torch fields, and no key
    shadows a property. *)
Definition names_torch (ns : list Value) : Prop :=
  str_in "network" ns = true /\ str_in "optimizers" ns = true
  /\ str_in "schedulers" ns = true.

Definition store_ok (s : gmap string Value) : Prop :=
  (exists ns, s !! no_serialize = Some (VList ns) /\ names_torch ns)
  /\ forall p, In p property_names -> s !! p = None.

(** [torch.save(state, f)] runs to its end: the file can be opened for
    writing and the record can be pickled. *)
Definition storable `{TorchAPI} (f : string) (state : gmap string Value) : Prop :=
  open_for_writing f = Ok tt /\ pickle state = Ok tt.

(** The field [name] of a store holds [None], or a list of references to
    torch objects that exist. *)
Definition sequence_of (w : World) (name : string) (refs : option (list nat)) : Prop :=
  match refs with
  | None => self w !! name = Some VNone
  | Some l => self w !! name = Some (VList (map VRef l))
              /\ Forall (fun a => is_Some (heap w !! a)) l
  end.

(** The object [move_obj f] puts in the place of [o]. *)
Definition moved (f : Param -> Param) (o : TorchObj) : TorchObj :=
  mkObj (obj_device o) (map (fun kv => (fst kv, f (snd kv))) (obj_state o)).

(** The second half of a turn of the keyword loop: [hasattr], then
    [setattr] or the warning. *)
Definition settle (key : string) (val : Value) : M World unit :=
  do h <- has key;
  if negb h then assign key val
  else
    warn (collision_warning key) ;;
    do l <- read_no_serialize;
    if str_in key l then assign no_serialize (VList (remove_first key l))
    else ret tt.

(** The shape of a torch object decides which snapshots it accepts. *)
Class TorchShapes `{TorchAPI} : Type := {
  Shape : Type;
  shape : TorchObj -> Shape;
  module_accepts : forall strict o1 o2, shape o1 = shape o2 ->
    exists o', module_load_state_dict strict (state_dict o1) o2 = Ok o'
               /\ shape o' = shape o2;
  optim_accepts : forall o1 o2, shape o1 = shape o2 ->
    exists o', optim_load_state_dict (state_dict o1) o2 = Ok o'
               /\ shape o' = shape o2
}.

Section Shapes.
Context `{TorchShapes}.

(** The references [refs_o] in the heap [ho] and [refs_f] in the heap [hf]
    are to objects of the same shapes, position by position. *)
Definition paired (ho hf : gmap nat TorchObj) (refs_o refs_f : list nat) : Prop :=
  Forall2 (fun ao af => exists oo, ho !! ao = Some oo
                                   /\ shape <$> (hf !! af) = Some (shape oo))
          refs_o refs_f.

(** The snapshots [save] takes of the objects behind [refs]. *)
Definition snapshots (h : gmap nat TorchObj) (refs : list nat) : list Value :=
  flat_map (fun a => match h !! a with
                     | Some o => [VStateDict (state_dict o)]
                     | None => []
                     end) refs.

(** The addresses among the items of a sequence. *)
Definition refs_of (items : list Value) : list nat :=
  flat_map (fun v => match v with VRef a => [a] | _ => [] end) items.

(** The entry [save] adds to the record for a field that holds a sequence of
    objects, and none for a field that holds [None]. *)
Definition entry (h : gmap nat TorchObj) (field : option Value) : option Value :=
  match field with
  | Some (VList items) => Some (VList (snapshots h (refs_of items)))
  | _ => None
  end.

Definition with_snapshots (h : gmap nat TorchObj) (name : string) (field : option Value)
    (state : gmap string Value) : gmap string Value :=
  match entry h field with
  | Some v => <[name := v]> state
  | None => state
  end.

(** The record [save] writes for a well-formed store. *)
Definition record (w : World) : gmap string Value :=
  with_snapshots (heap w) "schedulers" (self w !! "schedulers")
    (with_snapshots (heap w) "optimizers" (self w !! "optimizers")
      (<["network" := match self w !! "network" with
                      | Some (VRef a) =>
                          match heap w !! a with
                          | Some o => VStateDict (state_dict o)
                          | None => VNone
                          end
                      | _ => VNone
                      end]>
        (filter (fun kv : string * Value => excluded (self w) (fst kv) = false) (self w)))).

(** The field [name] of two stores: absent in both, or sequences of objects
    of the same shapes. *)
Definition same_sequences (wo wf : World) (name : string) : Prop :=
  (self wo !! name = Some VNone /\ self wf !! name = Some VNone)
  \/ exists refs_o refs_f,
       self wo !! name = Some (VList (map VRef refs_o))
       /\ self wf !! name = Some (VList (map VRef refs_f))
       /\ paired (heap wo) (heap wf) refs_o refs_f.

(** Two stores built on a model, optimizers and schedulers of the same
    shapes. *)
Definition same_shapes (wo wf : World) : Prop :=
  (exists ao af, self wo !! "network" = Some (VRef ao)
                 /\ self wf !! "network" = Some (VRef af)
                 /\ paired (heap wo) (heap wf) [ao] [af])
  /\ same_sequences wo wf "optimizers"
  /\ same_sequences wo wf "schedulers".

(** Every address holds an object of the shape it has in [h]. *)
Definition shapes_of (h h' : gmap nat TorchObj) : Prop :=
  forall a, shape <$> (h' !! a) = shape <$> (h !! a).

End Shapes.

End HyperParameters.

(** * engine.py: the Engine base class *)

Module Engine.

(** ** The hook registry *)

Inductive Table : Type := EpochStart | EpochEnd | BatchStart | BatchEnd.

(** A registered callback: its name and, for a bound method, the receiver
    it carries as [__self__]. *)
Record Fn : Type := mkFn {
  fn_name : string;
  fn_self : option string
}.

(** A hook table is a dict from interval to the list of callbacks, in the
    order the intervals were first inserted. *)
Abbreviation HookTable := (list (Z * list Fn)).

(** The hook tables bound in the body of one class; [None] for a table the
    class body does not bind. *)
Record Tables : Type := mkTables {
  _epoch_start : option HookTable;
  _epoch_end : option HookTable;
  _batch_start : option HookTable;
  _batch_end : option HookTable
}.

Definition get_table (t : Table) (ts : Tables) : option HookTable :=
  match t with
  | EpochStart => _epoch_start ts
  | EpochEnd => _epoch_end ts
  | BatchStart => _batch_start ts
  | BatchEnd => _batch_end ts
  end.

Definition set_table (t : Table) (h : HookTable) (ts : Tables) : Tables :=
  match t with
  | EpochStart => mkTables (Some h) (_epoch_end ts) (_batch_start ts) (_batch_end ts)
  | EpochEnd => mkTables (_epoch_start ts) (Some h) (_batch_start ts) (_batch_end ts)
  | BatchStart => mkTables (_epoch_start ts) (_epoch_end ts) (Some h) (_batch_end ts)
  | BatchEnd => mkTables (_epoch_start ts) (_epoch_end ts) (_batch_start ts) (Some h)
  end.

Definition table_name (t : Table) : string :=
  match t with
  | EpochStart => "_epoch_start"
  | EpochEnd => "_epoch_end"
  | BatchStart => "_batch_start"
  | BatchEnd => "_batch_end"
  end.

(** A class of the Engine hierarchy: its [__mro__] (the class first, [Engine]
    last), the other names its body binds, and the hook tables its body
    binds. *)
Record ClassDef : Type := mkClass {
  cls_mro : list string;
  cls_names : list string;
  cls_tables : Tables
}.

(** The names the body of [Engine] binds besides the four tables. *)
Definition engine_names : list string :=
  ["_init_done"; "__init__"; "__call__"; "__getattr__"; "__setattr__";
   "_Engine__sigint_handler"; "log"; "_run_hooks"; "epoch_start"; "epoch_end";
   "batch_start"; "batch_end"; "start"; "process_batch"; "train_batch"; "quit"].

(** [class Engine(ABC)]: the four tables start as empty dicts. *)
Definition engine_class : ClassDef :=
  mkClass ["Engine"] engine_names (mkTables (Some []) (Some []) (Some []) (Some [])).

(** The classes defined so far. *)
Definition initial_classes : gmap string ClassDef := {["Engine" := engine_class]}.

(** [class name(parent): ...] with a body that binds [names] and, for the
    tables given in [own], a dict of its own. *)
Definition define_class (name parent : string) (names : list string) (own : Tables)
    (cs : gmap string ClassDef) : option (gmap string ClassDef) :=
  match cs !! parent with
  | Some p => Some (<[name := mkClass (name :: cls_mro p) names own]> cs)
  | None => None
  end.

(** The class along [mro] whose body binds the table: attribute lookup on a
    class walks its [__mro__]. *)
Fixpoint owner_in (cs : gmap string ClassDef) (t : Table) (mro : list string)
  : option string :=
  match mro with
  | [] => None
  | c :: rest =>
      match cs !! c with
      | Some d => match get_table t (cls_tables d) with
                  | Some _ => Some c
                  | None => owner_in cs t rest
                  end
      | None => owner_in cs t rest
      end
  end.

Definition owner (cs : gmap string ClassDef) (cls : string) (t : Table) : option string :=
  match cs !! cls with
  | Some d => owner_in cs t (cls_mro d)
  | None => None
  end.

(** [cls._epoch_start] and its three siblings. *)
Definition lookup_table (cs : gmap string ClassDef) (cls : string) (t : Table)
  : option HookTable :=
  match owner cs cls t with
  | Some c => match cs !! c with
              | Some d => get_table t (cls_tables d)
              | None => None
              end
  | None => None
  end.

(** [if interval in table: table[interval].append(fn)
     else: table[interval] = [fn]] *)
Fixpoint add_hook (interval : Z) (fn : Fn) (table : HookTable) : HookTable :=
  match table with
  | [] => [(interval, [fn])]
  | (k, fns) :: rest =>
      if k =? interval then (k, fns ++ [fn]) :: rest
      else (k, fns) :: add_hook interval fn rest
  end.

(** The decorator [cls.<table>(interval)] applied to [fn]: it mutates the
    dict that [cls.<table>] resolves to. *)
Definition register (t : Table) (cls : string) (interval : Z) (fn : Fn)
    (cs : gmap string ClassDef) : Res (gmap string ClassDef) :=
  match owner cs cls t with
  | Some c =>
      match cs !! c with
      | Some d =>
          match get_table t (cls_tables d) with
          | Some table =>
              Ok (<[c := mkClass (cls_mro d) (cls_names d)
                           (set_table t (add_hook interval fn table) (cls_tables d))]> cs)
          | None => Raise AttributeError
          end
      | None => Raise AttributeError
      end
  | None => Raise AttributeError
  end.

Definition epoch_start := register EpochStart.
Definition epoch_end := register EpochEnd.
Definition batch_start := register BatchStart.
Definition batch_end := register BatchEnd.

(** ** Instances *)

(** An engine: its class, its instance dictionary and the store that
    [self.params] refers to. *)
Record Instance : Type := mkInst {
  cls : string;
  dict : gmap string Value;
  params : gmap string Value
}.

(** What the training cycle does that can be observed from outside. *)
Inductive Event : Type :=
| EvSignalHandler                       (* [signal.signal(SIGINT, handler)] *)
| EvStart                               (* [self.start()] *)
| EvNetworkTrain                        (* [self.network.train()] *)
| EvDispatch (t : Table) (value : Value) (* [_run_hooks(value, table)] is entered *)
| EvHook (fn : Fn) (with_self : bool)   (* [fn()] or [fn(self)] *)
| EvProcess (data : Value)              (* [self.process_batch(data)] *)
| EvTrain                               (* [self.train_batch()] *)
| EvQuit.                               (* [self.quit()] *)

Record World : Type := mkWorld {
  classes : gmap string ClassDef;
  this : Instance;
  trace : list Event;
  log : list (string * string)          (* level and message *)
}.

(** The methods a concrete engine brings, and the bodies of the callbacks
    that were registered: each acts on the engine it is given. *)
Record UserCode : Type := mkUser {
  start : Instance -> Res unit * Instance;
  process_batch : Value -> Instance -> Res unit * Instance;
  train_batch : Instance -> Res unit * Instance;
  quit : Instance -> Res Value * Instance;
  hook_body : Fn -> Instance -> Res unit * Instance
}.

(** [Engine.start] and [Engine.quit] as the base class defines them. *)
Definition default_start (i : Instance) : Res unit * Instance := (Ok tt, i).
Definition default_quit (i : Instance) : Res Value * Instance := (Ok (VBool false), i).

Definition emit (e : Event) : M World unit :=
  modify (fun w => mkWorld (classes w) (this w) (trace w ++ [e]) (log w)).
Definition log_record (level msg : string) : M World unit :=
  modify (fun w => mkWorld (classes w) (this w) (trace w) (log w ++ [(level, msg)])).
Definition user {A} (f : Instance -> Res A * Instance) : M World A :=
  fun w => let r := f (this w) in
           (fst r, mkWorld (classes w) (snd r) (trace w) (log w)).

(** ** The attribute bridge *)

(** The names the class of an instance answers to. *)
Fixpoint class_names (cs : gmap string ClassDef) (mro : list string) : list string :=
  match mro with
  | [] => object_names
  | c :: rest =>
      match cs !! c with
      | Some d => cls_names d ++ class_names cs rest
      | None => class_names cs rest
      end
  end.

Definition class_attr (cs : gmap string ClassDef) (c : string) (name : string)
  : option Value :=
  match cs !! c with
  | Some d =>
      if name_in name (map table_name [EpochStart; EpochEnd; BatchStart; BatchEnd])
      then Some (VMethod name)
      else if name_in name (class_names cs (cls_mro d)) then
        if String.eqb name "_init_done" then Some (VBool false)
        else Some (VMethod name)
      else None
  | None => None
  end.

(** Normal attribute lookup: the instance dictionary, then the class. *)
Definition native (cs : gmap string ClassDef) (i : Instance) (name : string)
  : option Value :=
  match dict i !! name with
  | Some v => Some v
  | None => class_attr cs (cls i) name
  end.

(** [Engine.__getattr__(name)], which Python calls when normal lookup
    fails.  Reading [self.params] is itself an attribute read, and calls
    [__getattr__] again without end when the engine has no [params]. *)
Definition __getattr__ (name : string) : M World Value :=
  fun w =>
    match native (classes w) (this w) "params" with
    | None => (Raise RecursionError, w)
    | Some VStore =>
        match HyperParameters.hasattr (params (this w)) name with
        | Ok true => (HyperParameters.getattr (params (this w)) name, w)
        | Ok false => (Raise AttributeError, w)
        | Raise e => (Raise e, w)
        end
    | Some _ => (Raise AttributeError, w)
    end.

(** [self.name] *)
Definition read (name : string) : M World Value :=
  fun w =>
    match native (classes w) (this w) name with
    | Some v => (Ok v, w)
    | None => __getattr__ name w
    end.

(** [hasattr(self, name)] *)
Definition has (name : string) : M World bool :=
  fun w =>
    match read name w with
    | (Ok _, w') => (Ok true, w')
    | (Raise AttributeError, w') => (Ok false, w')
    | (Raise e, w') => (Raise e, w')
    end.

(** [super().__setattr__(name, value)] *)
Definition set_native (name : string) (value : Value) : M World unit :=
  modify (fun w =>
    mkWorld (classes w)
      (mkInst (cls (this w)) (<[name := value]> (dict (this w))) (params (this w)))
      (trace w) (log w)).

(** [setattr(self.params, name, value)] *)
Definition set_param (name : string) (value : Value) : M World unit :=
  fun w =>
    match HyperParameters.setattr (params (this w)) name value with
    | Ok p => (Ok tt, mkWorld (classes w) (mkInst (cls (this w)) (dict (this w)) p)
                        (trace w) (log w))
    | Raise e => (Raise e, w)
    end.

(** [hasattr(self.params, name)] *)
Definition params_has (name : string) : M World bool :=
  do p <- read "params";
  match p with
  | VStore => fun w => (HyperParameters.hasattr (params (this w)) name, w)
  | _ => ret false
  end.

(** [Engine.__setattr__(name, value)]; [name in dir(self)] holds for the
    names normal lookup finds. *)
Definition __setattr__ (name : string) (value : Value) : M World unit :=
  do done <- read "_init_done";
  do w <- get;
  if andb (truthy done)
          (match native (classes w) (this w) name with Some _ => false | None => true end)
  then
    do h <- params_has name;
    if h then set_param name value else set_native name value
  else set_native name value.

(** ** Construction and the interrupt handler *)

Definition no_dataloader_warning : string :=
  "No dataloader given, make sure to have a self.dataloader property for this engine to work with.".
Definition exists_warning (key : string) : string :=
  (key ++ " attribute already exists on engine.")%string.

(** One turn of [for key in kwargs]. *)
Definition init_kwarg (kv : string * Value) : M World unit :=
  do h <- has (fst kv);
  if negb h then __setattr__ (fst kv) (snd kv)
  else log_record "WARNING" (exists_warning (fst kv)).

(** [Engine.__init__(params, dataloader, **kwargs)] on the engine [this],
    whose store is already in place behind [VStore]. *)
Definition __init__ (dataloader : Value) (kwargs : list (string * Value)) : M World unit :=
  __setattr__ "params" VStore ;;
  match dataloader with
  | VNone => log_record "WARNING" no_dataloader_warning
  | _ => __setattr__ "dataloader" dataloader
  end ;;
  __setattr__ "sigint" (VBool false) ;;
  emit EvSignalHandler ;;
  __setattr__ "_Engine__log" (VMethod "ln.logger") ;;
  for_each kwargs init_kwarg ;;
  __setattr__ "_init_done" (VBool true).

(** The parameters of [__init__]: Python rejects a call that passes one of
    them among the keyword arguments as well, before the body runs. *)
Definition parameter_names : list string := ["self"; "params"; "dataloader"].

(** A new instance of class [c] built on the store [p]. *)
Definition new (cs : gmap string ClassDef) (c : string) (p : gmap string Value)
    (dataloader : Value) (kwargs : list (string * Value)) : Res unit * World :=
  if existsb (fun kv => name_in (fst kv) parameter_names) kwargs
  then (Raise TypeError, mkWorld cs (mkInst c ∅ p) [] [])
  else __init__ dataloader kwargs (mkWorld cs (mkInst c ∅ p) [] []).

Definition sigint_notice : string := "SIGINT caught. Waiting for gracefull exit".

(** [Engine.__sigint_handler(signal, frame)] *)
Definition __sigint_handler : M World unit :=
  do s <- read "sigint";
  if negb (truthy s) then
    log_record "DEBUG" sigint_notice ;;
    __setattr__ "sigint" (VBool true)
  else ret tt.

(** The handler run once for each of [n] signals. *)
Fixpoint signals (n : nat) : M World unit :=
  match n with
  | O => ret tt
  | S m => __sigint_handler ;; signals m
  end.

(** ** The training cycle *)

(** The call [_run_hooks] makes for a callback: [hasattr(fn, '__self__')]
    decides whether the engine is passed. *)
Definition hook_event (fn : Fn) : Event :=
  EvHook fn (match fn_self fn with Some _ => false | None => true end).

Section Cycle.
Variable uc : UserCode.

(** [fn()] for a bound method, [fn(self)] otherwise. *)
Definition call_hook (fn : Fn) : M World unit :=
  emit (hook_event fn) ;;
  user (hook_body uc fn).

(** [value % k == 0] *)
Definition divides (value : Value) (k : Z) : M World bool :=
  do v <- lift (as_int value);
  do r <- lift (pymod v k);
  ret (r =? 0).

(** [Engine._run_hooks(value, hooks)] *)
Fixpoint _run_hooks (value : Value) (hooks : HookTable) : M World unit :=
  match hooks with
  | [] => ret tt
  | (k, fns) :: rest =>
      do d <- divides value k;
      (if d then for_each fns call_hook else ret tt) ;;
      _run_hooks value rest
  end.

(** [self._epoch_start] and its siblings, read on the instance. *)
Definition read_table (t : Table) : M World HookTable :=
  fun w =>
    match dict (this w) !! table_name t with
    | Some _ => (Raise AttributeError, w)
    | None =>
        match lookup_table (classes w) (cls (this w)) t with
        | Some h => (Ok h, w)
        | None => (Raise AttributeError, w)
        end
    end.

(** [self._run_hooks(self.<counter>, self.<table>)] *)
Definition dispatch (counter : string) (t : Table) : M World unit :=
  do v <- read counter;
  do h <- read_table t;
  emit (EvDispatch t v) ;;
  _run_hooks v h.

(** [self.<counter> += delta] *)
Definition add_to (counter : string) (delta : Z) : M World unit :=
  do v <- read counter;
  do n <- lift (as_int v);
  __setattr__ counter (VInt (n + delta)).

Definition read_int (name : string) : M World Z :=
  do v <- read name;
  lift (as_int v).

(** [self.quit() or self.sigint] *)
Definition quit_or_sigint : M World bool :=
  emit EvQuit ;;
  do q <- user (quit uc);
  if truthy q then ret true
  else do s <- read "sigint"; ret (truthy s).

Definition quitting : M World unit := log_record "INFO" "Reached quitting criteria".

(** How the [for] loop over the loader ends. *)
Inductive Exit : Type := Exhausted | Broke | Returned.

(** [for idx, data in enumerate(loader): ...] from position [idx] on, for a
    loader of length [len]. *)
Fixpoint batch_loop (len : Z) (idx : Z) (items : list Value) : M World Exit :=
  match items with
  | [] => ret Exhausted
  | data :: rest =>
      add_to "batch" 1 ;;
      dispatch "batch" BatchStart ;;
      emit (EvProcess data) ;;
      user (process_batch uc data) ;;
      do sub <- read_int "batch_subdivisions";
      do r <- lift (pymod (idx + 1) sub);
      if negb (r =? 0) then
        add_to "batch" (-1) ;;
        batch_loop len (idx + 1) rest
      else
        emit EvTrain ;;
        user (train_batch uc) ;;
        dispatch "batch" BatchEnd ;;
        do q <- quit_or_sigint;
        if q then quitting ;; ret Returned
        else
          do sub <- read_int "batch_subdivisions";
          if len - idx <=? sub then ret Broke
          else batch_loop len (idx + 1) rest
  end.

(** One turn of [while True]; [true] when the cycle returns. *)
Definition epoch : M World bool :=
  add_to "epoch" 1 ;;
  dispatch "epoch" EpochStart ;;
  do loader <- read "dataloader";
  do items <- lift (iterate loader);
  do ex <- batch_loop (Z.of_nat (length items)) 0 items;
  match ex with
  | Returned => ret true
  | _ =>
      dispatch "epoch" EpochEnd ;;
      do q <- quit_or_sigint;
      if q then quitting ;; ret true else ret false
  end.

Fixpoint epochs (fuel : nat) : M World bool :=
  match fuel with
  | O => ret false
  | S n => do r <- epoch; if r then ret true else epochs n
  end.

(** [Engine.__call__()], cut off after [fuel] epochs; [true] when the cycle
    returned within them. *)
Definition __call__ (fuel : nat) : M World bool :=
  emit EvStart ;;
  user (start uc) ;;
  log_record "INFO" "Start training" ;;
  do net <- read "network";
  match net with
  | VRef _ => emit EvNetworkTrain
  | _ => raise AttributeError
  end ;;
  epochs fuel.

End Cycle.

(** ** Vocabulary of the properties *)

(** The calls a dispatch on the integer [v] makes, table entry by table
    entry. *)
Definition fired (v : Z) (table : HookTable) : list Event :=
  flat_map (fun kf => if v mod fst kf =? 0 then map hook_event (snd kf) else []) table.

(** The callbacks those calls are made to, in the order of the calls. *)
Definition called (v : Z) (table : HookTable) : list Fn :=
  flat_map (fun kf => if v mod fst kf =? 0 then snd kf else []) table.

(** The engine after the bodies of the callbacks [fns] have run on it, one
    after the other. *)
Definition after_hooks (uc : UserCode) (fns : list Fn) (i : Instance) : Instance :=
  fold_left (fun i fn => snd (hook_body uc fn i)) fns i.

Definition nonzero_keys (table : HookTable) : Prop :=
  Forall (fun kf => fst kf <> 0) table.
Definition positive_keys (table : HookTable) : Prop :=
  Forall (fun kf => 0 < fst kf) table.

(** [fn] is in the list the table holds under [k]. *)
Definition registered (table : HookTable) (k : Z) (fn : Fn) : Prop :=
  exists fns, In (k, fns) table /\ In fn fns.
Definition unregistered (table : HookTable) (fn : Fn) : Prop :=
  forall k, ~ registered table k fn.

(** [c] run from [w] returns normally, having appended [evs] to the trace
    and left the classes and the log as they were; [Q] holds of the result
    and of the engine. *)
Definition run {A} (c : M World A) (w : World) (evs : list Event)
    (Q : A -> Instance -> Prop) : Prop :=
  exists a w', c w = (Ok a, w') /\ classes w' = classes w /\ log w' = log w
               /\ trace w' = trace w ++ evs /\ Q a (this w').

Definition with_params (w : World) (p : gmap string Value) : World :=
  mkWorld (classes w) (mkInst (cls (this w)) (dict (this w)) p) (trace w) (log w).

(** Projections of a trace. *)
Definition trains (evs : list Event) : nat :=
  length (List.filter (fun ev => match ev with EvTrain => true | _ => false end) evs).
Definition processed (evs : list Event) : list Value :=
  flat_map (fun ev => match ev with EvProcess d => [d] | _ => [] end) evs.
Definition table_eqb (a b : Table) : bool :=
  match a, b with
  | EpochStart, EpochStart | EpochEnd, EpochEnd
  | BatchStart, BatchStart | BatchEnd, BatchEnd => true
  | _, _ => false
  end.
Definition dispatched (t : Table) (evs : list Event) : list Value :=
  flat_map (fun ev => match ev with
                      | EvDispatch t' v => if table_eqb t t' then [v] else []
                      | _ => []
                      end) evs.
Definition fn_eqb (f g : Fn) : bool :=
  String.eqb (fn_name f) (fn_name g) &&
  match fn_self f, fn_self g with
  | Some a, Some b => String.eqb a b
  | None, None => true
  | _, _ => false
  end.
Definition calls (fn : Fn) (evs : list Event) : nat :=
  length (List.filter (fun ev => match ev with
                                 | EvHook g _ => fn_eqb fn g
                                 | _ => false
                                 end) evs).

(** The engine of class [c] while [__init__] runs, once [sigint] is set. *)
Definition constructing (cs : gmap string ClassDef) (c : string) (w : World) : Prop :=
  classes w = cs /\ cls (this w) = c
  /\ dict (this w) !! "_init_done" = None
  /\ dict (this w) !! "sigint" = Some (VBool false)
  /\ length (List.filter
               (fun r => String.eqb (fst r) "DEBUG" && String.eqb (snd r) sigint_notice)
               (log w)) = 0%nat.

(** The engine of class [c] on the store [p] while [__init__] runs its
    keyword loop: the handler is installed, [params], [sigint] and the
    loader are in place, and nothing but warnings was logged. *)
Definition building (cs : gmap string ClassDef) (c : string) (p : gmap string Value)
    (dataloader : Value) (w : World) : Prop :=
  classes w = cs /\ cls (this w) = c /\ params (this w) = p
  /\ trace w = [EvSignalHandler]
  /\ dict (this w) !! "_init_done" = None
  /\ dict (this w) !! "params" = Some VStore
  /\ dict (this w) !! "sigint" = Some (VBool false)
  /\ dict (this w) !! "dataloader"
     = match dataloader with VNone => None | v => Some v end
  /\ Forall (fun r : string * string => fst r = "WARNING") (log w).

(** User code with the [quit] of the base class in the place of its own. *)
Definition with_default_quit (uc : UserCode) : UserCode :=
  mkUser (start uc) (process_batch uc) (train_batch uc) default_quit (hook_body uc).

(** User code with the [start] of the base class in the place of its own. *)
Definition with_default_start (uc : UserCode) : UserCode :=
  mkUser default_start (process_batch uc) (train_batch uc) (quit uc) (hook_body uc).

(** How many times the log holds the notice of the interrupt handler. *)
Definition notices (l : list (string * string)) : nat :=
  length (List.filter
            (fun r => String.eqb (fst r) "DEBUG" && String.eqb (snd r) sigint_notice) l).

(** The names the cycle reads through the bridge. *)
Definition bridged : list string := ["epoch"; "batch"; "batch_subdivisions"].

Section Steady.
Variable uc : UserCode.
Variable cs : gmap string ClassDef.
Variable c : string.
Variables bsz mbsz : Z.
Variable loader : list Value.
Variable tab : Table -> HookTable.

(** What the cycle needs of the class [c] of the engine. *)
Record static : Prop := {
  sta_free : forall name, In name bridged -> class_attr cs c name = None;
  sta_tab : forall t, lookup_table cs c t = Some (tab t);
  sta_keys : forall t, nonzero_keys (tab t);
  sta_mbs : mbsz <> 0
}.

(** An engine of class [c] between two steps of the cycle: constructed, not
    interrupted, its counters [e] and [b] and its batch sizes in the store,
    and none of the bridged names shadowed on the engine itself. *)
Record steady (e b : Z) (i : Instance) : Prop := {
  st_cls : cls i = c;
  st_done : dict i !! "_init_done" = Some (VBool true);
  st_params : dict i !! "params" = Some VStore;
  st_sigint : dict i !! "sigint" = Some (VBool false);
  st_loader : dict i !! "dataloader" = Some (VList loader);
  st_free : forall name, In name bridged -> dict i !! name = None;
  st_tab : forall t, dict i !! table_name t = None;
  st_epoch : params i !! "epoch" = Some (VInt e);
  st_batch : params i !! "batch" = Some (VInt b);
  st_bs : params i !! "batch_size" = Some (VInt bsz);
  st_mbs : params i !! "mini_batch_size" = Some (VInt mbsz)
}.

(** User code that returns normally and leaves a steady engine steady;
    [quit] answers a false value. *)
Record stable : Prop := {
  sb_start : forall e b i, steady e b i ->
    exists i', start uc i = (Ok tt, i') /\ steady e b i';
  sb_process : forall d e b i, steady e b i ->
    exists i', process_batch uc d i = (Ok tt, i') /\ steady e b i';
  sb_train : forall e b i, steady e b i ->
    exists i', train_batch uc i = (Ok tt, i') /\ steady e b i';
  sb_quit : forall e b i, steady e b i ->
    exists v i', quit uc i = (Ok v, i') /\ truthy v = false /\ steady e b i';
  sb_hook : forall fn e b i, steady e b i ->
    exists i', hook_body uc fn i = (Ok tt, i') /\ steady e b i'
}.

(** [batch_subdivisions] *)
Definition sub : Z := bsz / mbsz.

(** The trace of one mini-batch run with batch counter [b], and of the
    completion of an accumulation batch. *)
Definition mini (b : Z) (d : Value) : list Event :=
  EvDispatch BatchStart (VInt b) :: fired b (tab BatchStart) ++ [EvProcess d].

Definition completion (b : Z) : list Event :=
  [EvTrain; EvDispatch BatchEnd (VInt b)] ++ fired b (tab BatchEnd) ++ [EvQuit].

(** The trace of the accumulation batch made of the mini-batches [g]. *)
Definition group (b : Z) (g : list Value) : list Event :=
  flat_map (mini b) g ++ completion b.

(** The trace of the loop over a loader when every two consecutive
    mini-batches make an accumulation batch, from batch counter [b] on. *)
Fixpoint pairs_trace (b : Z) (items : list Value) : list Event :=
  match items with
  | x :: y :: rest => group (b + 1) [x; y] ++ pairs_trace (b + 1) rest
  | _ => []
  end.

(** The trace of the loop over [items] cut into [n] accumulation batches of
    [size] mini-batches each, from batch counter [b] on. *)
Fixpoint groups_trace (n size : nat) (b : Z) (items : list Value) : list Event :=
  match n with
  | O => []
  | S n' => group (b + 1) (take size items)
            ++ groups_trace n' size (b + 1) (drop size items)
  end.

(** The trace of a whole epoch with counter [e] around the loop trace. *)
Definition epoch_trace (e : Z) (loop_evs : list Event) : list Event :=
  (EvDispatch EpochStart (VInt e) :: fired e (tab EpochStart))
  ++ loop_evs
  ++ (EvDispatch EpochEnd (VInt e) :: fired e (tab EpochEnd))
  ++ [EvQuit].

End Steady.

Arguments sta_free {cs c mbsz tab} _ name _.
Arguments sta_tab {cs c mbsz tab} _ t.
Arguments sta_keys {cs c mbsz tab} _ t.
Arguments sta_mbs {cs c mbsz tab} _.
Arguments st_cls {c bsz mbsz loader} e b i _.
Arguments st_done {c bsz mbsz loader} e b i _.
Arguments st_params {c bsz mbsz loader} e b i _.
Arguments st_sigint {c bsz mbsz loader} e b i _.
Arguments st_loader {c bsz mbsz loader} e b i _.
Arguments st_free {c bsz mbsz loader} e b i _ name _.
Arguments st_tab {c bsz mbsz loader} e b i _ t.
Arguments st_epoch {c bsz mbsz loader} e b i _.
Arguments st_batch {c bsz mbsz loader} e b i _.
Arguments st_bs {c bsz mbsz loader} e b i _.
Arguments st_mbs {c bsz mbsz loader} e b i _.
Arguments sb_start {uc c bsz mbsz loader} _ e b i _.
Arguments sb_process {uc c bsz mbsz loader} _ d e b i _.
Arguments sb_train {uc c bsz mbsz loader} _ e b i _.
Arguments sb_quit {uc c bsz mbsz loader} _ e b i _.
Arguments sb_hook {uc c bsz mbsz loader} _ fn e b i _.

End Engine.

(** * A concrete session *)

Module Demo.

(** A torch in which a state dict is the mapping of the object itself, a
    strict load and an optimizer load want exactly the keys of the object,
    and a lenient load takes the values of the keys the object has. *)
Definition keys (sd : StateDict) : list string := map fst sd.

Fixpoint find_param (key : string) (sd : StateDict) : option Param :=
  match sd with
  | [] => None
  | (k, p) :: rest => if String.eqb k key then Some p else find_param key rest
  end.

Definition lenient (sd : StateDict) (o : TorchObj) : TorchObj :=
  mkObj (obj_device o)
    (map (fun kp => (fst kp, match find_param (fst kp) sd with
                             | Some p => p
                             | None => snd kp
                             end)) (obj_state o)).

(** Functions defined where they are used cannot be pickled. *)
Definition picklable (v : Value) : bool :=
  match v with VMethod _ => false | _ => true end.

#[global] Instance plain_torch : TorchAPI := {|
  open_for_writing f := if String.eqb f "" then Raise FileNotFoundError else Ok tt;
  pickle state :=
    if forallb picklable (map snd (map_to_list state)) then Ok tt
    else Raise AttributeError;
  truncated := UnpicklingError;
  state_dict o := obj_state o;
  module_load_state_dict strict sd o :=
    if strict then
      if bool_decide (keys sd = keys (obj_state o)) then Ok (mkObj (obj_device o) sd)
      else Raise KeyError
    else Ok (lenient sd o);
  optim_load_state_dict sd o :=
    if bool_decide (keys sd = keys (obj_state o)) then Ok (mkObj (obj_device o) sd)
    else Raise ValueError;
  module_to device o := mkObj device (obj_state o)
|}.

#[global, refine] Instance plain_shapes : HyperParameters.TorchShapes := {|
  HyperParameters.Shape := list string;
  HyperParameters.shape o := keys (obj_state o)
|}.
Proof.
  - intros strict o1 o2 Hs. cbn. destruct strict.
    + rewrite bool_decide_eq_true_2 by exact Hs. eexists. split; [reflexivity|]. exact Hs.
    + eexists. split; [reflexivity|]. unfold lenient, keys. cbn.
      rewrite map_map. reflexivity.
  - intros o1 o2 Hs. cbn.
    rewrite bool_decide_eq_true_2 by exact Hs. eexists. split; [reflexivity|]. exact Hs.
Defined.

Definition cpu (grad : bool) : Tensor :=
  mkTensor "cpu" (if grad then Some "cpu" else None).

(** A model, an optimizer with a momentum buffer, and a scheduler. *)
Definition objects : gmap nat TorchObj :=
  <[0%nat := mkObj "cpu" [("weight", PTensor (cpu true)); ("bias", PTensor (cpu true))]]>
    (<[1%nat := mkObj "cpu" [("weight", PDict [("momentum", STensor (cpu false));
                                                ("step", SOther 0)])]]>
      (<[2%nat := mkObj "cpu" [("last_epoch", POther 0)]]> ∅)).

Definition machine : HyperParameters.World :=
  HyperParameters.mkWorld ∅ objects ∅ [].

(** [HyperParameters(net, optim, batch_size=8, mini_batch_size=4, rate=3,
    _tag='run')] *)
Definition saved : HyperParameters.World :=
  snd (HyperParameters.new machine (VRef 0) (VRef 1) VNone 8 (Some 4)
         [("rate", VInt 3); ("_tag", VStr "run")]).

Definition checkpoint : string := "checkpoint.pt".

Definition after_save : HyperParameters.World :=
  snd (HyperParameters.save checkpoint saved).

(** [HyperParameters(net, optim, _rate=0)], built after the save. *)
Definition loading : HyperParameters.World :=
  snd (HyperParameters.new after_save (VRef 0) (VRef 1) VNone 1 None [("_rate", VInt 0)]).

Definition after_load : HyperParameters.World :=
  snd (HyperParameters.load checkpoint false loading).

(** [HyperParameters(net, optim, _tag='other')], built after the save: it
    excludes the fields the saved store excludes. *)
Definition fresh : HyperParameters.World :=
  snd (HyperParameters.new after_save (VRef 0) (VRef 1) VNone 1 None
         [("_tag", VStr "other")]).

(** [HyperParameters(net, collate=collate)] for a function [collate] that
    cannot be pickled, built after the save. *)
Definition with_function : HyperParameters.World :=
  snd (HyperParameters.new after_save (VRef 0) VNone VNone 1 None
         [("collate", VMethod "collate")]).

(** [HyperParameters(net)] *)
Definition bare : HyperParameters.World :=
  snd (HyperParameters.new machine (VRef 0) VNone VNone 8 (Some 4) []).

(** [HyperParameters(net, _foo=1)] and [HyperParameters(net, _foo=1, foo=2)] *)
Definition private_foo : HyperParameters.World :=
  snd (HyperParameters.new machine (VRef 0) VNone VNone 1 None [("_foo", VInt 1)]).
Definition private_then_public_foo : HyperParameters.World :=
  snd (HyperParameters.new machine (VRef 0) VNone VNone 1 None
         [("_foo", VInt 1); ("foo", VInt 2)]).

(** [HyperParameters(net, optim, sched, batch_size=8, mini_batch_size=4)] *)
Definition full : HyperParameters.World :=
  snd (HyperParameters.new machine (VRef 0) (VRef 1) (VRef 2) 8 (Some 4) []).

(** The store without optimizers, saved; then [HyperParameters(net, optim)]
    built to load that file. *)
Definition bare_saved : HyperParameters.World :=
  snd (HyperParameters.save checkpoint bare).
Definition with_optimizer : HyperParameters.World :=
  snd (HyperParameters.new bare_saved (VRef 0) (VRef 1) VNone 1 None []).

(** [HyperParameters(net)], built after the store with an optimizer was
    saved. *)
Definition without_optimizer : HyperParameters.World :=
  snd (HyperParameters.new after_save (VRef 0) VNone VNone 1 None []).

(** A store with [batch_size=8] and [mini_batch_size=4]. *)
Definition store : gmap string Value :=
  HyperParameters.self
    (snd (HyperParameters.new HyperParameters.empty_world
            (VRef 0) VNone VNone 8 (Some 4) [])).

Definition no_tables : Engine.Tables := Engine.mkTables None None None None.

Definition or_empty (o : option (gmap string Engine.ClassDef)) : gmap string Engine.ClassDef :=
  match o with Some cs => cs | None => ∅ end.
Definition or_same (cs : gmap string Engine.ClassDef)
    (r : Res (gmap string Engine.ClassDef)) : gmap string Engine.ClassDef :=
  match r with Ok cs' => cs' | Raise _ => cs end.

(** Two engines that only implement the two abstract methods. *)
Definition two_classes : gmap string Engine.ClassDef :=
  or_empty (Engine.define_class "Validator" "Engine" ["process_batch"; "train_batch"] no_tables
    (or_empty (Engine.define_class "Trainer" "Engine" ["process_batch"; "train_batch"]
                 no_tables Engine.initial_classes))).

Definition show_rate : Engine.Fn := Engine.mkFn "show_rate" None.
Definition plot : Engine.Fn := Engine.mkFn "plot" None.
Definition backup : Engine.Fn := Engine.mkFn "backup" (Some "trainer").

(** [@Trainer.batch_start(2)] on [show_rate]. *)
Definition hooked_classes : gmap string Engine.ClassDef :=
  or_same two_classes (Engine.batch_start "Trainer" 2 show_rate two_classes).

(** User code: [process_batch] remembers the last mini-batch on the
    engine, the rest does nothing; [start] and [quit] are the defaults. *)
Definition user_code : Engine.UserCode :=
  Engine.mkUser Engine.default_start
    (fun d i => (Ok tt, Engine.mkInst (Engine.cls i) (<["last" := d]> (Engine.dict i))
                           (Engine.params i)))
    (fun i => (Ok tt, i))
    Engine.default_quit
    (fun _ i => (Ok tt, i)).

Definition ten : list Value :=
  [VInt 0; VInt 1; VInt 2; VInt 3; VInt 4; VInt 5; VInt 6; VInt 7; VInt 8; VInt 9].

(** [Trainer(params, dataloader)] *)
Definition trainer : Engine.World :=
  snd (Engine.new hooked_classes "Trainer" store (VList ten) []).

(** [Trainer(params, dataloader, batch_size=3)] and [Trainer(params, None)] *)
Definition trainer_with_keyword : Engine.World :=
  snd (Engine.new hooked_classes "Trainer" store (VList ten) [("batch_size", VInt 3)]).
Definition trainer_without_loader : Engine.World :=
  snd (Engine.new hooked_classes "Trainer" store VNone []).

(** [@Trainer.batch_start(0)] on [plot]. *)
Definition zero_hooked : gmap string Engine.ClassDef :=
  or_same two_classes (Engine.batch_start "Trainer" 0 plot two_classes).

(** The user code with a [quit] that answers [True]. *)
Definition quitter : Engine.UserCode :=
  Engine.mkUser (Engine.start user_code) (Engine.process_batch user_code)
    (Engine.train_batch user_code)
    (fun i => (Ok (VBool true), i))
    (Engine.hook_body user_code).

(** The user code with callbacks that write their names to [self.journal],
    in the order they are called. *)
Definition journal (i : Engine.Instance) : list Value :=
  match Engine.dict i !! "journal" with
  | Some (VList l) => l
  | _ => []
  end.
Definition journalling : Engine.UserCode :=
  Engine.mkUser (Engine.start user_code) (Engine.process_batch user_code)
    (Engine.train_batch user_code) (Engine.quit user_code)
    (fun fn i => (Ok tt, Engine.mkInst (Engine.cls i)
                           (<["journal" := VList (journal i ++ [VStr (Engine.fn_name fn)])]>
                              (Engine.dict i))
                           (Engine.params i))).

(** The user code with a [start] that creates the dataloader. *)
Definition late_loader : Engine.UserCode :=
  Engine.mkUser
    (fun i => (Ok tt, Engine.mkInst (Engine.cls i)
                        (<["dataloader" := VList ten]> (Engine.dict i)) (Engine.params i)))
    (Engine.process_batch user_code) (Engine.train_batch user_code)
    (Engine.quit user_code) (Engine.hook_body user_code).

Definition tables (t : Engine.Table) : Engine.HookTable :=
  match Engine.lookup_table hooked_classes "Trainer" t with
  | Some h => h
  | None => []
  end.

(** What one epoch of the trainer appends to the trace. *)
Definition epoch_events : list Engine.Event :=
  Engine.trace (snd (Engine.epoch user_code trainer)).

End Demo.

(** * Properties of the container *)

Module HyperParametersProps.
Import HyperParameters.

Lemma bind_run {S A B} (c : M S A) (k : A -> M S B) s a s' :
  c s = (Ok a, s') -> bind c k s = k a s'.
Proof. intros H. unfold bind. by rewrite H. Qed.

Lemma bind_raise {S A B} (c : M S A) (k : A -> M S B) s e s' :
  c s = (Raise e, s') -> bind c k s = (Raise e, s').
Proof. intros H. unfold bind. by rewrite H. Qed.

(** ** Attribute access *)

Lemma name_in_property name :
  name_in name property_names = false ->
  String.eqb name "optimizer" = false /\ String.eqb name "scheduler" = false
  /\ String.eqb name "batch_subdivisions" = false.
Proof.
  unfold name_in, property_names. cbn [existsb]. intros H.
  apply orb_false_elim in H as [H1 H]. apply orb_false_elim in H as [H2 H].
  apply orb_false_elim in H as [H3 _]. done.
Qed.

Lemma getattr_plain s name :
  name_in name property_names = false -> getattr s name = inst_attr s name.
Proof.
  intros H. destruct (name_in_property _ H) as (H1 & H2 & H3).
  unfold getattr. by rewrite H1, H2, H3.
Qed.

Lemma getattr_present s name v :
  name_in name property_names = false -> s !! name = Some v -> getattr s name = Ok v.
Proof. intros H Hs. rewrite getattr_plain by done. unfold inst_attr. by rewrite Hs. Qed.

Lemma assign_ok name v w :
  name_in name property_names = false ->
  assign name v w = (Ok tt, mkWorld (<[name := v]> (self w)) (heap w) (files w) (warnings w)).
Proof. intros H. unfold assign, setattr. by rewrite H. Qed.

Lemma assign_self name v w :
  self (snd (assign name v w)) = self w
  \/ (name_in name property_names = false
      /\ snd (assign name v w)
         = mkWorld (<[name := v]> (self w)) (heap w) (files w) (warnings w)).
Proof.
  unfold assign, setattr. destruct (name_in name property_names); [by left|].
  right. done.
Qed.

(** ** No step of the keyword loop raises [ValueError] *)

Lemma quiet_bind {A B} (c : M World A) (k : A -> M World B) :
  quiet c -> (forall a, quiet (k a)) -> quiet (bind c k).
Proof.
  intros Hc Hk w. unfold bind. specialize (Hc w).
  destruct (c w) as [[a|e] w']; [apply Hk|].
  simpl in *. intros He. apply Hc. congruence.
Qed.

Lemma quiet_ret {A} (a : A) : quiet (ret a).
Proof. intros w. done. Qed.

Lemma getattr_quiet s name : getattr s name <> Raise ValueError.
Proof.
  unfold getattr, inst_attr, subscript0, as_int, floordiv.
  repeat case_match; congruence.
Qed.

Lemma quiet_read name : quiet (read name).
Proof. intros w. apply getattr_quiet. Qed.

Lemma quiet_has name : quiet (has name).
Proof.
  intros w. unfold has, hasattr. simpl.
  pose proof (getattr_quiet (self w) name).
  destruct (getattr (self w) name) as [|[]]; congruence.
Qed.

Lemma quiet_assign name v : quiet (assign name v).
Proof. intros w. unfold assign, setattr. destruct (name_in name property_names); done. Qed.

Lemma quiet_warn msg : quiet (warn msg).
Proof. intros w. done. Qed.

Lemma quiet_read_no_serialize : quiet read_no_serialize.
Proof.
  apply quiet_bind; [apply quiet_read|]. intros []; try apply quiet_ret; intros w; done.
Qed.

Lemma quiet_init_kwarg kv : quiet (init_kwarg kv).
Proof.
  unfold init_kwarg. apply quiet_bind.
  - destruct (fst kv) as [|a rest]; [apply quiet_ret|].
    destruct (Ascii.eqb a "_"%char) eqn:E.
    + apply Ascii.eqb_eq in E. subst a.
      apply quiet_bind; [apply quiet_read_no_serialize|]. intros l.
      apply quiet_bind; [apply quiet_assign|]. intros _. apply quiet_ret.
    + destruct a as [[] [] [] [] [] [] [] []]; try apply quiet_ret. done.
  - intros key. apply quiet_bind; [apply quiet_has|]. intros [].
    + cbn [negb]. apply quiet_bind; [apply quiet_warn|]. intros _.
      apply quiet_bind; [apply quiet_read_no_serialize|]. intros l.
      destruct (str_in key l); [apply quiet_assign | apply quiet_ret].
    + apply quiet_assign.
Qed.

Lemma quiet_for_each kwargs : quiet (for_each kwargs init_kwarg).
Proof.
  induction kwargs as [|kv kwargs IH]; [apply quiet_ret|].
  cbn [for_each]. apply quiet_bind; [apply quiet_init_kwarg | intros _; exact IH].
Qed.

(** ** The body of [__init__] up to the keyword arguments *)

Lemma init_sequences v k w :
  ((if orb (match v with VNone => true | _ => false end) (is_iterable v)
    then assign k v else assign k (VList [v])) : M World unit) w
  = assign k (normalised v) w.
Proof. unfold normalised. by destruct (orb _ _). Qed.

Lemma init_tail network optimizers schedulers bs m kwargs w :
  ((if orb (match optimizers with VNone => true | _ => false end) (is_iterable optimizers)
    then assign "optimizers" optimizers
    else assign "optimizers" (VList [optimizers])) ;;
   (if orb (match schedulers with VNone => true | _ => false end) (is_iterable schedulers)
    then assign "schedulers" schedulers
    else assign "schedulers" (VList [schedulers])) ;;
   assign no_serialize (VList [VStr "network"; VStr "optimizers"; VStr "schedulers"]) ;;
   for_each kwargs init_kwarg)
    (mkWorld (<["mini_batch_size" := VInt m]>
                (<["epoch" := VInt 0]>
                  (<["batch" := VInt 0]>
                    (<["batch_size" := VInt bs]> (<["network" := network]> ∅)))))
       (heap w) (files w) (warnings w))
  = for_each kwargs init_kwarg
      (mkWorld (fields network optimizers schedulers bs m) (heap w) (files w) (warnings w)).
Proof.
  erewrite bind_run by (rewrite init_sequences; by apply assign_ok).
  erewrite bind_run by (rewrite init_sequences; by apply assign_ok).
  erewrite bind_run by (by apply assign_ok).
  reflexivity.
Qed.

(** The mini-batch size [__init__] settles on. *)
Lemma init_settled network optimizers schedulers bs mbs m kwargs w :
  match mbs with
  | None => m = bs
  | Some x => (bs < x /\ m = bs) \/ (x <= bs /\ x <> 0 /\ bs mod x = 0 /\ m = x)
  end ->
  __init__ network optimizers schedulers bs mbs kwargs (blank w)
  = for_each kwargs init_kwarg
      (mkWorld (fields network optimizers schedulers bs m) (heap w) (files w) (warnings w)).
Proof.
  intros Hm. unfold __init__, blank.
  do 4 (erewrite bind_run by (by apply assign_ok)). cbn [self heap files warnings].
  rewrite <- (init_tail network optimizers schedulers bs m kwargs w).
  destruct mbs as [x|].
  - destruct Hm as [[Hlt ->]|(Hle & Hnz & Hmod & ->)].
    + destruct (x >? bs) eqn:E; [|lia].
      erewrite bind_run by (by apply assign_ok). reflexivity.
    + destruct (x >? bs) eqn:E; [lia|].
      erewrite bind_run; cycle 1.
      { erewrite bind_run; cycle 1.
        { unfold lift, pymod. destruct (x =? 0) eqn:E0; [lia|]. reflexivity. }
        rewrite Hmod. cbn [Z.eqb negb]. by apply assign_ok. }
      reflexivity.
  - subst m. erewrite bind_run by (by apply assign_ok). reflexivity.
Qed.

(** The check of the mini-batch size fails. *)
Lemma init_rejected network optimizers schedulers bs x kwargs w :
  x <= bs -> x <> 0 -> bs mod x <> 0 ->
  fst (__init__ network optimizers schedulers bs (Some x) kwargs (blank w)) = Raise ValueError.
Proof.
  intros Hle Hnz Hmod. unfold __init__, blank.
  do 4 (erewrite bind_run by (by apply assign_ok)).
  destruct (x >? bs) eqn:E; [lia|].
  erewrite bind_raise; [reflexivity|].
  erewrite bind_run; cycle 1.
  { unfold lift, pymod. destruct (x =? 0) eqn:E0; [lia|]. reflexivity. }
  destruct (bs mod x =? 0) eqn:E1; [lia|]. reflexivity.
Qed.

Lemma new_call w network optimizers schedulers bs mbs kwargs :
  existsb (fun kv => name_in (fst kv) parameter_names) kwargs = false ->
  new w network optimizers schedulers bs mbs kwargs
  = __init__ network optimizers schedulers bs mbs kwargs (blank w).
Proof. intros H. unfold new. by rewrite H. Qed.

(** ** One keyword argument *)

Lemma has_spec key w : has key w = (hasattr (self w) key, w).
Proof. reflexivity. Qed.

Lemma hasattr_present s key v :
  name_in key property_names = false -> s !! key = Some v -> hasattr s key = Ok true.
Proof. intros Hk Hs. unfold hasattr. by rewrite (getattr_present _ _ _ Hk Hs). Qed.

Lemma hasattr_plain s key :
  name_in key property_names = false ->
  hasattr s key = Ok (match inst_attr s key with Ok _ => true | Raise _ => false end).
Proof.
  intros Hk. unfold hasattr. rewrite getattr_plain by done.
  unfold inst_attr. destruct (s !! key); [done|].
  destruct (name_in key (method_names ++ object_names)); done.
Qed.

Lemma init_kwarg_split kv w :
  init_kwarg kv w
  = match fst kv with
    | String "_"%char rest =>
        (do l <- read_no_serialize;
         assign no_serialize (VList (l ++ [VStr rest])) ;;
         settle rest (snd kv)) w
    | key => settle key (snd kv) w
    end.
Proof.
  unfold init_kwarg, settle.
  destruct (fst kv) as [|a rest] eqn:E; [reflexivity|].
  destruct a as [[] [] [] [] [] [] [] []]; try reflexivity.
  unfold bind. destruct (read_no_serialize w) as [[l|e] w1]; [|reflexivity].
  destruct (assign no_serialize (VList (l ++ [VStr rest])) w1) as [[[]|e] w2]; reflexivity.
Qed.

Lemma read_no_serialize_self w : snd (read_no_serialize w) = w.
Proof.
  unfold read_no_serialize, bind, read. destruct (getattr (self w) no_serialize) as [[]|]; done.
Qed.

Lemma read_no_serialize_ok w ns :
  self w !! no_serialize = Some (VList ns) -> read_no_serialize w = (Ok ns, w).
Proof.
  intros H. unfold read_no_serialize, bind, read.
  by rewrite (getattr_present _ no_serialize _ eq_refl H).
Qed.

(** An existing field other than the exclusion list keeps its value. *)
Lemma settle_keeps key val w name v :
  name <> no_serialize -> self w !! name = Some v ->
  self (snd (settle key val w)) !! name = Some v.
Proof.
  intros Hne Hs. unfold settle, bind. rewrite has_spec.
  destruct (hasattr (self w) key) as [[]|e] eqn:Eh; cbn [negb]; [| |done].
  - cbn [warn modify].
    match goal with |- context [read_no_serialize ?w1] =>
      pose proof (read_no_serialize_self w1) as Hr;
      destruct (read_no_serialize w1) as [[l|e] w2] end; simpl in Hr; subst w2; [|done].
    destruct (str_in key l); [|done].
    rewrite assign_ok by reflexivity. simpl. by rewrite lookup_insert_ne.
  - destruct (assign_self key val w) as [->|[Hk ->]]; [done|]. simpl.
    destruct (decide (key = name)) as [->|Hkn]; [|by rewrite lookup_insert_ne].
    rewrite (hasattr_present _ _ _ Hk Hs) in Eh. done.
Qed.

Lemma init_kwarg_keeps kv w name v :
  name <> no_serialize -> self w !! name = Some v ->
  self (snd (init_kwarg kv w)) !! name = Some v.
Proof.
  intros Hne Hs. rewrite init_kwarg_split.
  destruct (fst kv) as [|a rest]; [by apply settle_keeps|].
  destruct a as [[] [] [] [] [] [] [] []]; try by apply settle_keeps.
  unfold bind.
  pose proof (read_no_serialize_self w) as Hr.
  destruct (read_no_serialize w) as [[l|e] w1]; simpl in Hr; subst w1; [|done].
  rewrite assign_ok by reflexivity.
  apply settle_keeps; [done|]. simpl. by rewrite lookup_insert_ne.
Qed.

Lemma for_each_keeps kwargs w name v :
  name <> no_serialize -> self w !! name = Some v ->
  self (snd (for_each kwargs init_kwarg w)) !! name = Some v.
Proof.
  intros Hne. revert w. induction kwargs as [|kv kwargs IH]; intros w Hs; [done|].
  cbn [for_each]. unfold bind.
  pose proof (init_kwarg_keeps kv w name v Hne Hs) as H1.
  destruct (init_kwarg kv w) as [[[]|e] w1]; [|done].
  by apply IH.
Qed.

(** ** The exclusion list through the keyword loop *)

Lemma is_str_both n k v : is_str n v = true -> is_str k v = true -> n = k.
Proof.
  destruct v; try done. simpl. intros H1 H2.
  apply String.eqb_eq in H1, H2. congruence.
Qed.

Lemma str_in_app n l1 l2 : str_in n (l1 ++ l2) = str_in n l1 || str_in n l2.
Proof. unfold str_in. apply existsb_app. Qed.

Lemma str_in_remove_other n k l :
  n <> k -> str_in n (remove_first k l) = str_in n l.
Proof.
  intros Hne. induction l as [|v l IH]; [done|]. cbn [remove_first].
  destruct (is_str k v) eqn:Ek.
  - cbn [str_in existsb]. destruct (is_str n v) eqn:En; [|done].
    destruct Hne. by eapply is_str_both.
  - change (str_in n (v :: ?x)) with (is_str n v || str_in n x). by rewrite IH.
Qed.

Lemma remove_first_app k l1 l2 :
  str_in k l1 = true -> remove_first k (l1 ++ l2) = remove_first k l1 ++ l2.
Proof.
  induction l1 as [|v l1 IH]; [done|]. intros H. cbn [app remove_first].
  destruct (is_str k v) eqn:Ek; [done|].
  rewrite IH; [done|]. cbn [str_in existsb] in H. by rewrite Ek in H.
Qed.

Lemma is_str_refl k : is_str k (VStr k) = true.
Proof. apply String.eqb_refl. Qed.

(** Appending the stripped key and removing its first occurrence leaves
    the three torch fields in the list. *)
Lemma names_torch_append ns k : names_torch ns -> names_torch (ns ++ [VStr k]).
Proof.
  intros (H1 & H2 & H3). unfold names_torch. rewrite !str_in_app, H1, H2, H3. done.
Qed.

Lemma names_torch_append_remove ns k :
  names_torch ns -> names_torch (remove_first k (ns ++ [VStr k])).
Proof.
  intros Hn. pose proof Hn as (H1 & H2 & H3).
  assert (Hone : forall n, str_in n ns = true ->
            str_in n (remove_first k (ns ++ [VStr k])) = true).
  { intros n Hin. destruct (decide (n = k)) as [->|Hne].
    - rewrite remove_first_app by done. rewrite str_in_app.
      cbn [str_in existsb]. rewrite is_str_refl. by rewrite orb_true_r.
    - rewrite str_in_remove_other by done. by rewrite str_in_app, Hin. }
  split_and!; by apply Hone.
Qed.

Lemma names_torch_remove ns k :
  name_in k parameter_names = false -> names_torch ns -> names_torch (remove_first k ns).
Proof.
  intros Hk (H1 & H2 & H3).
  unfold name_in, parameter_names in Hk. cbn [existsb] in Hk.
  repeat (apply orb_false_elim in Hk as [? Hk]).
  unfold names_torch. rewrite !str_in_remove_other; [done|..];
    intros <-; by rewrite String.eqb_refl in *.
Qed.

Lemma property_not_name key p :
  name_in key property_names = false -> In p property_names -> key <> p.
Proof.
  intros Hk Hp <-. destruct (name_in_property _ Hk) as (H1 & H2 & H3).
  destruct Hp as [<-|[<-|[<-|[]]]]; by rewrite String.eqb_refl in *.
Qed.

(** [settle] keeps the store well formed when the removal it may do leaves
    the three torch fields in the list. *)
Lemma settle_store_ok key val w ns :
  self w !! no_serialize = Some (VList ns) ->
  names_torch ns -> names_torch (remove_first key ns) ->
  (forall p, In p property_names -> self w !! p = None) ->
  store_ok (self (snd (settle key val w))).
Proof.
  intros Hns Hn Hr Hp. unfold settle, bind. rewrite has_spec.
  destruct (hasattr (self w) key) as [[]|e] eqn:Eh; cbn [negb].
  - cbn [warn modify]. erewrite read_no_serialize_ok by exact Hns.
    destruct (str_in key ns).
    + rewrite assign_ok by reflexivity. simpl. split.
      * exists (remove_first key ns). by rewrite lookup_insert_eq.
      * intros p Hin. rewrite lookup_insert_ne; [by apply Hp|].
        intros <-. by destruct Hin as [?|[?|[?|[]]]].
    + simpl. split; [by exists ns | done].
  - destruct (assign_self key val w) as [->|[Hk ->]]; [split; [by exists ns | done]|].
    simpl. split.
    + exists ns. split; [|done]. rewrite lookup_insert_ne; [done|].
      intros ->. by rewrite (hasattr_present _ _ _ Hk Hns) in Eh.
    + intros p Hin. rewrite lookup_insert_ne; [by apply Hp|].
      by eapply property_not_name.
  - simpl. split; [by exists ns | done].
Qed.

Lemma init_kwarg_store_ok kv w :
  name_in (fst kv) parameter_names = false ->
  store_ok (self w) -> store_ok (self (snd (init_kwarg kv w))).
Proof.
  intros Hk Hok. pose proof Hok as [(ns & Hns & Hn) Hp].
  assert (Hplain : store_ok (self (snd (settle (fst kv) (snd kv) w)))).
  { eapply settle_store_ok; eauto. by apply names_torch_remove. }
  rewrite init_kwarg_split.
  destruct (fst kv) as [|a rest] eqn:E; [exact Hplain|].
  destruct a as [[] [] [] [] [] [] [] []]; try exact Hplain.
  unfold bind. rewrite (read_no_serialize_ok _ _ Hns).
  rewrite assign_ok by reflexivity.
  eapply settle_store_ok.
  - simpl. by rewrite lookup_insert_eq.
  - by apply names_torch_append.
  - by apply names_torch_append_remove.
  - intros p Hin. simpl. rewrite lookup_insert_ne; [by apply Hp|].
    intros <-. by destruct Hin as [?|[?|[?|[]]]].
Qed.

Lemma for_each_store_ok kwargs w :
  existsb (fun kv => name_in (fst kv) parameter_names) kwargs = false ->
  store_ok (self w) -> store_ok (self (snd (for_each kwargs init_kwarg w))).
Proof.
  revert w. induction kwargs as [|kv kwargs IH]; intros w Hk Hok; [done|].
  cbn [existsb] in Hk. apply orb_false_elim in Hk as [Hkv Hk].
  cbn [for_each]. unfold bind.
  pose proof (init_kwarg_store_ok kv w Hkv Hok) as H1.
  destruct (init_kwarg kv w) as [[[]|e] w1]; [|done].
  by apply IH.
Qed.

Lemma remove_first_absent k l : str_in k l = false -> remove_first k (l ++ [VStr k]) = l.
Proof.
  induction l as [|v l IH]; intros Hk.
  - cbn [app remove_first]. by rewrite is_str_refl.
  - cbn [str_in existsb] in Hk. apply orb_false_elim in Hk as [Hv Hk].
    cbn [app remove_first]. rewrite Hv. by rewrite IH.
Qed.

Lemma str_in_append_remove n k l :
  str_in n (remove_first k (l ++ [VStr k])) = str_in n l.
Proof.
  destruct (str_in k l) eqn:Ek.
  - rewrite remove_first_app by done. rewrite str_in_app.
    destruct (decide (n = k)) as [->|Hne].
    + cbn [str_in existsb]. by rewrite is_str_refl, orb_true_r, Ek.
    + rewrite str_in_remove_other by done.
      cbn [str_in existsb]. replace (is_str n (VStr k)) with false; [by rewrite !orb_false_r|].
      symmetry. apply String.eqb_neq. congruence.
  - by rewrite remove_first_absent.
Qed.

(** The sibling path of the collision: for a prefixed key that collides
    with an existing field, the entry appended for it is taken off again
    and no field changes its serialization status. *)
Lemma prefixed_collision_keeps_marks rest val w ns v :
  self w !! no_serialize = Some (VList ns) ->
  name_in rest property_names = false -> self w !! rest = Some v ->
  fst (init_kwarg (String "_"%char rest, val) w) = Ok tt
  /\ forall n, excluded (self (snd (init_kwarg (String "_"%char rest, val) w))) n
               = excluded (self w) n.
Proof.
  intros Hns Hprop Hv.
  assert (Hhas : hasattr (<[no_serialize := VList (ns ++ [VStr rest])]> (self w)) rest
                 = Ok true).
  { destruct (decide (no_serialize = rest)) as [<-|Hne].
    - eapply hasattr_present; [done|]. apply lookup_insert_eq.
    - eapply hasattr_present; [done|]. by rewrite lookup_insert_ne. }
  assert (E : init_kwarg (String "_"%char rest, val) w
              = (Ok tt, mkWorld
                          (<[no_serialize := VList (remove_first rest (ns ++ [VStr rest]))]>
                             (<[no_serialize := VList (ns ++ [VStr rest])]> (self w)))
                          (heap w) (files w) (warnings w ++ [collision_warning rest]))).
  { rewrite init_kwarg_split. cbn [fst snd].
    erewrite bind_run by (by apply read_no_serialize_ok).
    erewrite bind_run by (by apply assign_ok).
    unfold settle. erewrite bind_run by (rewrite has_spec; cbn [self]; rewrite Hhas; reflexivity).
    cbn [negb]. erewrite bind_run by reflexivity.
    erewrite bind_run by (apply read_no_serialize_ok; apply lookup_insert_eq).
    rewrite str_in_app. cbn [str_in existsb]. rewrite is_str_refl, orb_true_r. cbn [orb].
    by rewrite assign_ok. }
  rewrite E. split; [reflexivity|].
  intros n. unfold excluded. cbn [snd self]. rewrite lookup_insert_eq, Hns.
  apply str_in_append_remove.
Qed.

(** ** Keyword arguments that name no property *)

Lemma settle_benign key val w ns :
  name_in key property_names = false ->
  self w !! no_serialize = Some (VList ns) ->
  exists w' ns', settle key val w = (Ok tt, w')
                 /\ self w' !! no_serialize = Some (VList ns').
Proof.
  intros Hk Hns. unfold settle, bind. rewrite has_spec, (hasattr_plain _ _ Hk).
  destruct (inst_attr (self w) key) as [v|e] eqn:Ei; cbn [negb].
  - cbn [warn modify]. erewrite read_no_serialize_ok by exact Hns.
    destruct (str_in key ns).
    + rewrite assign_ok by reflexivity. eexists _, _. split; [reflexivity|].
      simpl. by rewrite lookup_insert_eq.
    + eexists _, _. split; [reflexivity|]. exact Hns.
  - rewrite assign_ok by done. eexists _, ns. split; [reflexivity|]. simpl.
    rewrite lookup_insert_ne; [done|]. intros ->.
    unfold inst_attr in Ei. by rewrite Hns in Ei.
Qed.

Lemma init_kwarg_benign kv w ns :
  name_in (stripped (fst kv)) property_names = false ->
  self w !! no_serialize = Some (VList ns) ->
  exists w' ns', init_kwarg kv w = (Ok tt, w')
                 /\ self w' !! no_serialize = Some (VList ns').
Proof.
  intros Hk Hns. rewrite init_kwarg_split.
  destruct (fst kv) as [|a rest] eqn:E; [by eapply settle_benign|].
  destruct a as [[] [] [] [] [] [] [] []]; try by eapply settle_benign.
  cbn [stripped] in Hk.
  unfold bind. rewrite (read_no_serialize_ok _ _ Hns).
  rewrite assign_ok by reflexivity.
  eapply settle_benign; [done|]. simpl. by rewrite lookup_insert_eq.
Qed.

Lemma for_each_benign kwargs w ns :
  benign kwargs -> self w !! no_serialize = Some (VList ns) ->
  exists w', for_each kwargs init_kwarg w = (Ok tt, w').
Proof.
  intros Hb. revert w ns. induction Hb as [|kv kwargs Hkv Hb IH]; intros w ns Hns.
  - by exists w.
  - destruct (init_kwarg_benign kv w ns Hkv Hns) as (w1 & ns1 & E1 & Hns1).
    destruct (IH w1 ns1 Hns1) as (w' & E). exists w'.
    cbn [for_each]. by rewrite (bind_run _ _ _ _ _ E1).
Qed.

(** ** What a successful construction leaves *)

Lemma new_inv w network optimizers schedulers bs mbs kwargs w' :
  new w network optimizers schedulers bs mbs kwargs = (Ok tt, w') ->
  existsb (fun kv => name_in (fst kv) parameter_names) kwargs = false
  /\ exists m,
       for_each kwargs init_kwarg
         (mkWorld (fields network optimizers schedulers bs m) (heap w) (files w) (warnings w))
       = (Ok tt, w')
       /\ match mbs with
          | None => m = bs
          | Some x => (bs < x /\ m = bs) \/ (x <= bs /\ x <> 0 /\ bs mod x = 0 /\ m = x)
          end.
Proof.
  intros H. destruct (existsb _ kwargs) eqn:Ek.
  { unfold new in H. by rewrite Ek in H. }
  split; [done|]. rewrite new_call in H by done.
  assert (Hcases : exists m, match mbs with
     | None => m = bs
     | Some x => (bs < x /\ m = bs) \/ (x <= bs /\ x <> 0 /\ bs mod x = 0 /\ m = x)
     end).
  { destruct mbs as [x|]; [|by exists bs].
    destruct (Z.lt_ge_cases bs x) as [Hlt|Hge]; [exists bs; by left|].
    destruct (decide (x = 0)) as [->|Hnz].
    { exfalso. unfold __init__, blank in H.
      do 4 (erewrite bind_run in H by (by apply assign_ok)).
      destruct (0 >? bs) eqn:E; [lia|].
      erewrite bind_raise in H; [done|]. erewrite bind_raise; reflexivity. }
    destruct (decide (bs mod x = 0)) as [Hm|Hm]; [exists x; right; done|].
    exfalso. pose proof (init_rejected network optimizers schedulers bs x kwargs w Hge Hnz Hm).
    rewrite H in H0. done. }
  destruct Hcases as (m & Hm). exists m. split; [|exact Hm].
  by rewrite <- (init_settled _ _ _ _ mbs m _ _ Hm).
Qed.

Lemma fields_store_ok network optimizers schedulers bs m :
  store_ok (fields network optimizers schedulers bs m).
Proof.
  split.
  - eexists. split; [apply lookup_insert_eq|]. done.
  - intros p [<-|[<-|[<-|[]]]]; reflexivity.
Qed.

(** Every constructed store is well formed. *)
Lemma new_store_ok w network optimizers schedulers bs mbs kwargs w' :
  new w network optimizers schedulers bs mbs kwargs = (Ok tt, w') -> store_ok (self w').
Proof.
  intros H. destruct (new_inv _ _ _ _ _ _ _ _ H) as (Hk & m & E & _).
  pose proof (for_each_store_ok kwargs
    (mkWorld (fields network optimizers schedulers bs m) (heap w) (files w) (warnings w))
    Hk (fields_store_ok network optimizers schedulers bs m)) as Hs.
  by rewrite E in Hs.
Qed.

Lemma new_keeps w network optimizers schedulers bs mbs kwargs w' :
  new w network optimizers schedulers bs mbs kwargs = (Ok tt, w') ->
  self w' !! "network" = Some network
  /\ self w' !! "optimizers" = Some (normalised optimizers)
  /\ self w' !! "schedulers" = Some (normalised schedulers)
  /\ self w' !! "batch_size" = Some (VInt bs)
  /\ self w' !! "batch" = Some (VInt 0)
  /\ self w' !! "epoch" = Some (VInt 0).
Proof.
  intros H. destruct (new_inv _ _ _ _ _ _ _ _ H) as (Hk & m & E & _).
  assert (Hkeep : forall name v, name <> no_serialize ->
            fields network optimizers schedulers bs m !! name = Some v ->
            self w' !! name = Some v).
  { intros name v Hne Hf.
    pose proof (for_each_keeps kwargs
      (mkWorld (fields network optimizers schedulers bs m) (heap w) (files w) (warnings w))
      name v Hne Hf) as Hs. by rewrite E in Hs. }
  split_and!; apply Hkeep; done.
Qed.

(** C4: for positive sizes, construction fails with [ValueError] exactly
    when [mini_batch_size <= batch_size] and [batch_size % mini_batch_size
    != 0]; when [mini_batch_size > batch_size] it does not, and with keyword
    arguments that name no property it succeeds with [mini_batch_size] set
    to [batch_size]. *)
Theorem construction_fails_iff_not_multiple
    w network optimizers schedulers bs mbs kwargs :
  0 < bs -> 0 < mbs ->
  existsb (fun kv => name_in (fst kv) parameter_names) kwargs = false ->
  (fst (new w network optimizers schedulers bs (Some mbs) kwargs) = Raise ValueError
   <-> mbs <= bs /\ bs mod mbs <> 0)
  /\ (bs < mbs -> benign kwargs ->
      exists w', new w network optimizers schedulers bs (Some mbs) kwargs = (Ok tt, w')
                 /\ self w' !! "mini_batch_size" = Some (VInt bs)
                 /\ self w' !! "batch_size" = Some (VInt bs)).
Proof.
  intros Hbs Hmbs Hcall. rewrite new_call by done. split.
  - split.
    + intros Hraise.
      destruct (Z.lt_ge_cases bs mbs) as [Hlt|Hge].
      { rewrite (init_settled _ _ _ _ (Some mbs) bs) in Hraise by (left; done).
        by destruct (quiet_for_each kwargs _ Hraise). }
      split; [lia|]. intros Hmod.
      rewrite (init_settled _ _ _ _ (Some mbs) mbs) in Hraise
        by (right; split_and!; [lia | lia | done | done]).
      by destruct (quiet_for_each kwargs _ Hraise).
    + intros [Hle Hmod]. apply init_rejected; [done | lia | done].
  - intros Hlt Hb.
    rewrite (init_settled _ _ _ _ (Some mbs) bs) by (left; done).
    destruct (for_each_benign kwargs
                (mkWorld (fields network optimizers schedulers bs bs) (heap w) (files w)
                   (warnings w)) _ Hb (lookup_insert_eq _ _ _)) as (w' & E).
    exists w'. split; [exact E|].
    pose proof (for_each_keeps kwargs
      (mkWorld (fields network optimizers schedulers bs bs) (heap w) (files w) (warnings w)))
      as Hkeep. rewrite E in Hkeep.
    split; apply Hkeep; done.
Qed.

(** ** Moving to a device *)

Section Device.
Context `{TorchAPI}.

Lemma raises_bind {A B} (c : M World A) (k : A -> M World B) w :
  (forall a w1, c w = (Ok a, w1) -> is_raise (fst (k a w1)) = true) ->
  is_raise (fst (bind c k w)) = true.
Proof.
  intros Hk. unfold bind. destruct (c w) as [[a|e] w1]; [by apply Hk | done].
Qed.

Lemma read_self name w : snd (read name w) = w.
Proof. reflexivity. Qed.

Lemma read_result name w a w1 :
  read name w = (Ok a, w1) -> w1 = w /\ getattr (self w) name = Ok a.
Proof. unfold read. intros E. by inversion E. Qed.

Lemma deref_self v w : snd (deref v w) = w.
Proof. unfold deref. destruct v; try done. by destruct (heap w !! addr). Qed.

Lemma deref_result v w ao w1 : deref v w = (Ok ao, w1) -> w1 = w.
Proof. intros E. pose proof (deref_self v w) as Hs. by rewrite E in Hs. Qed.

Lemma lift_result {A} (r : Res A) (w : World) a w1 :
  lift r w = (Ok a, w1) -> w1 = w /\ r = Ok a.
Proof. unfold lift. intros E. by inversion E. Qed.

Lemma move_obj_self f v w : self (snd (move_obj f v w)) = self w.
Proof.
  unfold move_obj, bind. pose proof (deref_self v w) as Hd.
  destruct (deref v w) as [[ao|e] w1]; simpl in Hd; by subst w1.
Qed.

Lemma for_each_move_self f items w :
  self (snd (for_each items (move_obj f) w)) = self w.
Proof.
  revert w. induction items as [|v items IH]; intros w; [done|].
  cbn [for_each]. unfold bind.
  pose proof (move_obj_self f v w) as Hm.
  destruct (move_obj f v w) as [[[]|e] w1]; [|done].
  rewrite IH. exact Hm.
Qed.

Lemma frames_bind {A B} (c : M World A) (k : A -> M World B) :
  (forall w, self (snd (c w)) = self w) ->
  (forall a w, self (snd (k a w)) = self w) ->
  forall w, self (snd (bind c k w)) = self w.
Proof.
  intros Hc Hk w. unfold bind. specialize (Hc w).
  destruct (c w) as [[a|e] w1]; [|exact Hc]. rewrite Hk. exact Hc.
Qed.

Lemma to_frames device w : self (snd (to device w)) = self w.
Proof.
  unfold to. revert w.
  apply frames_bind; [done|]. intros net.
  apply frames_bind; [intros w; by rewrite deref_self|]. intros ao.
  apply frames_bind; [done|]. intros _.
  apply frames_bind; [done|]. intros optims.
  apply frames_bind; [done|]. intros items.
  apply frames_bind; [apply for_each_move_self|]. intros _.
  apply frames_bind; [done|]. intros scheds.
  apply frames_bind; [done|]. intros items'.
  apply for_each_move_self.
Qed.

(** C9: on a store constructed without optimizers, or without schedulers,
    [to] raises, whatever the model, the device and the other arguments of
    the construction are, and leaves the fields of the store as they were;
    without optimizers it has moved the model when it raises [TypeError].
    Construction itself accepts both sequences absent. *)
Theorem to_raises_without_sequences
    w network optimizers schedulers bs mbs kwargs w' device :
  new w network optimizers schedulers bs mbs kwargs = (Ok tt, w') ->
  optimizers = VNone \/ schedulers = VNone ->
  is_raise (fst (to device w')) = true
  /\ self (snd (to device w')) = self w'
  /\ (forall a o, network = VRef a -> heap w' !! a = Some o -> optimizers = VNone ->
        to device w'
        = (Raise TypeError,
           mkWorld (self w') (<[a := module_to device o]> (heap w')) (files w')
             (warnings w')))
  /\ fst (new w network VNone VNone bs None []) = Ok tt.
Proof.
  intros Hnew Hnone.
  destruct (new_keeps _ _ _ _ _ _ _ _ Hnew) as (Hnet & Hopt & Hsch & _).
  split_and!.
  - unfold to.
    apply raises_bind. intros net w1 E1. apply read_result in E1 as [-> _].
    apply raises_bind. intros ao w1 E1. apply deref_result in E1 as ->.
    apply raises_bind. intros [] w1 E1. injection E1 as <-.
    apply raises_bind. intros optims w2 E2. apply read_result in E2 as [-> E2].
    cbn [store_obj modify self] in E2.
    rewrite (getattr_present _ "optimizers" _ eq_refl Hopt) in E2. injection E2 as <-.
    apply raises_bind. intros items w2 E2. apply lift_result in E2 as [-> E2].
    destruct Hnone as [->|Hnone]; [done|].
    apply raises_bind. intros [] w2 E3.
    match type of E3 with for_each _ _ ?w0 = _ =>
      pose proof (for_each_move_self (move_optim_param device) items w0) as Hs end.
    rewrite E3 in Hs. cbn [snd store_obj modify self] in Hs.
    apply raises_bind. intros scheds w3 E4. apply read_result in E4 as [-> E4].
    rewrite Hs, (getattr_present _ "schedulers" _ eq_refl Hsch) in E4. injection E4 as <-.
    apply raises_bind. intros items' w3 E5. apply lift_result in E5 as [-> E5].
    subst schedulers. done.
  - apply to_frames.
  - intros a o -> Ho ->. unfold to.
    erewrite bind_run by (unfold read; by rewrite (getattr_present _ "network" _ eq_refl Hnet)).
    erewrite bind_run by (unfold deref; by rewrite Ho).
    erewrite bind_run by reflexivity.
    erewrite bind_run
      by (unfold read; cbn [self]; by rewrite (getattr_present _ "optimizers" _ eq_refl Hopt)).
    reflexivity.
  - rewrite new_call by reflexivity.
    by rewrite (init_settled _ _ _ _ None bs).
Qed.

End Device.

(** ** Saving *)

Section RoundTrip.
Context `{TorchShapes}.

Lemma refs_of_map refs : refs_of (map VRef refs) = refs.
Proof. induction refs as [|a refs IH]; [done|]. unfold refs_of in *. simpl. by rewrite IH. Qed.

Lemma snapshot_ref a o w :
  heap w !! a = Some o -> snapshot (VRef a) w = (Ok (VStateDict (state_dict o)), w).
Proof. intros Ho. unfold snapshot, bind, deref. by rewrite Ho. Qed.

Lemma map_m_snapshot refs w :
  Forall (fun a => is_Some (heap w !! a)) refs ->
  map_m snapshot (map VRef refs) w = (Ok (snapshots (heap w) refs), w).
Proof.
  induction 1 as [|a refs [o Ho] Hrest IH]; [done|].
  cbn [map map_m]. erewrite bind_run by (by apply snapshot_ref).
  erewrite bind_run by exact IH.
  unfold snapshots. cbn [flat_map]. by rewrite Ho.
Qed.

Lemma paired_present ho hf refs_o refs_f :
  paired ho hf refs_o refs_f -> Forall (fun a => is_Some (ho !! a)) refs_o.
Proof.
  induction 1 as [|ao af refs_o refs_f (oo & Ho & _) _ IH]; constructor; eauto.
Qed.

Lemma serializable_ok w ns :
  self w !! no_serialize = Some (VList ns) ->
  serializable w
  = (Ok (filter (fun kv : string * Value => excluded (self w) (fst kv) = false) (self w)), w).
Proof.
  intros Hns. unfold serializable. erewrite bind_run by reflexivity.
  destruct (map_to_list (self w)) as [|kv l] eqn:El.
  { apply map_to_list_empty_iff in El. rewrite El in Hns. done. }
  erewrite bind_run; cycle 1.
  { unfold read. by rewrite (getattr_present _ no_serialize _ eq_refl Hns). }
  erewrite bind_run by reflexivity. unfold ret. f_equal. f_equal.
  apply map_filter_ext. intros k v _. unfold excluded, kept, contains. rewrite Hns.
  simpl. by destruct (str_in k ns).
Qed.

(** One of the two sequence fields in [save]. *)
Lemma save_sequence {A} name wo wf state (k : gmap string Value -> M World A) :
  same_sequences wo wf name ->
  name_in name property_names = false ->
  (do v <- read name;
   do st <- match v with
            | VNone => ret state
            | _ => do items <- lift (iterate v);
                   do sds <- map_m snapshot items;
                   ret (<[name := VList sds]> state)
            end;
   k st) wo
  = k (with_snapshots (heap wo) name (self wo !! name) state) wo.
Proof.
  intros [[Ho _]|(refs_o & refs_f & Ho & _ & Hp)] Hn.
  - erewrite bind_run by (unfold read; by rewrite (getattr_present _ _ _ Hn Ho)).
    erewrite bind_run by reflexivity. by rewrite Ho.
  - erewrite bind_run by (unfold read; by rewrite (getattr_present _ _ _ Hn Ho)).
    erewrite bind_run; cycle 1.
    { erewrite bind_run by reflexivity.
      erewrite bind_run by (apply map_m_snapshot; by eapply paired_present).
      reflexivity. }
    rewrite Ho. unfold with_snapshots, entry. by rewrite refs_of_map.
Qed.

(** [torch.save] when both of its steps return. *)
Lemma torch_save_ok state f w :
  storable f state ->
  torch_save state f w
  = (Ok tt, mkWorld (self w) (heap w) (<[f := Pickled state]> (files w)) (warnings w)).
Proof.
  intros [Hopen Hpickle]. unfold torch_save.
  erewrite bind_run by (unfold lift; by rewrite Hopen).
  erewrite bind_run by reflexivity.
  erewrite bind_run by (unfold lift; by rewrite Hpickle).
  unfold modify. cbn [self heap files warnings]. by rewrite insert_insert_eq.
Qed.

(** Up to [torch.save], [save] changes nothing and hands it the record. *)
Lemma save_record wo wf f :
  store_ok (self wo) -> same_shapes wo wf ->
  save f wo = torch_save (record wo) f wo.
Proof.
  intros [(ns & Hns & _) _] ((ao & af & Hno & _ & Hnet) & Hopt & Hsch).
  inversion Hnet as [|? ? ? ? (oo & Hoo & _) _]; subst.
  unfold save.
  erewrite bind_run by (by apply (serializable_ok wo ns)).
  erewrite bind_run by (unfold read; by rewrite (getattr_present _ "network" _ eq_refl Hno)).
  erewrite bind_run by (by apply snapshot_ref).
  rewrite (save_sequence "optimizers" wo wf) by done.
  rewrite (save_sequence "schedulers" wo wf) by done.
  unfold record. by rewrite Hno, Hoo.
Qed.

Lemma save_ok wo wf f :
  store_ok (self wo) -> same_shapes wo wf -> storable f (record wo) ->
  save f wo
  = (Ok tt, mkWorld (self wo) (heap wo) (<[f := Pickled (record wo)]> (files wo))
              (warnings wo)).
Proof.
  intros Hok Hsame Hst. rewrite (save_record wo wf f Hok Hsame).
  by apply torch_save_ok.
Qed.

(** ** Loading *)

Lemma shapes_of_refl h : shapes_of h h.
Proof. intros a. done. Qed.

Lemma shapes_of_trans h1 h2 h3 : shapes_of h1 h2 -> shapes_of h2 h3 -> shapes_of h1 h3.
Proof. intros H12 H23 a. by rewrite H23, H12. Qed.

Lemma shapes_of_insert h a o o' :
  h !! a = Some o -> shape o' = shape o -> shapes_of h (<[a := o']> h).
Proof.
  intros Ho Hs b. destruct (decide (a = b)) as [<-|Hne].
  - rewrite lookup_insert_eq, Ho. simpl. by rewrite Hs.
  - by rewrite lookup_insert_ne.
Qed.

Lemma paired_shapes ho h h' refs_o refs_f :
  shapes_of h h' -> paired ho h refs_o refs_f -> paired ho h' refs_o refs_f.
Proof.
  intros Hs Hp. eapply Forall2_impl; [exact Hp|].
  intros ao af (oo & Hoo & Hf). exists oo. split; [done|]. by rewrite Hs.
Qed.

Lemma has_shape_inv (h : gmap nat TorchObj) a sh :
  shape <$> (h !! a) = Some sh -> exists o, h !! a = Some o /\ shape o = sh.
Proof. destruct (h !! a) as [o|]; [|done]. intros E. exists o. by inversion E. Qed.

Lemma snapshots_cons ho ao oo refs :
  ho !! ao = Some oo ->
  snapshots ho (ao :: refs) = VStateDict (state_dict oo) :: snapshots ho refs.
Proof. intros Ho. unfold snapshots. cbn [flat_map]. by rewrite Ho. Qed.

Lemma load_each_ok ho refs_o refs_f :
  forall pre w,
  paired ho (heap w) refs_o refs_f ->
  exists w',
    load_each (VList (pre ++ snapshots ho refs_o)) (length pre) (map VRef refs_f) w
      = (Ok tt, w')
    /\ self w' = self w /\ files w' = files w /\ warnings w' = warnings w
    /\ shapes_of (heap w) (heap w').
Proof.
  revert refs_f. induction refs_o as [|ao refs_o IH]; intros refs_f pre w Hp.
  - inversion Hp; subst. exists w. split_and!; done.
  - inversion Hp as [|? af ? rf (oo & Hoo & Hsh) Hrest]; subst.
    apply has_shape_inv in Hsh as (ofr & Hof & Hshape).
    destruct (optim_accepts oo ofr (eq_sym Hshape)) as (o' & Hload & Ho').
    rewrite (snapshots_cons _ _ _ _ Hoo).
    set (w1 := mkWorld (self w) (<[af := o']> (heap w)) (files w) (warnings w)).
    assert (Hs1 : shapes_of (heap w) (heap w1)) by (by eapply shapes_of_insert).
    destruct (IH rf (pre ++ [VStateDict (state_dict oo)]) w1) as (w' & E & H1 & H2 & H3 & H4).
    { by eapply paired_shapes. }
    exists w'. split; [|split_and!; try done; by eapply shapes_of_trans].
    cbn [map load_each].
    erewrite bind_run by (unfold deref; by rewrite Hof).
    erewrite bind_run; cycle 1.
    { unfold lift, subscript. rewrite nth_error_app2 by lia.
      rewrite Nat.sub_diag. reflexivity. }
    erewrite bind_run by reflexivity.
    erewrite bind_run by (unfold lift; cbn [snd]; by rewrite Hload).
    erewrite bind_run by reflexivity. cbn [fst].
    rewrite <- app_assoc, length_app in E. cbn [length app] in E.
    replace (length pre + 1)%nat with (S (length pre)) in E by lia. exact E.
Qed.

(** Writing the remaining fields of the record back. *)
Lemma assign_all l :
  forall w,
  NoDup (map fst l) ->
  Forall (fun kv : string * Value => name_in (fst kv) property_names = false) l ->
  exists w',
    for_each l (fun kv => assign (fst kv) (snd kv)) w = (Ok tt, w')
    /\ heap w' = heap w /\ files w' = files w /\ warnings w' = warnings w
    /\ forall k, self w' !! k
                 = match (list_to_map l : gmap string Value) !! k with
                   | Some v => Some v
                   | None => self w !! k
                   end.
Proof.
  induction l as [|[k0 v0] l IH]; intros w Hnd Hprop.
  - exists w. split_and!; done.
  - inversion Hnd as [|? ? Hnotin Hnd']; subst.
    inversion Hprop as [|? ? Hk0 Hprop']; subst. cbn [fst] in Hk0.
    set (w1 := mkWorld (<[k0 := v0]> (self w)) (heap w) (files w) (warnings w)).
    destruct (IH w1 Hnd' Hprop') as (w' & E & H1 & H2 & H3 & H4).
    exists w'. split_and!; try done.
    + cbn [for_each fst snd]. by erewrite bind_run by (by apply assign_ok).
    + intros k. rewrite H4. cbn [list_to_map foldr fst snd]. simpl.
      destruct (decide (k0 = k)) as [<-|Hne].
      * rewrite lookup_insert_eq.
        rewrite (proj1 (not_elem_of_list_to_map (M := gmap string) l k0) Hnotin).
        by rewrite lookup_insert_eq.
      * rewrite !lookup_insert_ne by done. reflexivity.
Qed.

Lemma assign_record (state : gmap string Value) w :
  (forall k, name_in k property_names = true -> state !! k = None) ->
  exists w',
    for_each (map_to_list state) (fun kv => assign (fst kv) (snd kv)) w = (Ok tt, w')
    /\ heap w' = heap w /\ files w' = files w /\ warnings w' = warnings w
    /\ forall k, self w' !! k
                 = match state !! k with Some v => Some v | None => self w !! k end.
Proof.
  intros Hprop.
  destruct (assign_all (map_to_list state) w) as (w' & E & H1 & H2 & H3 & H4).
  - apply NoDup_fst_map_to_list.
  - apply List.Forall_forall. intros [k v] Hin.
    apply list_elem_of_In, elem_of_map_to_list in Hin. cbn [fst].
    destruct (name_in k property_names) eqn:Ek; [|done].
    rewrite (Hprop k Ek) in Hin. done.
  - exists w'. split_and!; try done. intros k. rewrite H4.
    by rewrite list_to_map_to_list.
Qed.

(** ** The record *)

Lemma filter_excluded (s : gmap string Value) k :
  filter (fun kv : string * Value => excluded s (fst kv) = false) s !! k
  = if excluded s k then None else s !! k.
Proof.
  destruct (excluded s k) eqn:Ex.
  - apply map_lookup_filter_None. right. intros v _. simpl. by rewrite Ex.
  - destruct (s !! k) as [v|] eqn:Es.
    + apply map_lookup_filter_Some. done.
    + apply map_lookup_filter_None. by left.
Qed.

Lemma with_snapshots_ne h name field state k :
  k <> name -> with_snapshots h name field state !! k = state !! k.
Proof.
  intros Hne. unfold with_snapshots. destruct (entry h field); [|done].
  by rewrite lookup_insert_ne.
Qed.

Lemma with_snapshots_eq h name field state :
  state !! name = None -> with_snapshots h name field state !! name = entry h field.
Proof.
  intros Hs. unfold with_snapshots. destruct (entry h field); [|done].
  by rewrite lookup_insert_eq.
Qed.

Lemma excluded_torch s :
  store_ok s ->
  excluded s "network" = true /\ excluded s "optimizers" = true
  /\ excluded s "schedulers" = true.
Proof. intros [(ns & Hns & H1 & H2 & H3) _]. unfold excluded. by rewrite Hns. Qed.

Lemma record_other wo k :
  k <> "network" -> k <> "optimizers" -> k <> "schedulers" ->
  record wo !! k = if excluded (self wo) k then None else self wo !! k.
Proof.
  intros H1 H2 H3. unfold record.
  rewrite !with_snapshots_ne by done. rewrite lookup_insert_ne by done.
  apply filter_excluded.
Qed.

Lemma record_sequences wo :
  store_ok (self wo) ->
  record wo !! "optimizers" = entry (heap wo) (self wo !! "optimizers")
  /\ record wo !! "schedulers" = entry (heap wo) (self wo !! "schedulers").
Proof.
  intros Hok. destruct (excluded_torch _ Hok) as (_ & E2 & E3). unfold record. split.
  - rewrite with_snapshots_ne by done. apply with_snapshots_eq.
    rewrite lookup_insert_ne by done. by rewrite filter_excluded, E2.
  - apply with_snapshots_eq. rewrite with_snapshots_ne by done.
    rewrite lookup_insert_ne by done. by rewrite filter_excluded, E3.
Qed.

Lemma record_network wo :
  record wo !! "network"
  = Some (match self wo !! "network" with
          | Some (VRef a) => match heap wo !! a with
                             | Some o => VStateDict (state_dict o)
                             | None => VNone
                             end
          | _ => VNone
          end).
Proof.
  unfold record. rewrite !with_snapshots_ne by done. by rewrite lookup_insert_eq.
Qed.

(** One of the two sequence fields in [load]: the fresh store has [None]
    where the saved one had, or a sequence of objects of the same shapes. *)
Lemma load_sequence name wo wf w st :
  same_sequences wo wf name ->
  name_in name property_names = false ->
  self w = self wf -> shapes_of (heap wf) (heap w) ->
  st !! name = entry (heap wo) (self wo !! name) ->
  exists w' st',
    (forall A (k : gmap string Value -> M World A),
       (do v <- read name;
        do st <- match v with
                 | VNone => ret st
                 | _ => do vs <- pop name st;
                        do items <- lift (iterate v);
                        load_each (fst vs) 0 items ;;
                        ret (snd vs)
                 end;
        k st) w = k st' w')
    /\ self w' = self w /\ files w' = files w /\ warnings w' = warnings w
    /\ shapes_of (heap w) (heap w')
    /\ st' !! name = None
    /\ forall k, k <> name -> st' !! k = st !! k.
Proof.
  intros [[Ho Hf]|(refs_o & refs_f & Ho & Hf & Hp)] Hn Hself Hshapes Hst.
  - exists w, st. split_and!; try done.
    + intros A k.
      erewrite bind_run by (unfold read; by rewrite Hself, (getattr_present _ _ _ Hn Hf)).
      by erewrite bind_run by reflexivity.
    + by rewrite Hst, Ho.
  - rewrite Ho in Hst. cbn [entry] in Hst. rewrite refs_of_map in Hst.
    destruct (load_each_ok (heap wo) refs_o refs_f [] w) as (w' & E & H1 & H2 & H3 & H4).
    { by eapply paired_shapes. }
    exists w', (delete name st). split_and!; try done.
    + intros A k.
      erewrite bind_run by (unfold read; by rewrite Hself, (getattr_present _ _ _ Hn Hf)).
      erewrite bind_run; cycle 1.
      { erewrite bind_run by (unfold pop; by rewrite Hst).
        erewrite bind_run by reflexivity.
        erewrite bind_run by exact E. reflexivity. }
      reflexivity.
    + apply lookup_delete_eq.
    + intros k Hk. by rewrite lookup_delete_ne.
Qed.

(** [load] of the record of a store into a store of the same shapes. *)
Lemma load_record wo wf f strict :
  store_ok (self wo) -> same_shapes wo wf ->
  files wf !! f = Some (Pickled (record wo)) ->
  exists wl,
    load f strict wf = (Ok tt, wl)
    /\ (forall k v, self wo !! k = Some v -> excluded (self wo) k = false ->
          self wl !! k = Some v)
    /\ (forall k, excluded (self wo) k = true \/ self wo !! k = None ->
          self wl !! k = self wf !! k)
    /\ shapes_of (heap wf) (heap wl).
Proof.
  intros Hok Hsame Hfile.
  pose proof Hsame as ((ao & af & Hno & Hnf & Hnet) & Hopt & Hsch).
  inversion Hnet as [|? ? ? ? (oo & Hoo & Hsh) _]; subst.
  apply has_shape_inv in Hsh as (ofr & Hof & Hshape).
  destruct (module_accepts strict oo ofr (eq_sym Hshape)) as (o' & Hload & Ho').
  destruct (excluded_torch _ Hok) as (X1 & X2 & X3).
  destruct (record_sequences wo Hok) as (R2 & R3).
  pose proof (record_network wo) as R1. rewrite Hno, Hoo in R1.
  set (w1 := mkWorld (self wf) (<[af := o']> (heap wf)) (files wf) (warnings wf)).
  assert (Hs1 : shapes_of (heap wf) (heap w1)) by (by eapply shapes_of_insert).
  destruct (load_sequence "optimizers" wo wf w1 (delete "network" (record wo)))
    as (w2 & st2 & E2 & Hself2 & Hfiles2 & Hwarn2 & Hs2 & Hnone2 & Hrest2); try done.
  { by rewrite lookup_delete_ne. }
  destruct (load_sequence "schedulers" wo wf w2 st2)
    as (w3 & st3 & E3 & Hself3 & Hfiles3 & Hwarn3 & Hs3 & Hnone3 & Hrest3); try done.
  { by eapply shapes_of_trans. }
  { rewrite Hrest2 by done. by rewrite lookup_delete_ne. }
  assert (Hst3 : forall k, st3 !! k
            = if decide (k = "network" \/ k = "optimizers" \/ k = "schedulers")
              then None else record wo !! k).
  { intros k. case_decide as Hk.
    - destruct Hk as [->|[->| ->]]; [| |done].
      + rewrite Hrest3, Hrest2 by done. apply lookup_delete_eq.
      + by rewrite Hrest3.
    - rewrite Hrest3, Hrest2 by tauto. rewrite lookup_delete_ne; [done|]. intros <-. tauto. }
  destruct (assign_record st3 w3) as (wl & El & Hheap & _ & _ & Hfields).
  { intros k Hk. rewrite Hst3. case_decide as Hd; [done|].
    rewrite record_other by tauto.
    destruct (excluded (self wo) k); [done|].
    destruct Hok as [_ Hprops]. apply Hprops.
    unfold name_in in Hk. apply existsb_exists in Hk as (p & Hin & Hp).
    apply String.eqb_eq in Hp. by subst. }
  exists wl. split_and!.
  - unfold load. erewrite bind_run by reflexivity.
    erewrite bind_run by (rewrite Hfile; reflexivity).
    erewrite bind_run by (unfold read; by rewrite (getattr_present _ "network" _ eq_refl Hnf)).
    erewrite bind_run by (unfold deref; by rewrite Hof).
    erewrite bind_run by (unfold pop; by rewrite R1).
    erewrite bind_run by reflexivity.
    erewrite bind_run by (unfold lift; cbn [snd]; by rewrite Hload).
    erewrite bind_run by reflexivity. cbn [fst snd].
    fold w1. rewrite E2, E3. exact El.
  - intros k v Hk Hex. rewrite Hfields, Hst3. case_decide as Hd.
    + destruct Hd as [->|[->| ->]]; congruence.
    + rewrite record_other by tauto. by rewrite Hex, Hk.
  - intros k Hk. rewrite Hfields, Hst3, Hself3, Hself2. case_decide as Hd; [done|].
    rewrite record_other by tauto.
    destruct Hk as [->| ->]; [done|]. by destruct (excluded (self wo) k).
  - rewrite Hheap. eapply shapes_of_trans; [|exact Hs3]. by eapply shapes_of_trans.
Qed.

(** [save] then [load] between two stores of the same shapes. *)
Lemma round_trip wo wf f strict :
  store_ok (self wo) -> same_shapes wo wf -> storable f (record wo) ->
  exists ws,
    save f wo = (Ok tt, ws) /\ self ws = self wo /\ heap ws = heap wo
    /\ (files wf !! f = files ws !! f ->
        exists wl,
          load f strict wf = (Ok tt, wl)
          /\ (forall k v, self wo !! k = Some v -> excluded (self wo) k = false ->
                self wl !! k = Some v)
          /\ (forall k, excluded (self wo) k = true \/ self wo !! k = None ->
                self wl !! k = self wf !! k)
          /\ shapes_of (heap wf) (heap wl)).
Proof.
  intros Hok Hsame Hstore. rewrite (save_ok wo wf f Hok Hsame Hstore).
  eexists. split_and!; try reflexivity. cbn [files]. rewrite lookup_insert_eq.
  intros Hfile. by apply load_record.
Qed.

(** C6: a well-formed store is saved, with a [torch.save] that runs to its
    end, and the file is loaded into a fresh store built on a model,
    optimizers and schedulers of the same shapes.  The two halves of the
    claim ask of a field that the fresh store excludes and the saved store
    serializes both the saved value and the value it had, so the fresh
    store is one on which they agree: each field it excludes is excluded on
    the saved store, or absent from it, or holds the same value there.
    Then [save] and [load] succeed, every field that is not excluded on the
    saved store has the saved value on the fresh store, and [load] leaves
    untouched every field the fresh store marks as excluded, whether the
    marks are read before [load] or after it, and every field the saved
    store excludes or does not have. *)
Theorem save_then_load wo wf f strict :
  store_ok (self wo) -> same_shapes wo wf -> storable f (record wo) ->
  (forall k, excluded (self wf) k = true ->
             excluded (self wo) k = true \/ self wo !! k = None
             \/ self wo !! k = self wf !! k) ->
  exists ws,
    save f wo = (Ok tt, ws) /\ self ws = self wo /\ heap ws = heap wo
    /\ (files wf !! f = files ws !! f ->
        exists wl,
          load f strict wf = (Ok tt, wl)
          /\ (forall k v, self wo !! k = Some v -> excluded (self wo) k = false ->
                self wl !! k = Some v)
          /\ (forall k, excluded (self wf) k = true -> self wl !! k = self wf !! k)
          /\ (forall k, excluded (self wl) k = true -> self wl !! k = self wf !! k)
          /\ (forall k, excluded (self wo) k = true \/ self wo !! k = None ->
                self wl !! k = self wf !! k)
          /\ shapes_of (heap wf) (heap wl)).
Proof.
  intros Hok Hsame Hstore Hmarks.
  destruct (round_trip wo wf f strict Hok Hsame Hstore) as (ws & Es & Hs & Hh & Hl).
  exists ws. split_and!; [done..|]. intros Hfile.
  destruct (Hl Hfile) as (wl & El & Hkeep & Hrest & Hshapes).
  assert (Hfresh : forall k, excluded (self wf) k = true -> self wl !! k = self wf !! k).
  { intros k Hk. destruct (Hmarks k Hk) as [Hx|[Hn|He]].
    - apply Hrest. by left.
    - apply Hrest. by right.
    - destruct (excluded (self wo) k) eqn:Ex; [apply Hrest; by left|].
      destruct (self wo !! k) as [v|] eqn:Ev; [|apply Hrest; by right].
      rewrite <- He. by apply Hkeep. }
  exists wl. split_and!; try done.
  intros k Hk.
  destruct (excluded (self wo) no_serialize) eqn:Ens.
  - apply Hfresh. unfold excluded in Hk |- *.
    by rewrite <- (Hrest no_serialize (or_introl Ens)).
  - pose proof Hok as [(ns & Hns & _) _].
    apply Hrest. left. unfold excluded in Hk |- *.
    rewrite (Hkeep _ _ Hns Ens) in Hk. by rewrite Hns.
Qed.

(** The same from the file: a record of the saved store under [f] is
    enough, however it came there. *)
Corollary round_trip_same_marks wo wf f strict :
  store_ok (self wo) -> same_shapes wo wf ->
  (forall k, excluded (self wf) k = true ->
             excluded (self wo) k = true \/ self wo !! k = None) ->
  files wf !! f = Some (Pickled (record wo)) ->
  exists wl,
    load f strict wf = (Ok tt, wl)
    /\ (forall k v, self wo !! k = Some v -> excluded (self wo) k = false ->
          self wl !! k = Some v)
    /\ (forall k, excluded (self wf) k = true -> self wl !! k = self wf !! k).
Proof.
  intros Hok Hsame Hmarks Hfile.
  destruct (load_record wo wf f strict Hok Hsame Hfile) as (wl & El & Hkeep & Hrest & _).
  exists wl. split_and!; [done | done |]. intros k Hk. apply Hrest. by apply Hmarks.
Qed.

End RoundTrip.

(** ** The concrete session *)

Lemma demo_saved :
  new Demo.machine (VRef 0) (VRef 1) VNone 8 (Some 4)
    [("rate", VInt 3); ("_tag", VStr "run")] = (Ok tt, Demo.saved).
Proof. vm_compute. reflexivity. Qed.

Lemma demo_bare :
  new Demo.machine (VRef 0) VNone VNone 8 (Some 4) [] = (Ok tt, Demo.bare).
Proof. vm_compute. reflexivity. Qed.

Lemma demo_same_shapes : same_shapes Demo.saved Demo.loading.
Proof.
  split_and!.
  - exists 0%nat, 0%nat. split_and!; [reflexivity | reflexivity |].
    constructor; [|constructor]. eexists. split; reflexivity.
  - right. exists [1%nat], [1%nat]. split_and!; [reflexivity | reflexivity |].
    constructor; [|constructor]. eexists. split; reflexivity.
  - left. split; reflexivity.
Qed.

(** C3, at the input on which the code departs from it: after [_foo=1]
    the field [foo] is excluded; the colliding [foo=2] is warned about and
    leaves the value, but takes [foo] off the exclusion list. *)
Lemma collision_lifts_exclusion :
  excluded (self Demo.private_foo) "foo" = true
  /\ self Demo.private_foo !! "foo" = Some (VInt 1)
  /\ init_kwarg ("foo", VInt 2) Demo.private_foo = (Ok tt, Demo.private_then_public_foo)
  /\ warnings Demo.private_then_public_foo = [collision_warning "foo"]
  /\ self Demo.private_then_public_foo !! "foo" = Some (VInt 1)
  /\ excluded (self Demo.private_then_public_foo) "foo" = false.
Proof. split_and!; vm_compute; reflexivity. Qed.

Lemma demo_fresh_shapes : same_shapes Demo.saved Demo.fresh.
Proof.
  split_and!.
  - exists 0%nat, 0%nat. split_and!; [reflexivity | reflexivity |].
    constructor; [|constructor]. eexists. split; reflexivity.
  - right. exists [1%nat], [1%nat]. split_and!; [reflexivity | reflexivity |].
    constructor; [|constructor]. eexists. split; reflexivity.
  - left. split; reflexivity.
Qed.

Lemma demo_storable : storable Demo.checkpoint (record Demo.saved).
Proof. split; vm_compute; reflexivity. Qed.

(** Where the marks of the two stores do not agree, the two halves of the
    round trip cannot both hold: [rate] is serialized by the saved store
    and excluded on the loading store with another value, and [load] writes
    the saved value. *)
Lemma load_overwrites_excluded_field :
  same_shapes Demo.saved Demo.loading
  /\ fst (save Demo.checkpoint Demo.saved) = Ok tt
  /\ excluded (self Demo.loading) "rate" = true
  /\ self Demo.loading !! "rate" = Some (VInt 0)
  /\ fst (load Demo.checkpoint false Demo.loading) = Ok tt
  /\ self Demo.after_load !! "rate" = Some (VInt 3)
  /\ self Demo.after_load !! "rate" <> self Demo.loading !! "rate".
Proof.
  split_and!; [exact demo_same_shapes | vm_compute; reflexivity..|].
  vm_compute. discriminate.
Qed.

Lemma save_then_load_witness :
  exists wl,
    load Demo.checkpoint false Demo.fresh = (Ok tt, wl)
    /\ self wl !! "rate" = Some (VInt 3)
    /\ self wl !! "tag" = self Demo.fresh !! "tag"
    /\ self wl !! "network" = self Demo.fresh !! "network".
Proof.
  destruct (save_then_load Demo.saved Demo.fresh Demo.checkpoint false)
    as (ws & Es & _ & _ & Hl).
  - apply (new_store_ok _ _ _ _ _ _ _ _ demo_saved).
  - exact demo_fresh_shapes.
  - exact demo_storable.
  - intros k Hk. left. unfold excluded in Hk |- *.
    replace (self Demo.saved !! no_serialize) with (self Demo.fresh !! no_serialize)
      by (vm_compute; reflexivity).
    exact Hk.
  - destruct Hl as (wl & El & Hkeep & Hfresh & _).
    + assert (ws = Demo.after_save) as ->
        by (unfold Demo.after_save; by rewrite Es).
      vm_compute. reflexivity.
    + exists wl. split_and!; [exact El | | |].
      * apply Hkeep; vm_compute; reflexivity.
      * apply Hfresh. vm_compute. reflexivity.
      * apply Hfresh. vm_compute. reflexivity.
Defined.

Lemma construction_fails_iff_not_multiple_witness :
  fst (new Demo.machine (VRef 0) VNone VNone 8 (Some 3) []) = Raise ValueError
  /\ exists w', new Demo.machine (VRef 0) VNone VNone 8 (Some 16) [] = (Ok tt, w')
                /\ self w' !! "mini_batch_size" = Some (VInt 8).
Proof.
  split.
  - apply (construction_fails_iff_not_multiple Demo.machine (VRef 0) VNone VNone 8 3 []);
      [reflexivity | reflexivity | reflexivity |]. split; [lia | done].
  - destruct (construction_fails_iff_not_multiple Demo.machine (VRef 0) VNone VNone 8 16 [])
      as [_ Hclamp]; [reflexivity | reflexivity | reflexivity |].
    destruct Hclamp as (w' & E & Hm & _); [reflexivity | constructor |].
    exists w'. split; assumption.
Defined.

Lemma to_raises_without_sequences_witness :
  is_raise (fst (to "cuda:0" Demo.bare)) = true.
Proof.
  apply (to_raises_without_sequences Demo.machine (VRef 0) VNone VNone 8 (Some 4) []
           Demo.bare "cuda:0" demo_bare). by left.
Defined.

End HyperParametersProps.

(** * Properties of the engine *)

Module EngineProps.
Import Engine.

Lemma run_bind {A B} (c : M World A) (k : A -> M World B) w e1 e2 Q R :
  run c w e1 Q ->
  (forall a w1, classes w1 = classes w -> log w1 = log w -> trace w1 = trace w ++ e1 -> Q a (this w1) -> run (k a) w1 e2 R) ->
  run (bind c k) w (e1 ++ e2) R.
Proof.
  intros (a & w1 & Hc & Hcl & Hlog & Htr & HQ) Hk.
  destruct (Hk a w1 Hcl Hlog Htr HQ) as (b & w2 & Hk2 & Hcl2 & Hlog2 & Htr2 & HR).
  exists b, w2. unfold bind. rewrite Hc.
  repeat split; try congruence. rewrite Htr2, Htr. by rewrite app_assoc.
Qed.

Lemma run_emit w ev (P : Instance -> Prop) : P (this w) -> run (emit ev) w [ev] (fun _ i => P i).
Proof. intros HP. exists tt. eexists. split; [reflexivity|]. simpl. done. Qed.

Lemma run_ret {A} (a : A) w (P : A -> Instance -> Prop) : P a (this w) -> run (ret a) w [] P.
Proof. intros HP. exists a, w. rewrite app_nil_r. done. Qed.

Lemma run_user {A} (f : Instance -> Res A * Instance) w (Q : A -> Instance -> Prop) :
  (exists a i', f (this w) = (Ok a, i') /\ Q a i') -> run (user f) w [] Q.
Proof.
  intros (a & i' & Hf & HQ). exists a. eexists. unfold user. rewrite Hf. simpl.
  split; [reflexivity|]. simpl. rewrite app_nil_r. done.
Qed.

Section Hooks.
Variable uc : UserCode.
Variable P : Instance -> Prop.
Hypothesis hooks_ok : forall fn i, P i -> exists i', hook_body uc fn i = (Ok tt, i') /\ P i'.

Lemma run_call_hooks fns w :
  P (this w) ->
  run (for_each fns (call_hook uc)) w
      (map hook_event fns)
      (fun _ i => P i).
Proof.
  revert w. induction fns as [|fn fns IH]; intros w HP.
  - apply run_ret. done.
  - simpl for_each. simpl map.
    change (?x :: ?l) with ([x] ++ l).
    eapply (run_bind _ _ _ _ _ (fun _ i => P i)).
    + unfold call_hook. rewrite <- (app_nil_r [_]).
      eapply run_bind; [apply (run_emit _ _ P HP)|].
      intros [] w1 _ _ _ HP1. apply run_user.
      destruct (hooks_ok fn _ HP1) as (i' & Hb & HP'). exists tt, i'. done.
    + intros a w1 _ _ _ HP1. apply IH. exact HP1.
Qed.

Lemma divides_int v k w : k <> 0 -> divides (VInt v) k w = (Ok (v mod k =? 0), w).
Proof.
  intros Hk. unfold divides, bind, lift, pymod, ret. simpl.
  destruct (k =? 0) eqn:E; [lia|]. reflexivity.
Qed.

Lemma run_pure {A B} (c : M World A) (k : A -> M World B) a w evs Q :
  c w = (Ok a, w) -> run (k a) w evs Q -> run (bind c k) w evs Q.
Proof.
  intros Hc (b & w' & Hk & H). exists b, w'. unfold bind. rewrite Hc. done.
Qed.

Lemma run_hooks_fired table v w :
  nonzero_keys table -> P (this w) ->
  run (_run_hooks uc (VInt v) table) w (fired v table) (fun _ i => P i).
Proof.
  revert w. induction table as [|[k fns] table IH]; intros w Hnz HP.
  - apply run_ret. done.
  - inversion Hnz as [|? ? Hk Hnz']; subst. simpl in Hk.
    simpl _run_hooks. unfold fired. simpl flat_map. fold (fired v table).
    eapply run_pure; [apply divides_int; exact Hk|].
    eapply (run_bind _ _ _ _ _ (fun _ i => P i)).
    + destruct (v mod k =? 0).
      * apply run_call_hooks. exact HP.
      * apply run_ret. exact HP.
    + intros a w1 _ _ _ HP1. apply IH; done.
Qed.
End Hooks.

(** ** The registry *)

Lemma table_eqb_eq t t' : table_eqb t t' = true <-> t = t'.
Proof. destruct t, t'; simpl; split; congruence. Qed.

Lemma get_set_table t t' h ts :
  get_table t' (set_table t h ts) = if table_eqb t t' then Some h else get_table t' ts.
Proof. destruct t, t'; reflexivity. Qed.

Lemma register_inv t cls k fn cs cs' :
  register t cls k fn cs = Ok cs' ->
  exists c0 d table,
    owner cs cls t = Some c0 /\ cs !! c0 = Some d
    /\ get_table t (cls_tables d) = Some table
    /\ cs' = <[c0 := mkClass (cls_mro d) (cls_names d)
                       (set_table t (add_hook k fn table) (cls_tables d))]> cs.
Proof.
  unfold register. intros H.
  destruct (owner cs cls t) as [c0|] eqn:Ho; [|done].
  destruct (cs !! c0) as [d|] eqn:Hd; [|done].
  destruct (get_table t (cls_tables d)) as [table|] eqn:Ht; [|done].
  inversion H. exists c0, d, table. done.
Qed.

Section Update.
Variable cs : gmap string ClassDef.
Variable c0 : string.
Variables d d' : ClassDef.
Hypothesis Hd : cs !! c0 = Some d.
Hypothesis Hmro : cls_mro d' = cls_mro d.
Hypothesis Hsome : forall t, is_Some (get_table t (cls_tables d'))
                             <-> is_Some (get_table t (cls_tables d)).

Lemma owner_in_update t mro : owner_in (<[c0 := d']> cs) t mro = owner_in cs t mro.
Proof.
  induction mro as [|c1 mro IH]; [done|]. cbn [owner_in].
  destruct (decide (c0 = c1)) as [<-|Hne].
  - rewrite lookup_insert_eq, Hd, IH.
    destruct (get_table t (cls_tables d')) eqn:E1, (get_table t (cls_tables d)) eqn:E2;
      try done.
    + assert (H : is_Some (get_table t (cls_tables d))) by (apply Hsome; rewrite E1; eauto).
      rewrite E2 in H. by destruct H.
    + assert (H : is_Some (get_table t (cls_tables d'))) by (apply Hsome; rewrite E2; eauto).
      rewrite E1 in H. by destruct H.
  - rewrite lookup_insert_ne by done. by rewrite IH.
Qed.

Lemma owner_update c2 t : owner (<[c0 := d']> cs) c2 t = owner cs c2 t.
Proof.
  unfold owner. destruct (decide (c0 = c2)) as [<-|Hne].
  - rewrite lookup_insert_eq, Hd, Hmro. apply owner_in_update.
  - rewrite lookup_insert_ne by done. destruct (cs !! c2); [|done]. apply owner_in_update.
Qed.

Lemma lookup_table_update c2 t :
  lookup_table (<[c0 := d']> cs) c2 t
  = if decide (owner cs c2 t = Some c0) then get_table t (cls_tables d')
    else lookup_table cs c2 t.
Proof.
  unfold lookup_table. rewrite owner_update.
  destruct (owner cs c2 t) as [c1|] eqn:Ho.
  - destruct (decide (Some c1 = Some c0)) as [Heq|Hne].
    + inversion Heq; subst. by rewrite lookup_insert_eq.
    + rewrite lookup_insert_ne by congruence. done.
  - by rewrite decide_False.
Qed.

End Update.

Lemma registered_add_hook_new table k f : registered (add_hook k f table) k f.
Proof.
  induction table as [|[k1 fns1] table (fns & Hin & Hf)].
  - exists [f]. split; by left.
  - cbn [add_hook]. destruct (k1 =? k) eqn:E.
    + apply Z.eqb_eq in E. subst. exists (fns1 ++ [f]). split; [by left|].
      apply in_app_iff. right. by left.
    + exists fns. split; [by right | done].
Qed.

(** C2, as the code has it: the decorator mutates the dict that
    [cls.<table>] resolves to along the [__mro__] of [cls], which is the
    dict bound in the body of [Engine] unless a subclass binds its own.
    After a registration through [cls], every class whose lookup of that
    table resolves to the same dict has the callback in it, and so has every
    instance of such a class, whenever it is created; the tables of the
    classes that resolve elsewhere and the other three tables are
    unchanged. *)
Theorem register_shared_along_mro t cls k fn cs cs' :
  register t cls k fn cs = Ok cs' ->
  exists table,
    lookup_table cs cls t = Some table
    /\ registered (add_hook k fn table) k fn
    /\ (forall c2, owner cs c2 t = owner cs cls t ->
          lookup_table cs' c2 t = Some (add_hook k fn table))
    /\ (forall c2, owner cs c2 t <> owner cs cls t ->
          lookup_table cs' c2 t = lookup_table cs c2 t)
    /\ (forall c2 t', t' <> t -> lookup_table cs' c2 t' = lookup_table cs c2 t')
    /\ (forall w, classes w = cs' ->
          owner cs (Engine.cls (this w)) t = owner cs cls t ->
          dict (this w) !! table_name t = None ->
          read_table t w = (Ok (add_hook k fn table), w)).
Proof.
  intros H. destruct (register_inv _ _ _ _ _ _ H) as (c0 & d & table & Ho & Hd & Ht & ->).
  set (d' := mkClass (cls_mro d) (cls_names d)
               (set_table t (add_hook k fn table) (cls_tables d))).
  assert (Hsome : forall t', is_Some (get_table t' (cls_tables d'))
                             <-> is_Some (get_table t' (cls_tables d))).
  { intros t'. unfold d'. cbn [cls_tables]. rewrite get_set_table.
    destruct (table_eqb t t') eqn:E; [|done].
    apply table_eqb_eq in E. subst t'. rewrite Ht. split; eauto. }
  assert (Hlook : forall c2 t', lookup_table (<[c0 := d']> cs) c2 t'
            = if decide (owner cs c2 t' = Some c0) then get_table t' (cls_tables d')
              else lookup_table cs c2 t').
  { intros c2 t'. by apply (lookup_table_update cs c0 d d'). }
  assert (Hsame : forall c2, owner cs c2 t = owner cs cls t ->
            lookup_table (<[c0 := d']> cs) c2 t = Some (add_hook k fn table)).
  { intros c2 Hc2. rewrite Hlook, decide_True by congruence.
    unfold d'. cbn [cls_tables]. rewrite get_set_table.
    by rewrite (proj2 (table_eqb_eq t t) eq_refl). }
  exists table. split_and!.
  - unfold lookup_table. by rewrite Ho, Hd.
  - apply registered_add_hook_new.
  - exact Hsame.
  - intros c2 Hne. rewrite Hlook, decide_False by congruence. done.
  - intros c2 t' Hne. rewrite Hlook. destruct (decide (owner cs c2 t' = Some c0)) as [Heq|]; [|done].
    unfold d'. cbn [cls_tables]. rewrite get_set_table.
    destruct (table_eqb t t') eqn:E.
    + apply table_eqb_eq in E. congruence.
    + unfold lookup_table. by rewrite Heq, Hd.
  - intros w Hw Hown Hdict. unfold read_table. rewrite Hdict, Hw, (Hsame _ Hown). done.
Qed.

(** ** Dispatch over a hook table *)

Lemma fired_cons v k fns table :
  fired v ((k, fns) :: table)
  = (if v mod k =? 0 then map hook_event fns else []) ++ fired v table.
Proof. reflexivity. Qed.

Lemma hook_event_inj f g : hook_event f = hook_event g -> f = g.
Proof. unfold hook_event. intros H. by injection H. Qed.

Lemma fired_in v table fn :
  In (hook_event fn) (fired v table) <-> exists k, registered table k fn /\ v mod k = 0.
Proof.
  induction table as [|[k fns] table IH].
  - simpl. split; [done|]. intros (k & (fns & [] & _) & _).
  - rewrite fired_cons, in_app_iff, IH. split.
    + intros [H|(k' & (fns' & Hin & Hfn) & Hmod)].
      * destruct (v mod k =? 0) eqn:E; [|done].
        apply in_map_iff in H as (g & Hg & Hin). apply hook_event_inj in Hg. subst g.
        exists k. split; [|lia]. exists fns. split; [by left | done].
      * exists k'. split; [|done]. exists fns'. split; [by right | done].
    + intros (k' & (fns' & [Heq|Hin] & Hfn) & Hmod).
      * inversion Heq; subst. left. rewrite Hmod. simpl. by apply in_map.
      * right. exists k'. split; [|done]. by exists fns'.
Qed.

Lemma fired_entry v table k fns :
  In (k, fns) table -> v mod k = 0 ->
  exists l1 l2, fired v table = l1 ++ map hook_event fns ++ l2.
Proof.
  intros Hin Hmod. induction table as [|[k1 fns1] table IH]; [done|].
  rewrite fired_cons. destruct Hin as [Heq|Hin].
  - inversion Heq; subst. rewrite Hmod. cbn [Z.eqb]. by exists [], (fired v table).
  - destruct (IH Hin) as (l1 & l2 & ->).
    exists ((if v mod k1 =? 0 then map hook_event fns1 else []) ++ l1), l2.
    by rewrite <- app_assoc.
Qed.

Lemma registered_add_hook table k f k' fn :
  registered (add_hook k f table) k' fn <-> registered table k' fn \/ (k' = k /\ fn = f).
Proof.
  induction table as [|[k1 fns1] table IH].
  - simpl. split.
    + intros (fns & [Heq|[]] & Hfn). inversion Heq; subst.
      destruct Hfn as [->|[]]. by right.
    + intros [(fns & [] & _)|[-> ->]]. exists [f]. split; by left.
  - cbn [add_hook]. destruct (k1 =? k) eqn:E.
    + apply Z.eqb_eq in E. subst k1. split.
      * intros (fns & [Heq|Hin] & Hfn).
        -- inversion Heq; subst. apply in_app_iff in Hfn as [Hfn|[->|[]]].
           ++ left. exists fns1. split; [by left | done].
           ++ by right.
        -- left. exists fns. split; [by right | done].
      * intros [(fns & [Heq|Hin] & Hfn)|[-> ->]].
        -- inversion Heq; subst. exists (fns ++ [f]). split; [by left|].
           apply in_app_iff. by left.
        -- exists fns. split; [by right | done].
        -- exists (fns1 ++ [f]). split; [by left|]. apply in_app_iff. right. by left.
    + split.
      * intros (fns & [Heq|Hin] & Hfn).
        -- inversion Heq; subst. left. exists fns. split; [by left | done].
        -- destruct (proj1 IH) as [(fns' & Hin' & Hfn')|Hr].
           ++ by exists fns.
           ++ left. exists fns'. split; [by right | done].
           ++ by right.
      * intros [(fns & [Heq|Hin] & Hfn)|Hr].
        -- exists fns. split; [by left | done].
        -- destruct (proj2 IH) as (fns' & Hin' & Hfn').
           ++ left. by exists fns.
           ++ exists fns'. split; [by right | done].
        -- destruct (proj2 IH (or_intror Hr)) as (fns' & Hin' & Hfn').
           exists fns'. split; [by right | done].
Qed.

Lemma fired_add_two v table k f g :
  k <> 0 ->
  if v mod k =? 0 then
    exists l1 l3, fired v (add_hook k g (add_hook k f table))
                  = l1 ++ hook_event f :: hook_event g :: l3
                  /\ fired v table = l1 ++ l3
  else fired v (add_hook k g (add_hook k f table)) = fired v table.
Proof.
  intros Hk. induction table as [|[k1 fns1] table IH].
  - cbn [add_hook]. rewrite Z.eqb_refl. rewrite fired_cons.
    destruct (v mod k =? 0); [|done]. exists [], []. done.
  - cbn [add_hook]. destruct (k1 =? k) eqn:E.
    + apply Z.eqb_eq in E. subst k1. cbn [add_hook]. rewrite Z.eqb_refl.
      rewrite !fired_cons. destruct (v mod k =? 0); [|done].
      exists (map hook_event fns1), (fired v table). split; [|done].
      rewrite !map_app, <- !app_assoc. reflexivity.
    + cbn [add_hook]. rewrite E. rewrite !fired_cons.
      destruct (v mod k =? 0).
      * destruct IH as (l1 & l3 & H1 & H2).
        exists ((if v mod k1 =? 0 then map hook_event fns1 else []) ++ l1), l3.
        rewrite H1, H2, <- !app_assoc. done.
      * by rewrite IH.
Qed.

Lemma add_hook_nonzero k f table :
  k <> 0 -> nonzero_keys table -> nonzero_keys (add_hook k f table).
Proof.
  intros Hk. induction 1 as [|[k1 fns1] table H1 H IH].
  - by repeat constructor.
  - cbn [add_hook]. destruct (k1 =? k); constructor; done.
Qed.

Lemma positive_nonzero table : positive_keys table -> nonzero_keys table.
Proof.
  intros H. induction H as [|[k fns] table Hk H IH]; constructor; [simpl in *; lia | done].
Qed.

(** What the calls leave behind: every call runs the body of its callback
    on the engine the call before it left. *)
Lemma called_cons v k fns table :
  called v ((k, fns) :: table) = (if v mod k =? 0 then fns else []) ++ called v table.
Proof. reflexivity. Qed.

Lemma after_hooks_app uc l1 l2 i :
  after_hooks uc (l1 ++ l2) i = after_hooks uc l2 (after_hooks uc l1 i).
Proof. apply fold_left_app. Qed.

Lemma fired_called v table : fired v table = map hook_event (called v table).
Proof.
  induction table as [|[k fns] table IH]; [done|].
  rewrite fired_cons, called_cons, map_app, IH. by destruct (v mod k =? 0).
Qed.

Lemma called_in v table fn :
  In fn (called v table) <-> exists k, registered table k fn /\ v mod k = 0.
Proof.
  rewrite <- fired_in, fired_called. split.
  - apply in_map.
  - intros Hin. apply in_map_iff in Hin as (g & Hg & Hin).
    apply hook_event_inj in Hg. by subst g.
Qed.

Lemma called_add_two v table k f g :
  k <> 0 ->
  if v mod k =? 0 then
    exists c1 c3, called v (add_hook k g (add_hook k f table)) = c1 ++ f :: g :: c3
                  /\ called v table = c1 ++ c3
  else called v (add_hook k g (add_hook k f table)) = called v table.
Proof.
  intros Hk. induction table as [|[k1 fns1] table IH].
  - cbn [add_hook]. rewrite Z.eqb_refl. rewrite called_cons.
    destruct (v mod k =? 0); [|done]. exists [], []. done.
  - cbn [add_hook]. destruct (k1 =? k) eqn:E.
    + apply Z.eqb_eq in E. subst k1. cbn [add_hook]. rewrite Z.eqb_refl.
      rewrite !called_cons. destruct (v mod k =? 0); [|done].
      exists fns1, (called v table). split; [|done].
      rewrite <- !app_assoc. reflexivity.
    + cbn [add_hook]. rewrite E. rewrite !called_cons.
      destruct (v mod k =? 0).
      * destruct IH as (c1 & c3 & H1 & H2).
        exists ((if v mod k1 =? 0 then fns1 else []) ++ c1), c3.
        rewrite H1, H2, <- !app_assoc. done.
      * by rewrite IH.
Qed.

Section Bodies.
Variable uc : UserCode.
Hypothesis bodies_return : forall fn i, exists i', hook_body uc fn i = (Ok tt, i').

Lemma call_hooks_called fns :
  forall w,
  for_each fns (call_hook uc) w
  = (Ok tt, mkWorld (classes w) (after_hooks uc fns (this w))
              (trace w ++ map hook_event fns) (log w)).
Proof.
  induction fns as [|fn fns IH]; intros w.
  - cbn. rewrite app_nil_r. by destruct w.
  - destruct (bodies_return fn (this w)) as (i' & Hb).
    cbn [for_each].
    erewrite HyperParametersProps.bind_run; cycle 1.
    { unfold call_hook. erewrite HyperParametersProps.bind_run by reflexivity.
      unfold user. cbn [this classes trace log]. rewrite Hb. reflexivity. }
    rewrite IH. cbn [classes this trace log fst snd map after_hooks fold_left].
    rewrite Hb. cbn [snd]. by rewrite <- app_assoc.
Qed.

Lemma run_hooks_called table v :
  forall w,
  nonzero_keys table ->
  _run_hooks uc (VInt v) table w
  = (Ok tt, mkWorld (classes w) (after_hooks uc (called v table) (this w))
              (trace w ++ fired v table) (log w)).
Proof.
  induction table as [|[k fns] table IH]; intros w Hnz.
  - cbn. rewrite app_nil_r. by destruct w.
  - inversion Hnz as [|? ? Hk Hnz']; subst. simpl in Hk.
    simpl _run_hooks.
    erewrite HyperParametersProps.bind_run by (by apply divides_int).
    rewrite fired_cons, called_cons. destruct (v mod k =? 0).
    + erewrite HyperParametersProps.bind_run by apply call_hooks_called.
      rewrite IH by done. cbn [classes this trace log].
      by rewrite after_hooks_app, app_assoc.
    + erewrite HyperParametersProps.bind_run by reflexivity.
      rewrite IH by done. reflexivity.
Qed.
End Bodies.

(** C5: a dispatch on [v] over a table of positive intervals calls, entry
    by entry, the callbacks of the intervals that divide [v], the list of
    each such interval as a whole and in its order, and each call runs the
    body of its callback: the engine the dispatch leaves is the one the
    bodies of the called callbacks give, run one after the other in the
    order of the calls.  A callback is called iff it is registered under an
    interval [k'] with [v % k' == 0]; for two callbacks [f] and then [g]
    registered under the same interval [k] and nowhere else, each is
    called iff [v % k == 0], and then the body of [f] runs immediately
    before the body of [g], on the engine the calls before them left. *)
Theorem dispatch_calls_matching_intervals uc table k f g v w :
  (forall fn i, exists i', hook_body uc fn i = (Ok tt, i')) ->
  positive_keys table -> 0 < k ->
  unregistered table f -> unregistered table g ->
  let table' := add_hook k g (add_hook k f table) in
  exists w',
    _run_hooks uc (VInt v) table' w = (Ok tt, w')
    /\ trace w' = trace w ++ fired v table'
    /\ (forall fn, In (hook_event fn) (fired v table')
                   <-> exists k', registered table' k' fn /\ v mod k' = 0)
    /\ (forall k' fns, In (k', fns) table' -> v mod k' = 0 ->
          exists l1 l2, fired v table' = l1 ++ map hook_event fns ++ l2)
    /\ (In (hook_event f) (fired v table') <-> v mod k = 0)
    /\ (In (hook_event g) (fired v table') <-> v mod k = 0)
    /\ (v mod k = 0 ->
        exists l1 l3, fired v table' = l1 ++ hook_event f :: hook_event g :: l3
                      /\ fired v table = l1 ++ l3)
    /\ classes w' = classes w /\ log w' = log w
    /\ fired v table' = map hook_event (called v table')
    /\ this w' = after_hooks uc (called v table') (this w)
    /\ (forall fn, In fn (called v table')
                   <-> exists k', registered table' k' fn /\ v mod k' = 0)
    /\ (In f (called v table') <-> v mod k = 0)
    /\ (In g (called v table') <-> v mod k = 0)
    /\ (v mod k = 0 ->
        exists c1 c3,
          called v table' = c1 ++ f :: g :: c3 /\ called v table = c1 ++ c3
          /\ this w'
             = after_hooks uc c3
                 (snd (hook_body uc g
                         (snd (hook_body uc f (after_hooks uc c1 (this w)))))))
    /\ (v mod k <> 0 -> this w' = after_hooks uc (called v table) (this w)).
Proof.
  intros Hok Hpos Hk Hf Hg table'.
  assert (Hnz : nonzero_keys table').
  { apply add_hook_nonzero; [lia|]. apply add_hook_nonzero; [lia|].
    by apply positive_nonzero. }
  pose proof (run_hooks_called uc Hok table' v w Hnz) as E.
  assert (Hreg : forall fn, (exists k', registered table' k' fn /\ v mod k' = 0)
                            <-> (exists k', registered table k' fn /\ v mod k' = 0)
                                \/ ((fn = f \/ fn = g) /\ v mod k = 0)).
  { intros fn. unfold table'. split.
    - intros (k' & Hr & Hm). apply registered_add_hook in Hr as [Hr|[-> ->]].
      + apply registered_add_hook in Hr as [Hr|[-> ->]]; [left; eauto | right; auto].
      + right; auto.
    - intros [(k' & Hr & Hm)|[[->| ->] Hm]].
      + exists k'. split; [|done]. apply registered_add_hook. left.
        apply registered_add_hook. by left.
      + exists k. split; [|done]. apply registered_add_hook. left.
        apply registered_add_hook. by right.
      + exists k. split; [|done]. apply registered_add_hook. by right. }
  assert (Hcf : In f (called v table') <-> v mod k = 0).
  { rewrite called_in, Hreg. split.
    - intros [(k' & Hr & _)|[_ Hm]]; [by destruct (Hf k') | done].
    - intros Hm. right. auto. }
  assert (Hcg : In g (called v table') <-> v mod k = 0).
  { rewrite called_in, Hreg. split.
    - intros [(k' & Hr & _)|[_ Hm]]; [by destruct (Hg k') | done].
    - intros Hm. right. auto. }
  pose proof (called_add_two v table k f g ltac:(lia)) as Hc. fold table' in Hc.
  eexists. split; [exact E|]. cbn [trace classes log this].
  split; [reflexivity|].
  split; [intros fn; apply fired_in|].
  split; [intros k' fns; apply fired_entry|].
  split; [rewrite fired_called; rewrite <- Hcf; split;
          [intros Hin; apply in_map_iff in Hin as (h & Hh & Hin);
           apply hook_event_inj in Hh; by subst h | apply in_map]|].
  split; [rewrite fired_called; rewrite <- Hcg; split;
          [intros Hin; apply in_map_iff in Hin as (h & Hh & Hin);
           apply hook_event_inj in Hh; by subst h | apply in_map]|].
  split.
  { intros Hm. pose proof (fired_add_two v table k f g ltac:(lia)) as H.
    rewrite Hm in H. exact H. }
  split; [reflexivity|]. split; [reflexivity|].
  split; [apply fired_called|].
  split; [reflexivity|].
  split; [intros fn; apply called_in|].
  split; [exact Hcf|]. split; [exact Hcg|].
  split.
  - intros Hm. rewrite Hm in Hc. cbn [Z.eqb] in Hc.
    destruct Hc as (c1 & c3 & H1 & H2). exists c1, c3. split_and!; [done..|].
    rewrite H1, after_hooks_app. reflexivity.
  - intros Hm. apply Z.eqb_neq in Hm. rewrite Hm in Hc. by rewrite Hc.
Qed.

Lemma read_native w name v :
  dict (this w) !! name = Some v -> read name w = (Ok v, w).
Proof. intros H. unfold read, native. by rewrite H. Qed.

Lemma read_bridge w name v :
  dict (this w) !! name = None ->
  class_attr (classes w) (cls (this w)) name = None ->
  dict (this w) !! "params" = Some VStore ->
  HyperParameters.getattr (params (this w)) name = Ok v ->
  read name w = (Ok v, w).
Proof.
  intros Hd Hc Hp Hg. unfold read, native. rewrite Hd, Hc.
  unfold __getattr__, native. rewrite Hp.
  unfold HyperParameters.hasattr. rewrite Hg. reflexivity.
Qed.

Lemma setattr_bridge w name v old :
  dict (this w) !! "_init_done" = Some (VBool true) ->
  dict (this w) !! name = None ->
  class_attr (classes w) (cls (this w)) name = None ->
  dict (this w) !! "params" = Some VStore ->
  HyperParameters.getattr (params (this w)) name = Ok old ->
  name_in name HyperParameters.property_names = false ->
  __setattr__ name v w = (Ok tt, with_params w (<[name := v]> (params (this w)))).
Proof.
  intros Hdone Hd Hc Hp Hg Hn. unfold __setattr__.
  erewrite HyperParametersProps.bind_run by (apply read_native; exact Hdone).
  erewrite HyperParametersProps.bind_run by reflexivity.
  unfold native. rewrite Hd, Hc. cbn [truthy andb].
  erewrite HyperParametersProps.bind_run; cycle 1.
  { unfold params_has. erewrite HyperParametersProps.bind_run by (apply read_native; exact Hp).
    unfold HyperParameters.hasattr. rewrite Hg. reflexivity. }
  cbv iota. unfold set_param, HyperParameters.setattr. rewrite Hn. reflexivity.
Qed.

(** ** The attribute bridge *)

Lemma getattr_absent p name :
  p !! name = None ->
  name_in name (HyperParameters.property_names ++ HyperParameters.method_names ++ object_names)
    = false ->
  HyperParameters.getattr p name = Raise AttributeError.
Proof.
  intros Hp Hn. unfold name_in in Hn. rewrite existsb_app in Hn.
  apply orb_false_elim in Hn as [Hprop Hrest].
  cbn [HyperParameters.property_names existsb] in Hprop.
  apply orb_false_elim in Hprop as [H1 Hprop]. apply orb_false_elim in Hprop as [H2 Hprop].
  apply orb_false_elim in Hprop as [H3 _].
  unfold HyperParameters.getattr. rewrite H1, H2, H3.
  unfold HyperParameters.inst_attr, name_in. by rewrite Hp, Hrest.
Qed.

(** C8: reading a name that normal lookup does not find on the engine gives
    the value the store has for it when the store answers the name, and
    fails with [AttributeError] when the store has no such name either. *)
Theorem read_falls_back_to_store w name :
  native (classes w) (this w) name = None ->
  native (classes w) (this w) "params" = Some VStore ->
  (forall v, HyperParameters.getattr (params (this w)) name = Ok v ->
             read name w = (Ok v, w))
  /\ (HyperParameters.getattr (params (this w)) name = Raise AttributeError ->
      read name w = (Raise AttributeError, w))
  /\ (params (this w) !! name = None ->
      name_in name (HyperParameters.property_names ++ HyperParameters.method_names
                    ++ object_names) = false ->
      read name w = (Raise AttributeError, w)).
Proof.
  intros Hn Hp.
  assert (Hr : read name w
               = match HyperParameters.hasattr (params (this w)) name with
                 | Ok true => (HyperParameters.getattr (params (this w)) name, w)
                 | Ok false => (Raise AttributeError, w)
                 | Raise e => (Raise e, w)
                 end).
  { unfold read. rewrite Hn. unfold __getattr__. by rewrite Hp. }
  assert (Hattr : HyperParameters.getattr (params (this w)) name = Raise AttributeError ->
                  read name w = (Raise AttributeError, w)).
  { intros Hg. rewrite Hr. unfold HyperParameters.hasattr. by rewrite Hg. }
  split_and!.
  - intros v Hg. rewrite Hr. unfold HyperParameters.hasattr. by rewrite Hg.
  - exact Hattr.
  - intros Hnone Hnames. apply Hattr. by apply getattr_absent.
Qed.

(** ** Construction and the interrupt handler *)

Lemma has_pure name w : snd (has name w) = w.
Proof.
  unfold has, read. destruct (native (classes w) (this w) name); [done|].
  unfold __getattr__. destruct (native (classes w) (this w) "params") as [[]|]; try done.
  destruct (HyperParameters.hasattr (params (this w)) name) as [[]|[]]; try done.
  destruct (HyperParameters.getattr (params (this w)) name) as [|[]]; done.
Qed.

Lemma has_false name w w' :
  has name w = (Ok false, w') -> native (classes w) (this w) name = None.
Proof.
  unfold has, read. destruct (native (classes w) (this w) name); [done|]. done.
Qed.

Lemma setattr_during_init name v w :
  dict (this w) !! "_init_done" = None ->
  class_attr (classes w) (cls (this w)) "_init_done" = Some (VBool false) ->
  __setattr__ name v w = set_native name v w.
Proof.
  intros Hd Hc. unfold __setattr__.
  erewrite HyperParametersProps.bind_run; cycle 1.
  { unfold read, native. rewrite Hd, Hc. reflexivity. }
  erewrite HyperParametersProps.bind_run by reflexivity. reflexivity.
Qed.

Section Construction.
Variable cs : gmap string ClassDef.
Variable c : string.
Hypothesis Hclass : class_attr cs c "_init_done" = Some (VBool false).

Local Abbreviation constructing := (Engine.constructing cs c).

Lemma init_kwarg_constructing kv w w' :
  constructing w -> init_kwarg kv w = (Ok tt, w') -> constructing w'.
Proof.
  intros (Hcs & Hcl & Hdone & Hsig & Hlog) H. unfold init_kwarg in H.
  fold (notices (log w)) in Hlog.
  unfold bind in H at 1.
  pose proof (has_pure (fst kv) w) as Hp.
  destruct (has (fst kv) w) as [[h|e] w1] eqn:Eh; simpl in Hp; subst w1; [|done].
  destruct h; cbn [negb] in H.
  - unfold log_record, modify in H. injection H as <-.
    unfold Engine.constructing; simpl. split_and!; try done.
    unfold notices in *. rewrite List.filter_app, length_app, Hlog. reflexivity.
  - rewrite setattr_during_init in H by (rewrite ?Hcs, ?Hcl; done).
    apply has_false in Eh. unfold native in Eh.
    destruct (dict (this w) !! fst kv) eqn:Ed; [done|].
    unfold set_native, modify in H. injection H as <-.
    unfold Engine.constructing; simpl. split_and!; try done.
    + rewrite lookup_insert_ne; [done|]. intros Heq.
      rewrite Heq, Hcs, Hcl, Hclass in Eh. done.
    + rewrite lookup_insert_ne; [done|]. intros Heq. rewrite Heq in Ed. congruence.
Qed.

Lemma for_each_constructing kwargs w w' :
  constructing w -> for_each kwargs init_kwarg w = (Ok tt, w') -> constructing w'.
Proof.
  revert w. induction kwargs as [|kv kwargs IH]; intros w Hw H.
  - inversion H. by subst.
  - cbn [for_each] in H. unfold bind in H at 1.
    destruct (init_kwarg kv w) as [[[]|e] w1] eqn:E; [|done].
    eapply IH; [|exact H]. eapply init_kwarg_constructing; eauto.
Qed.

Lemma new_constructed p dataloader kwargs w0 :
  new cs c p dataloader kwargs = (Ok tt, w0) ->
  classes w0 = cs /\ cls (this w0) = c
  /\ dict (this w0) !! "_init_done" = Some (VBool true)
  /\ dict (this w0) !! "sigint" = Some (VBool false)
  /\ notices (log w0) = 0%nat.
Proof.
  unfold new. destruct (existsb _ kwargs); [done|]. unfold __init__. intros H.
  set (w1 := snd (set_native "params" VStore (mkWorld cs (mkInst c ∅ p) [] []))) in H.
  rewrite HyperParametersProps.bind_run with (a := tt) (s' := w1) in H
    by (rewrite setattr_during_init by done; reflexivity).
  assert (Hdl : exists w2,
    match dataloader with
    | VNone => log_record "WARNING" no_dataloader_warning
    | _ => __setattr__ "dataloader" dataloader
    end w1 = (Ok tt, w2)
    /\ classes w2 = cs /\ cls (this w2) = c /\ dict (this w2) !! "_init_done" = None
    /\ notices (log w2) = 0%nat).
  { destruct dataloader;
      try (rewrite setattr_during_init by done; eexists; split; [reflexivity|]; done).
    eexists; split; [reflexivity|]; done. }
  destruct Hdl as (w2 & E2 & Hc2 & Hl2 & Hd2 & Hn2).
  rewrite (HyperParametersProps.bind_run _ _ _ _ _ E2) in H.
  erewrite HyperParametersProps.bind_run in H; cycle 1.
  { rewrite setattr_during_init by (rewrite ?Hc2, ?Hl2; done). reflexivity. }
  erewrite HyperParametersProps.bind_run in H by reflexivity.
  erewrite HyperParametersProps.bind_run in H; cycle 1.
  { rewrite setattr_during_init; [reflexivity | simpl | simpl; rewrite Hc2, Hl2; done].
    rewrite !lookup_insert_ne by done. exact Hd2. }
  unfold bind in H at 1.
  match type of H with context [for_each kwargs init_kwarg ?w] => set (w3 := w) in H end.
  assert (H3 : constructing w3).
  { unfold Engine.constructing, w3; simpl. split_and!; try done.
    - rewrite !lookup_insert_ne by done. exact Hd2.
    - rewrite lookup_insert_ne by done. by rewrite lookup_insert_eq. }
  destruct (for_each kwargs init_kwarg w3) as [[[]|e] w4] eqn:E4; [|done].
  destruct (for_each_constructing _ _ _ H3 E4) as (Hc4 & Hl4 & Hd4 & Hs4 & Hn4).
  rewrite setattr_during_init in H by (rewrite ?Hc4, ?Hl4; done).
  unfold set_native, modify in H. inversion H; subst w0; clear H. simpl.
  split_and!; try done.
  - by rewrite lookup_insert_eq.
  - by rewrite lookup_insert_ne.
Qed.

End Construction.

Lemma handler_first w :
  dict (this w) !! "_init_done" = Some (VBool true) ->
  dict (this w) !! "sigint" = Some (VBool false) ->
  __sigint_handler w
  = (Ok tt, mkWorld (classes w)
              (mkInst (cls (this w)) (<["sigint" := VBool true]> (dict (this w)))
                 (params (this w)))
              (trace w) (log w ++ [("DEBUG", sigint_notice)])).
Proof.
  intros Hdone Hsig. unfold __sigint_handler.
  erewrite HyperParametersProps.bind_run by (apply read_native; exact Hsig). cbn [truthy negb].
  erewrite HyperParametersProps.bind_run by reflexivity.
  unfold __setattr__.
  erewrite HyperParametersProps.bind_run by (apply read_native; exact Hdone).
  erewrite HyperParametersProps.bind_run by reflexivity.
  cbn [truthy log_record modify classes this]. unfold native. cbn [dict]. rewrite Hsig.
  reflexivity.
Qed.

Lemma handler_again w :
  dict (this w) !! "sigint" = Some (VBool true) -> __sigint_handler w = (Ok tt, w).
Proof.
  intros Hsig. unfold __sigint_handler.
  erewrite HyperParametersProps.bind_run by (apply read_native; exact Hsig). reflexivity.
Qed.

Lemma signals_again n w :
  dict (this w) !! "sigint" = Some (VBool true) -> signals n w = (Ok tt, w).
Proof.
  intros Hsig. induction n as [|n IH]; [done|].
  cbn [signals]. erewrite HyperParametersProps.bind_run by (by apply handler_again). exact IH.
Qed.

(** C7: the flag is false after construction; the first SIGINT logs the
    notice and sets the flag, every later one changes nothing, so that
    after any number of signals, two for instance, the log holds the notice
    once. *)
Theorem sigint_is_idempotent cs c p dataloader kwargs w0 :
  class_attr cs c "_init_done" = Some (VBool false) ->
  new cs c p dataloader kwargs = (Ok tt, w0) ->
  read "sigint" w0 = (Ok (VBool false), w0)
  /\ notices (log w0) = 0%nat
  /\ exists w1,
       __sigint_handler w0 = (Ok tt, w1)
       /\ read "sigint" w1 = (Ok (VBool true), w1)
       /\ log w1 = log w0 ++ [("DEBUG", sigint_notice)]
       /\ notices (log w1) = 1%nat
       /\ __sigint_handler w1 = (Ok tt, w1)
       /\ signals 2 w0 = (Ok tt, w1)
       /\ forall n, signals (S n) w0 = (Ok tt, w1).
Proof.
  intros Hclass Hnew.
  destruct (new_constructed cs c Hclass p dataloader kwargs w0 Hnew)
    as (Hcs & Hcl & Hdone & Hsig & Hlog).
  pose proof (handler_first w0 Hdone Hsig) as H1.
  set (w1 := mkWorld (classes w0)
               (mkInst (cls (this w0)) (<["sigint" := VBool true]> (dict (this w0)))
                  (params (this w0)))
               (trace w0) (log w0 ++ [("DEBUG", sigint_notice)])) in *.
  assert (Hs1 : dict (this w1) !! "sigint" = Some (VBool true))
    by (unfold w1; simpl; by rewrite lookup_insert_eq).
  assert (Hn : forall n, signals (S n) w0 = (Ok tt, w1)).
  { intros n. cbn [signals]. erewrite HyperParametersProps.bind_run by exact H1. by apply signals_again. }
  split_and!; [by apply read_native | exact Hlog |].
  exists w1. split_and!.
  - exact H1.
  - by apply read_native.
  - reflexivity.
  - unfold w1; simpl. unfold notices in *.
    rewrite List.filter_app, length_app, Hlog. reflexivity.
  - by apply handler_again.
  - apply Hn.
  - exact Hn.
Qed.

Lemma getattr_subdivisions p a b :
  p !! "batch_size" = Some (VInt a) -> p !! "mini_batch_size" = Some (VInt b) -> b <> 0 ->
  HyperParameters.getattr p "batch_subdivisions" = Ok (VInt (a / b)).
Proof.
  intros Ha Hb Hnz. unfold HyperParameters.getattr.
  change (String.eqb "batch_subdivisions" "optimizer") with false.
  change (String.eqb "batch_subdivisions" "scheduler") with false.
  change (String.eqb "batch_subdivisions" "batch_subdivisions") with true.
  cbv iota. unfold HyperParameters.inst_attr. rewrite Ha, Hb. simpl.
  unfold floordiv. destruct (b =? 0) eqn:E; [lia|]. reflexivity.
Qed.

Lemma run_then {A} (c : M World A) w e1 Q :
  run c w e1 Q ->
  exists a w1, (forall B (k : A -> M World B), bind c k w = k a w1)
               /\ classes w1 = classes w /\ log w1 = log w
               /\ trace w1 = trace w ++ e1 /\ Q a (this w1).
Proof.
  intros (a & w1 & Hc & H). exists a, w1. split; [|exact H].
  intros B k. by apply HyperParametersProps.bind_run.
Qed.

(** ** Projections of traces *)

Lemma trains_app l1 l2 : trains (l1 ++ l2) = (trains l1 + trains l2)%nat.
Proof. unfold trains. by rewrite List.filter_app, length_app. Qed.

Lemma processed_app l1 l2 : processed (l1 ++ l2) = processed l1 ++ processed l2.
Proof. unfold processed. by rewrite flat_map_app. Qed.

Lemma dispatched_app t l1 l2 : dispatched t (l1 ++ l2) = dispatched t l1 ++ dispatched t l2.
Proof. unfold dispatched. by rewrite flat_map_app. Qed.

Lemma calls_app fn l1 l2 : calls fn (l1 ++ l2) = (calls fn l1 + calls fn l2)%nat.
Proof. unfold calls. by rewrite List.filter_app, length_app. Qed.

Lemma hooks_only fns :
  trains (map hook_event fns) = 0%nat /\ processed (map hook_event fns) = []
  /\ forall t, dispatched t (map hook_event fns) = [].
Proof.
  induction fns as [|fn fns (IH1 & IH2 & IH3)]; [done|].
  split_and!; [exact IH1 | exact IH2 | intros t; apply IH3].
Qed.

Lemma fired_only v table :
  trains (fired v table) = 0%nat /\ processed (fired v table) = []
  /\ forall t, dispatched t (fired v table) = [].
Proof.
  induction table as [|[k fns] table (IH1 & IH2 & IH3)]; [done|].
  unfold fired. cbn [flat_map]. fold (fired v table). cbn [fst snd].
  destruct (hooks_only fns) as (H1 & H2 & H3).
  destruct (v mod k =? 0).
  - rewrite trains_app, processed_app, H1, H2, IH1, IH2.
    split_and!; try done. intros t. by rewrite dispatched_app, H3, IH3.
  - done.
Qed.

Lemma fn_eqb_refl fn : fn_eqb fn fn = true.
Proof.
  unfold fn_eqb. rewrite String.eqb_refl. destruct (fn_self fn); [|done].
  by rewrite String.eqb_refl.
Qed.

Lemma calls_registered v table k fn :
  registered table k fn -> v mod k = 0 -> (1 <= calls fn (fired v table))%nat.
Proof.
  intros (fns & Hin & Hfn) Hmod.
  induction table as [|[k' fns'] table IH]; [done|].
  unfold fired. cbn [flat_map]. fold (fired v table). cbn [fst snd].
  rewrite calls_app. destruct Hin as [Heq|Hin].
  - inversion Heq; subst. rewrite Hmod. cbn [Z.eqb].
    clear IH Heq. induction fns as [|g fns IH]; [done|].
    destruct Hfn as [->|Hfn].
    + unfold calls. cbn [map List.filter hook_event]. rewrite fn_eqb_refl. simpl. lia.
    + specialize (IH Hfn). unfold calls in *. cbn [map List.filter hook_event].
      destruct (fn_eqb fn g); simpl; lia.
  - specialize (IH Hin). lia.
Qed.

Section Steady.
Variable uc : UserCode.
Variable cs : gmap string ClassDef.
Variable c : string.
Variables bsz mbsz : Z.
Variable loader : list Value.
Variable tab : Table -> HookTable.

Local Abbreviation static := (Engine.static cs c mbsz tab).
Local Abbreviation steady := (Engine.steady c bsz mbsz loader).
Local Abbreviation stable := (Engine.stable uc c bsz mbsz loader).
Local Abbreviation sub := (Engine.sub bsz mbsz).
Local Abbreviation mini := (Engine.mini tab).
Local Abbreviation completion := (Engine.completion tab).
Local Abbreviation group := (Engine.group tab).
Local Abbreviation epoch_trace := (Engine.epoch_trace tab).

Hypothesis Hstatic : static.
Hypothesis Hstable : stable.

Lemma run_add_batch delta e b w :
  classes w = cs -> steady e b (this w) ->
  run (add_to "batch" delta) w [] (fun _ i => steady e (b + delta) i).
Proof.
  intros Hcs Hst. destruct Hst. 
  assert (Hf : dict (this w) !! "batch" = None) by (apply st_free0; simpl; tauto).
  assert (Hc : class_attr (classes w) (cls (this w)) "batch" = None).
  { rewrite Hcs, st_cls0. apply (sta_free Hstatic). simpl; tauto. }
  exists tt, (with_params w (<["batch" := VInt (b + delta)]> (params (this w)))).
  split.
  - unfold add_to.
    erewrite HyperParametersProps.bind_run; cycle 1.
    { apply read_bridge; try eassumption. apply HyperParametersProps.getattr_present; [reflexivity | eassumption]. }
    erewrite HyperParametersProps.bind_run by reflexivity.
    eapply setattr_bridge; try eassumption; [|reflexivity].
    apply HyperParametersProps.getattr_present; [reflexivity | eassumption].
  - simpl. rewrite app_nil_r. repeat split; try done; simpl;
      try (rewrite lookup_insert_ne by done; done).
    by rewrite lookup_insert_eq.
Qed.

Lemma run_add_epoch delta e b w :
  classes w = cs -> steady e b (this w) ->
  run (add_to "epoch" delta) w [] (fun _ i => steady (e + delta) b i).
Proof.
  intros Hcs Hst. destruct Hst.
  assert (Hf : dict (this w) !! "epoch" = None) by (apply st_free0; simpl; tauto).
  assert (Hc : class_attr (classes w) (cls (this w)) "epoch" = None).
  { rewrite Hcs, st_cls0. apply (sta_free Hstatic). simpl; tauto. }
  exists tt, (with_params w (<["epoch" := VInt (e + delta)]> (params (this w)))).
  split.
  - unfold add_to.
    erewrite HyperParametersProps.bind_run; cycle 1.
    { apply read_bridge; try eassumption. apply HyperParametersProps.getattr_present; [reflexivity | eassumption]. }
    erewrite HyperParametersProps.bind_run by reflexivity.
    eapply setattr_bridge; try eassumption; [|reflexivity].
    apply HyperParametersProps.getattr_present; [reflexivity | eassumption].
  - simpl. rewrite app_nil_r. repeat split; try done; simpl;
      try (rewrite lookup_insert_ne by done; done).
    by rewrite lookup_insert_eq.
Qed.

Lemma read_counter name v e b w :
  In name bridged -> classes w = cs -> steady e b (this w) ->
  HyperParameters.getattr (params (this w)) name = Ok v ->
  read name w = (Ok v, w).
Proof.
  intros Hin Hcs Hst Hg. destruct Hst.
  apply read_bridge; auto.
  rewrite Hcs, st_cls0. by apply (sta_free Hstatic).
Qed.

Lemma read_table_steady t e b w :
  classes w = cs -> steady e b (this w) -> read_table t w = (Ok (tab t), w).
Proof.
  intros Hcs Hst. destruct Hst. unfold read_table.
  rewrite st_tab0, Hcs, st_cls0, (sta_tab Hstatic). reflexivity.
Qed.

Lemma run_dispatch_batch t e b w :
  classes w = cs -> steady e b (this w) ->
  run (dispatch uc "batch" t) w (EvDispatch t (VInt b) :: fired b (tab t))
      (fun _ i => steady e b i).
Proof.
  intros Hcs Hst. unfold dispatch.
  eapply run_pure.
  { eapply (read_counter "batch"); eauto; [simpl; tauto|].
    apply HyperParametersProps.getattr_present; [reflexivity | apply (st_batch _ _ _ Hst)]. }
  eapply run_pure; [by eapply read_table_steady|].
  change (?x :: ?l) with ([x] ++ l).
  eapply (run_bind _ _ _ _ _ (fun _ i => steady e b i)).
  - by apply run_emit.
  - intros [] w1 _ _ _ H1.
    apply (run_hooks_fired uc (steady e b)); auto.
    + intros fn i Hi. by apply (sb_hook Hstable).
    + apply (sta_keys Hstatic).
Qed.

Lemma run_dispatch_epoch t e b w :
  classes w = cs -> steady e b (this w) ->
  run (dispatch uc "epoch" t) w (EvDispatch t (VInt e) :: fired e (tab t))
      (fun _ i => steady e b i).
Proof.
  intros Hcs Hst. unfold dispatch.
  eapply run_pure.
  { eapply (read_counter "epoch"); eauto; [simpl; tauto|].
    apply HyperParametersProps.getattr_present; [reflexivity | apply (st_epoch _ _ _ Hst)]. }
  eapply run_pure; [by eapply read_table_steady|].
  change (?x :: ?l) with ([x] ++ l).
  eapply (run_bind _ _ _ _ _ (fun _ i => steady e b i)).
  - by apply run_emit.
  - intros [] w1 _ _ _ H1.
    apply (run_hooks_fired uc (steady e b)); auto.
    + intros fn i Hi. by apply (sb_hook Hstable).
    + apply (sta_keys Hstatic).
Qed.

Lemma read_subdivisions e b w :
  classes w = cs -> steady e b (this w) ->
  read_int "batch_subdivisions" w = (Ok sub, w).
Proof.
  intros Hcs Hst. unfold read_int.
  erewrite HyperParametersProps.bind_run; cycle 1.
  { eapply (read_counter "batch_subdivisions"); eauto; [simpl; tauto|].
    apply getattr_subdivisions; [apply (st_bs _ _ _ Hst) | apply (st_mbs _ _ _ Hst) | apply (sta_mbs Hstatic)]. }
  reflexivity.
Qed.

Lemma run_quit e b w :
  classes w = cs -> steady e b (this w) ->
  run (quit_or_sigint uc) w [EvQuit] (fun q i => q = false /\ steady e b i).
Proof.
  intros Hcs Hst. unfold quit_or_sigint.
  rewrite <- (app_nil_r [EvQuit]).
  eapply (run_bind _ _ _ _ _ (fun _ i => steady e b i)); [by apply run_emit|].
  intros [] w1 Hc1 _ _ H1. rewrite <- (app_nil_r []).
  eapply (run_bind _ _ _ _ _ (fun v i => truthy v = false /\ steady e b i)).
  - apply run_user. destruct (sb_quit Hstable _ _ _ H1) as (v & i' & Hq & Hv & Hi). eauto.
  - intros v w2 Hc2 _ _ [Hv H2]. rewrite Hv.
    eapply run_pure; [apply read_native; apply (st_sigint _ _ _ H2)|].
    apply run_ret. simpl. done.
Qed.

Lemma mini_batch_run len idx d rest e b w :
  classes w = cs -> steady e b (this w) ->
  exists w1,
    classes w1 = cs /\ log w1 = log w /\ trace w1 = trace w ++ mini (b + 1) d
    /\ steady e (b + 1) (this w1)
    /\ batch_loop uc len idx (d :: rest) w =
       (do r <- lift (pymod (idx + 1) sub);
        if negb (r =? 0) then
          add_to "batch" (-1) ;; batch_loop uc len (idx + 1) rest
        else
          emit EvTrain ;; user (train_batch uc) ;; dispatch uc "batch" BatchEnd ;;
          do q <- quit_or_sigint uc;
          if q then quitting ;; ret Returned
          else do sub <- read_int "batch_subdivisions";
               if len - idx <=? sub then ret Broke
               else batch_loop uc len (idx + 1) rest) w1.
Proof.
  intros Hcs Hst. cbn [batch_loop].
  destruct (run_then _ _ _ _ (run_add_batch 1 e b w Hcs Hst))
    as ([] & w1 & E1 & Hc1 & Hl1 & Ht1 & H1). rewrite E1. clear E1.
  rewrite Hcs in Hc1.
  destruct (run_then _ _ _ _ (run_dispatch_batch BatchStart e (b + 1) w1 Hc1 H1))
    as ([] & w2 & E2 & Hc2 & Hl2 & Ht2 & H2). rewrite E2. clear E2.
  rewrite Hc1 in Hc2.
  destruct (run_then _ _ _ _ (run_emit w2 (EvProcess d) _ H2))
    as ([] & w3 & E3 & Hc3 & Hl3 & Ht3 & H3). rewrite E3. clear E3.
  rewrite Hc2 in Hc3.
  assert (Hu : run (user (process_batch uc d)) w3 [] (fun _ i => steady e (b + 1) i)).
  { apply run_user. destruct (sb_process Hstable d _ _ _ H3) as (i' & Hp & Hi).
    exists tt, i'. done. }
  destruct (run_then _ _ _ _ Hu) as ([] & w4 & E4 & Hc4 & Hl4 & Ht4 & H4).
  rewrite E4. clear E4. rewrite Hc3 in Hc4.
  erewrite HyperParametersProps.bind_run by (by eapply read_subdivisions).
  exists w4. split_and!; try congruence.
  rewrite Ht4, Ht3, Ht2, Ht1. unfold mini.
  rewrite !app_nil_r, <- !app_assoc. reflexivity.
Qed.

Lemma partial_step len idx d rest e b w :
  classes w = cs -> steady e b (this w) -> sub <> 0 -> (idx + 1) mod sub <> 0 ->
  exists w1,
    classes w1 = cs /\ log w1 = log w /\ trace w1 = trace w ++ mini (b + 1) d
    /\ steady e b (this w1)
    /\ batch_loop uc len idx (d :: rest) w = batch_loop uc len (idx + 1) rest w1.
Proof.
  intros Hcs Hst Hsub Hmod.
  destruct (mini_batch_run len idx d rest e b w Hcs Hst)
    as (w1 & Hc1 & Hl1 & Ht1 & H1 & E). rewrite E. clear E.
  unfold pymod. destruct (sub =? 0) eqn:Es; [lia|].
  erewrite HyperParametersProps.bind_run by reflexivity.
  destruct ((idx + 1) mod sub =? 0) eqn:Em; [lia|]. cbn [negb].
  destruct (run_then _ _ _ _ (run_add_batch (-1) e (b + 1) w1 Hc1 H1))
    as ([] & w2 & E2 & Hc2 & Hl2 & Ht2 & H2). rewrite E2. clear E2.
  replace (b + 1 + -1) with b in H2 by lia.
  exists w2. split_and!; try congruence.
  rewrite Ht2, Ht1, app_nil_r. reflexivity.
Qed.

Lemma completing_step len idx d rest e b w :
  classes w = cs -> steady e b (this w) -> sub <> 0 -> (idx + 1) mod sub = 0 ->
  exists w1,
    classes w1 = cs /\ log w1 = log w
    /\ trace w1 = trace w ++ mini (b + 1) d ++ completion (b + 1)
    /\ steady e (b + 1) (this w1)
    /\ batch_loop uc len idx (d :: rest) w =
       (if len - idx <=? sub then ret Broke
        else batch_loop uc len (idx + 1) rest) w1.
Proof.
  intros Hcs Hst Hsub Hmod.
  destruct (mini_batch_run len idx d rest e b w Hcs Hst)
    as (w1 & Hc1 & Hl1 & Ht1 & H1 & E). rewrite E. clear E.
  unfold pymod. destruct (sub =? 0) eqn:Es; [lia|].
  erewrite HyperParametersProps.bind_run by reflexivity.
  rewrite Hmod. cbn [Z.eqb negb].
  destruct (run_then _ _ _ _ (run_emit w1 EvTrain _ H1))
    as ([] & w2 & E2 & Hc2 & Hl2 & Ht2 & H2). rewrite E2. clear E2.
  rewrite Hc1 in Hc2.
  assert (Hu : run (user (train_batch uc)) w2 [] (fun _ i => steady e (b + 1) i)).
  { apply run_user. destruct (sb_train Hstable _ _ _ H2) as (i' & Hp & Hi).
    exists tt, i'. done. }
  destruct (run_then _ _ _ _ Hu) as ([] & w3 & E3 & Hc3 & Hl3 & Ht3 & H3).
  rewrite E3. clear E3. rewrite Hc2 in Hc3.
  destruct (run_then _ _ _ _ (run_dispatch_batch BatchEnd e (b + 1) w3 Hc3 H3))
    as ([] & w4 & E4 & Hc4 & Hl4 & Ht4 & H4). rewrite E4. clear E4.
  rewrite Hc3 in Hc4.
  destruct (run_then _ _ _ _ (run_quit e (b + 1) w4 Hc4 H4))
    as (q & w5 & E5 & Hc5 & Hl5 & Ht5 & Hq & H5). rewrite E5. clear E5.
  rewrite Hc4 in Hc5. subst q.
  erewrite HyperParametersProps.bind_run by (by eapply read_subdivisions).
  exists w5. split_and!; try congruence.
  rewrite Ht5, Ht4, Ht3, Ht2, Ht1. unfold completion.
  rewrite !app_nil_r, <- !app_assoc. reflexivity.
Qed.

Lemma finish_group len rest g :
  forall idx e b w,
  classes w = cs -> steady e b (this w) -> sub <> 0 -> g <> [] ->
  (forall k, 1 <= k < Z.of_nat (length g) -> (idx + k) mod sub <> 0) ->
  (idx + Z.of_nat (length g)) mod sub = 0 ->
  exists w1,
    classes w1 = cs /\ log w1 = log w
    /\ trace w1 = trace w ++ flat_map (mini (b + 1)) g ++ completion (b + 1)
    /\ steady e (b + 1) (this w1)
    /\ batch_loop uc len idx (g ++ rest) w =
       (if len - (idx + Z.of_nat (length g) - 1) <=? sub then ret Broke
        else batch_loop uc len (idx + Z.of_nat (length g)) rest) w1.
Proof.
  induction g as [|d g IH]; intros idx e b w Hcs Hst Hsub Hne Hmid Hend; [done|].
  destruct g as [|d' g].
  - simpl length in *. simpl app.
    destruct (completing_step len idx d rest e b w Hcs Hst Hsub Hend)
      as (w1 & Hc1 & Hl1 & Ht1 & H1 & E).
    exists w1. split_and!; try done.
    + rewrite Ht1. simpl flat_map. by rewrite app_nil_r.
    + rewrite E. cbn [length].
      replace (idx + Z.of_nat 1 - 1) with idx by lia.
      replace (idx + Z.of_nat 1) with (idx + 1) by lia. reflexivity.
  - assert (Hm1 : (idx + 1) mod sub <> 0).
    { apply Hmid. simpl length. lia. }
    change ((d :: d' :: g) ++ rest) with (d :: ((d' :: g) ++ rest)).
    destruct (partial_step len idx d ((d' :: g) ++ rest) e b w Hcs Hst Hsub Hm1)
      as (w1 & Hc1 & Hl1 & Ht1 & H1 & E). rewrite E. clear E.
    destruct (IH (idx + 1) e b w1 Hc1 H1 Hsub) as (w2 & Hc2 & Hl2 & Ht2 & H2 & E2).
    + done.
    + intros k Hk. replace (idx + 1 + k) with (idx + (k + 1)) by lia.
      apply Hmid. simpl length in *. lia.
    + replace (idx + 1 + Z.of_nat (length (d' :: g)))
        with (idx + Z.of_nat (length (d :: d' :: g))) by (simpl length; lia).
      exact Hend.
    + exists w2. split_and!; try congruence.
      * rewrite Ht2, Ht1. change (flat_map (mini (b + 1)) (d :: d' :: g))
          with (mini (b + 1) d ++ flat_map (mini (b + 1)) (d' :: g)).
        by rewrite <- !app_assoc.
      * rewrite E2.
        replace (idx + 1 + Z.of_nat (length (d' :: g)))
          with (idx + Z.of_nat (length (d :: d' :: g))) by (simpl length; lia).
        reflexivity.
Qed.

Lemma mini_projections b g :
  trains (flat_map (mini b) g) = 0%nat
  /\ processed (flat_map (mini b) g) = g
  /\ dispatched BatchStart (flat_map (mini b) g) = repeat (VInt b) (length g)
  /\ dispatched BatchEnd (flat_map (mini b) g) = []
  /\ forall fn, calls fn (flat_map (mini b) g)
                = (length g * calls fn (fired b (tab BatchStart)))%nat.
Proof.
  destruct (fired_only b (tab BatchStart)) as (F1 & F2 & F3).
  induction g as [|d g (IH1 & IH2 & IH3 & IH4 & IH5)]; [done|].
  cbn [flat_map]. unfold Engine.mini at 1 3 5 7 9.
  change (?x :: ?l ++ ?r) with ([x] ++ l ++ r).
  split_and!.
  - rewrite !trains_app, F1, IH1. reflexivity.
  - rewrite !processed_app, F2, IH2. reflexivity.
  - rewrite !dispatched_app, F3, IH3. reflexivity.
  - rewrite !dispatched_app, F3, IH4. reflexivity.
  - intros fn. rewrite !calls_app, IH5. cbn [length]. unfold calls at 1 3. simpl. lia.
Qed.

Lemma completion_projections b :
  trains (completion b) = 1%nat
  /\ processed (completion b) = []
  /\ dispatched BatchStart (completion b) = []
  /\ dispatched BatchEnd (completion b) = [VInt b].
Proof.
  destruct (fired_only b (tab BatchEnd)) as (F1 & F2 & F3).
  unfold Engine.completion. split_and!.
  - rewrite !trains_app, F1. reflexivity.
  - rewrite !processed_app, F2. reflexivity.
  - rewrite !dispatched_app, F3. reflexivity.
  - rewrite !dispatched_app, F3. reflexivity.
Qed.

(** An accumulation group that starts at a multiple of
    [batch_subdivisions]. *)
Lemma group_run len idx g rest e b w :
  classes w = cs -> steady e b (this w) ->
  0 < sub -> idx mod sub = 0 -> Z.of_nat (length g) = sub ->
  exists w1,
    classes w1 = cs /\ log w1 = log w
    /\ trace w1 = trace w ++ group (b + 1) g
    /\ steady e (b + 1) (this w1)
    /\ batch_loop uc len idx (g ++ rest) w =
       (if len - (idx + sub - 1) <=? sub then ret Broke
        else batch_loop uc len (idx + sub) rest) w1.
Proof.
  intros Hcs Hst Hsub Hidx Hlen.
  destruct (finish_group len rest g idx e b w Hcs Hst) as (w1 & Hc1 & Hl1 & Ht1 & H1 & E).
  - lia.
  - intros ->. simpl in Hlen. lia.
  - intros k Hk. rewrite Z.add_mod, Hidx, Z.add_0_l, Z.mod_mod by lia.
    rewrite Z.mod_small by lia. lia.
  - rewrite Hlen, Z.add_mod, Hidx, Z.add_0_l, Z.mod_mod, Z.mod_same by lia. reflexivity.
  - rewrite Hlen in E. exists w1. done.
Qed.

(** C10: within one accumulation group the batch-start tables are
    dispatched once for each mini-batch of the group, that is
    [batch_subdivisions] times, every time with the same counter value
    [b + 1] (the counter is put back after each mini-batch that does not
    complete the group), so a hook registered under an interval that divides
    [b + 1] is called at least [batch_subdivisions] times for this one
    value; the group ends with one call of [train_batch]. *)
Theorem batch_start_dispatch_repeats len idx g rest e b w :
  classes w = cs -> steady e b (this w) ->
  0 < sub -> idx mod sub = 0 -> Z.of_nat (length g) = sub ->
  exists w1 evs,
    batch_loop uc len idx (g ++ rest) w =
      (if len - (idx + sub - 1) <=? sub then ret Broke
       else batch_loop uc len (idx + sub) rest) w1
    /\ trace w1 = trace w ++ evs
    /\ evs = group (b + 1) g
    /\ dispatched BatchStart evs = repeat (VInt (b + 1)) (length g)
    /\ trains evs = 1%nat
    /\ processed evs = g
    /\ (forall k fn, registered (tab BatchStart) k fn -> (b + 1) mod k = 0 ->
          (length g <= calls fn evs)%nat)
    /\ steady e (b + 1) (this w1).
Proof.
  intros Hcs Hst Hsub Hidx Hlen.
  destruct (group_run len idx g rest e b w Hcs Hst Hsub Hidx Hlen)
    as (w1 & Hc1 & Hl1 & Ht1 & H1 & E).
  destruct (mini_projections (b + 1) g) as (M1 & M2 & M3 & M4 & M5).
  destruct (completion_projections (b + 1)) as (C1 & C2 & C3 & C4).
  exists w1, (flat_map (mini (b + 1)) g ++ completion (b + 1)).
  split_and!; try done.
  - rewrite dispatched_app, M3, C3. by rewrite app_nil_r.
  - rewrite trains_app, M1, C1. reflexivity.
  - rewrite processed_app, M2, C2. by rewrite app_nil_r.
  - intros k fn Hreg Hmod. rewrite calls_app, M5.
    pose proof (calls_registered _ _ _ _ Hreg Hmod). nia.
Qed.

(** One turn of the cycle around a loop over the loader that ends without
    returning. *)
Lemma epoch_run e b b' w ex loop_evs :
  classes w = cs -> steady e b (this w) -> ex <> Returned ->
  (forall w0, classes w0 = cs -> steady (e + 1) b (this w0) ->
     exists w1, batch_loop uc (Z.of_nat (length loader)) 0 loader w0 = (Ok ex, w1)
       /\ classes w1 = cs /\ log w1 = log w0
       /\ trace w1 = trace w0 ++ loop_evs /\ steady (e + 1) b' (this w1)) ->
  exists w2,
    epoch uc w = (Ok false, w2) /\ classes w2 = cs /\ log w2 = log w
    /\ trace w2 = trace w ++ epoch_trace (e + 1) loop_evs
    /\ steady (e + 1) b' (this w2).
Proof.
  intros Hcs Hst Hex Hloop. unfold epoch.
  destruct (run_then _ _ _ _ (run_add_epoch 1 e b w Hcs Hst))
    as ([] & w1 & E1 & Hc1 & Hl1 & Ht1 & H1). rewrite E1. clear E1.
  rewrite Hcs in Hc1.
  destruct (run_then _ _ _ _ (run_dispatch_epoch EpochStart (e + 1) b w1 Hc1 H1))
    as ([] & w2 & E2 & Hc2 & Hl2 & Ht2 & H2). rewrite E2. clear E2.
  rewrite Hc1 in Hc2.
  erewrite HyperParametersProps.bind_run by (apply read_native; apply (st_loader _ _ _ H2)).
  erewrite HyperParametersProps.bind_run by reflexivity.
  destruct (Hloop w2 Hc2 H2) as (w3 & E3 & Hc3 & Hl3 & Ht3 & H3).
  erewrite HyperParametersProps.bind_run by exact E3.
  assert (Hrest : exists w4,
    (dispatch uc "epoch" EpochEnd ;;
     do q <- quit_or_sigint uc; if q then quitting ;; ret true else ret false) w3
      = (Ok false, w4) /\ classes w4 = cs /\ log w4 = log w3
    /\ trace w4 = trace w3 ++ (EvDispatch EpochEnd (VInt (e + 1)) :: fired (e + 1) (tab EpochEnd)) ++ [EvQuit]
    /\ steady (e + 1) b' (this w4)).
  { destruct (run_then _ _ _ _ (run_dispatch_epoch EpochEnd (e + 1) b' w3 Hc3 H3))
      as ([] & w4 & E4 & Hc4 & Hl4 & Ht4 & H4). rewrite E4. clear E4.
    rewrite Hc3 in Hc4.
    destruct (run_then _ _ _ _ (run_quit (e + 1) b' w4 Hc4 H4))
      as (q & w5 & E5 & Hc5 & Hl5 & Ht5 & Hq & H5). rewrite E5. clear E5.
    subst q. exists w5. split_and!; [reflexivity | congruence | congruence | | exact H5].
    rewrite Ht5, Ht4. by rewrite <- app_assoc. }
  destruct Hrest as (w4 & E4 & Hc4 & Hl4 & Ht4 & H4).
  exists w4. split_and!; try congruence.
  - destruct ex; try done.
  - rewrite Ht4, Ht3, Ht2, Ht1. unfold Engine.epoch_trace.
    rewrite app_nil_r, <- !app_assoc. reflexivity.
Qed.

Lemma group_projections b g :
  trains (group b g) = 1%nat
  /\ processed (group b g) = g
  /\ dispatched BatchStart (group b g) = repeat (VInt b) (length g)
  /\ dispatched BatchEnd (group b g) = [VInt b].
Proof.
  destruct (mini_projections b g) as (M1 & M2 & M3 & M4 & M5).
  destruct (completion_projections b) as (C1 & C2 & C3 & C4).
  unfold Engine.group. split_and!.
  - rewrite trains_app, M1, C1. reflexivity.
  - rewrite processed_app, M2, C2. by rewrite app_nil_r.
  - rewrite dispatched_app, M3, C3. by rewrite app_nil_r.
  - rewrite dispatched_app, M4, C4. reflexivity.
Qed.

Lemma epoch_projections e evs :
  trains (epoch_trace e evs) = trains evs
  /\ processed (epoch_trace e evs) = processed evs
  /\ dispatched BatchStart (epoch_trace e evs) = dispatched BatchStart evs
  /\ dispatched BatchEnd (epoch_trace e evs) = dispatched BatchEnd evs.
Proof.
  destruct (fired_only e (tab EpochStart)) as (F1 & F2 & F3).
  destruct (fired_only e (tab EpochEnd)) as (G1 & G2 & G3).
  unfold Engine.epoch_trace.
  change (?x :: fired e ?t) with ([x] ++ fired e t).
  split_and!.
  - rewrite !trains_app, F1, G1. change (trains [EvQuit]) with 0%nat. simpl. lia.
  - rewrite !processed_app, F2, G2. simpl. by rewrite app_nil_r.
  - rewrite !dispatched_app, F3, G3. simpl. by rewrite app_nil_r.
  - rewrite !dispatched_app, F3, G3. simpl. by rewrite app_nil_r.
Qed.


(** ** Any loader and any number of subdivisions *)

Local Abbreviation groups_trace := (Engine.groups_trace tab).

(** A loader, or what is left of it, that holds [n + 1] whole accumulation
    batches and [r] more mini-batches: the loop is left by the [break] after
    the last whole batch, and the [r] mini-batches are not run. *)
Lemma loop_whole_batches len n :
  forall items idx r e b w,
  classes w = cs -> steady e b (this w) ->
  0 < sub -> idx mod sub = 0 -> 0 <= r < sub ->
  Z.of_nat (length items) = Z.of_nat (S n) * sub + r ->
  len = idx + Z.of_nat (length items) ->
  exists w',
    batch_loop uc len idx items w = (Ok Broke, w')
    /\ classes w' = cs /\ log w' = log w
    /\ trace w' = trace w ++ groups_trace (S n) (Z.to_nat sub) b items
    /\ steady e (b + Z.of_nat (S n)) (this w').
Proof.
  induction n as [|n IH]; intros items idx r e b w Hcs Hst Hsub Hidx Hr Hlen Htot.
  - assert (Hg : Z.of_nat (length (take (Z.to_nat sub) items)) = sub).
    { rewrite length_take. lia. }
    destruct (group_run len idx (take (Z.to_nat sub) items) (drop (Z.to_nat sub) items)
                e b w Hcs Hst Hsub Hidx Hg) as (w1 & Hc1 & Hl1 & Ht1 & H1 & E).
    rewrite take_drop in E. rewrite E.
    destruct (len - (idx + sub - 1) <=? sub) eqn:Eb; [|lia].
    exists w1. do 3 (split; [done|]). split.
    + rewrite Ht1. cbn [Engine.groups_trace]. by rewrite app_nil_r.
    + replace (b + Z.of_nat 1) with (b + 1) by lia. exact H1.
  - assert (Hg : Z.of_nat (length (take (Z.to_nat sub) items)) = sub).
    { rewrite length_take. nia. }
    destruct (group_run len idx (take (Z.to_nat sub) items) (drop (Z.to_nat sub) items)
                e b w Hcs Hst Hsub Hidx Hg) as (w1 & Hc1 & Hl1 & Ht1 & H1 & E).
    rewrite take_drop in E. rewrite E.
    destruct (len - (idx + sub - 1) <=? sub) eqn:Eb; [nia|].
    destruct (IH (drop (Z.to_nat sub) items) (idx + sub) r e (b + 1) w1 Hc1 H1 Hsub)
      as (w2 & E2 & Hc2 & Hl2 & Ht2 & H2).
    + rewrite Z.add_mod, Hidx, Z.mod_same by lia. reflexivity.
    + exact Hr.
    + rewrite length_drop. nia.
    + rewrite length_drop. nia.
    + exists w2. do 3 (split; [congruence|]). split.
      * rewrite Ht2, Ht1. cbn [Engine.groups_trace]. by rewrite <- app_assoc.
      * replace (b + Z.of_nat (S (S n))) with (b + 1 + Z.of_nat (S n)) by lia. exact H2.
Qed.

(** Fewer mini-batches than one accumulation batch takes: each is run with
    the counter put back, nothing is trained, and the loader is exhausted. *)
Lemma loop_incomplete len :
  forall items idx e b w,
  classes w = cs -> steady e b (this w) -> sub <> 0 ->
  (forall k, 1 <= k <= Z.of_nat (length items) -> (idx + k) mod sub <> 0) ->
  exists w',
    batch_loop uc len idx items w = (Ok Exhausted, w')
    /\ classes w' = cs /\ log w' = log w
    /\ trace w' = trace w ++ flat_map (mini (b + 1)) items
    /\ steady e b (this w').
Proof.
  induction items as [|d items IH]; intros idx e b w Hcs Hst Hsub Hmid.
  - exists w. do 3 (split; [done|]). split; [by rewrite app_nil_r | done].
  - destruct (partial_step len idx d items e b w Hcs Hst Hsub) as (w1 & Hc1 & Hl1 & Ht1 & H1 & E).
    { apply Hmid. cbn [length]. lia. }
    destruct (IH (idx + 1) e b w1 Hc1 H1 Hsub) as (w2 & E2 & Hc2 & Hl2 & Ht2 & H2).
    { intros k Hk. replace (idx + 1 + k) with (idx + (k + 1)) by lia.
      apply Hmid. cbn [length]. lia. }
    exists w2. do 3 (split; [congruence|]). split; [|done].
    rewrite Ht2, Ht1. cbn [flat_map]. by rewrite <- app_assoc.
Qed.

Lemma groups_projections n size :
  forall b items, (n * size <= length items)%nat ->
  trains (groups_trace n size b items) = n
  /\ processed (groups_trace n size b items) = take (n * size) items.
Proof.
  induction n as [|n IH]; intros b items Hlen; [done|].
  cbn [Engine.groups_trace].
  destruct (group_projections (b + 1) (take size items)) as (G1 & G2 & _).
  destruct (IH (b + 1) (drop size items)) as (I1 & I2).
  { rewrite length_drop. lia. }
  rewrite trains_app, processed_app, G1, G2, I1, I2. split; [done|].
  rewrite take_take_drop. f_equal; lia.
Qed.

(** One epoch over any loader: [train_batch] is called once for each whole
    accumulation batch the loader holds, that is [N / batch_subdivisions]
    times, and the mini-batches behind the last whole batch are not run,
    unless the loader holds no whole batch at all. *)
Lemma epoch_trains_whole_batches e b w :
  classes w = cs -> steady e b (this w) -> 0 < sub ->
  let N := Z.of_nat (length loader) in
  exists w' evs,
    epoch uc w = (Ok false, w')
    /\ trace w' = trace w ++ evs
    /\ trains evs = Z.to_nat (N / sub)
    /\ processed evs = if N <? sub then loader
                       else take (Z.to_nat (N / sub * sub)) loader.
Proof.
  intros Hcs Hst Hsub N.
  pose proof (Z.div_mod N sub ltac:(lia)) as Hdm.
  pose proof (Z.mod_pos_bound N sub Hsub) as Hmod.
  assert (Hq : 0 <= N / sub) by (apply Z.div_pos; lia).
  destruct (N <? sub) eqn:Elt.
  - apply Z.ltb_lt in Elt.
    destruct (epoch_run e b b w Exhausted (flat_map (mini (b + 1)) loader) Hcs Hst)
      as (w2 & E & _ & _ & Ht & _); [done| |].
    + intros w0 Hc0 H0.
      destruct (loop_incomplete N loader 0 (e + 1) b w0 Hc0 H0) as (w1 & E1 & ?); [lia| |].
      * intros k Hk. rewrite Z.add_0_l, Z.mod_small by lia. lia.
      * exists w1. split; [exact E1 | assumption].
    + exists w2, (epoch_trace (e + 1) (flat_map (mini (b + 1)) loader)).
      destruct (epoch_projections (e + 1) (flat_map (mini (b + 1)) loader)) as (P1 & P2 & _).
      destruct (mini_projections (b + 1) loader) as (M1 & M2 & _).
      split_and!; [done | done | |].
      * rewrite P1, M1, Z.div_small by lia. reflexivity.
      * by rewrite P2, M2.
  - apply Z.ltb_ge in Elt.
    assert (Hq1 : 1 <= N / sub).
    { apply Z.div_le_lower_bound; lia. }
    set (n := Z.to_nat (N / sub - 1)).
    assert (Hn : Z.of_nat (S n) = N / sub) by (unfold n; lia).
    destruct (epoch_run e b (b + Z.of_nat (S n)) w Broke
                (groups_trace (S n) (Z.to_nat sub) b loader) Hcs Hst)
      as (w2 & E & _ & _ & Ht & _); [done| |].
    + intros w0 Hc0 H0.
      destruct (loop_whole_batches N n loader 0 (N mod sub) (e + 1) b w0 Hc0 H0)
        as (w1 & E1 & ?); try done; try lia.
      exists w1. split; [exact E1 | assumption].
    + exists w2, (epoch_trace (e + 1) (groups_trace (S n) (Z.to_nat sub) b loader)).
      destruct (epoch_projections (e + 1) (groups_trace (S n) (Z.to_nat sub) b loader))
        as (P1 & P2 & _).
      destruct (groups_projections (S n) (Z.to_nat sub) b loader) as (G1 & G2).
      { unfold N in *. nia. }
      split_and!; [done | done | |].
      * rewrite P1, G1. lia.
      * rewrite P2, G2. f_equal. nia.
Qed.

End Steady.


(** ** An epoch over ten mini-batches with two subdivisions *)

Section TenMiniBatches.
Variable uc : UserCode.
Variable cs : gmap string ClassDef.
Variable c : string.
Variable tab : Table -> HookTable.
Variables d0 d1 d2 d3 d4 d5 d6 d7 d8 d9 : Value.

Local Abbreviation loader := [d0; d1; d2; d3; d4; d5; d6; d7; d8; d9].
Local Abbreviation group := (Engine.group tab).

Hypothesis Hstatic : static cs c 4 tab.
Hypothesis Hstable : stable uc c 8 4 loader.

Lemma loop_of_ten e b w :
  classes w = cs -> steady c 8 4 loader e b (this w) ->
  exists w5,
    batch_loop uc 10 0 loader w = (Ok Broke, w5)
    /\ classes w5 = cs /\ log w5 = log w
    /\ trace w5 = trace w ++ pairs_trace tab b loader
    /\ steady c 8 4 loader e (b + 5) (this w5).
Proof.
  intros Hcs Hst.
  destruct (group_run uc cs c 8 4 loader tab Hstatic Hstable 10 0 [d0; d1]
              [d2; d3; d4; d5; d6; d7; d8; d9] e b w Hcs Hst eq_refl eq_refl eq_refl)
    as (w1 & Hc1 & Hl1 & Ht1 & H1 & E1).
  destruct (group_run uc cs c 8 4 loader tab Hstatic Hstable 10 2 [d2; d3]
              [d4; d5; d6; d7; d8; d9] e (b + 1) w1 Hc1 H1 eq_refl eq_refl eq_refl)
    as (w2 & Hc2 & Hl2 & Ht2 & H2 & E2).
  destruct (group_run uc cs c 8 4 loader tab Hstatic Hstable 10 4 [d4; d5]
              [d6; d7; d8; d9] e (b + 1 + 1) w2 Hc2 H2 eq_refl eq_refl eq_refl)
    as (w3 & Hc3 & Hl3 & Ht3 & H3 & E3).
  destruct (group_run uc cs c 8 4 loader tab Hstatic Hstable 10 6 [d6; d7]
              [d8; d9] e (b + 1 + 1 + 1) w3 Hc3 H3 eq_refl eq_refl eq_refl)
    as (w4 & Hc4 & Hl4 & Ht4 & H4 & E4).
  destruct (group_run uc cs c 8 4 loader tab Hstatic Hstable 10 8 [d8; d9]
              [] e (b + 1 + 1 + 1 + 1) w4 Hc4 H4 eq_refl eq_refl eq_refl)
    as (w5 & Hc5 & Hl5 & Ht5 & H5 & E5).
  exists w5. split_and!; try congruence.
  - etransitivity; [exact E1|]. etransitivity; [exact E2|].
    etransitivity; [exact E3|]. etransitivity; [exact E4|]. exact E5.
  - rewrite Ht5, Ht4, Ht3, Ht2, Ht1. cbn [pairs_trace].
    rewrite app_nil_r, <- !app_assoc. reflexivity.
  - replace (b + 5) with (b + 1 + 1 + 1 + 1 + 1) by lia. exact H5.
Qed.

Lemma ten_projections b :
  trains (pairs_trace tab b loader) = 5%nat
  /\ processed (pairs_trace tab b loader) = loader
  /\ dispatched BatchStart (pairs_trace tab b loader)
     = [VInt (b + 1); VInt (b + 1); VInt (b + 2); VInt (b + 2); VInt (b + 3);
        VInt (b + 3); VInt (b + 4); VInt (b + 4); VInt (b + 5); VInt (b + 5)]
  /\ dispatched BatchEnd (pairs_trace tab b loader)
     = [VInt (b + 1); VInt (b + 2); VInt (b + 3); VInt (b + 4); VInt (b + 5)].
Proof.
  cbn [pairs_trace].
  replace (b + 1 + 1 + 1 + 1 + 1) with (b + 5) by lia.
  replace (b + 1 + 1 + 1 + 1) with (b + 4) by lia.
  replace (b + 1 + 1 + 1) with (b + 3) by lia.
  replace (b + 1 + 1) with (b + 2) by lia.
  destruct (group_projections tab (b + 1) [d0; d1]) as (A1 & A2 & A3 & A4).
  destruct (group_projections tab (b + 2) [d2; d3]) as (B1 & B2 & B3 & B4).
  destruct (group_projections tab (b + 3) [d4; d5]) as (C1 & C2 & C3 & C4).
  destruct (group_projections tab (b + 4) [d6; d7]) as (D1 & D2 & D3 & D4).
  destruct (group_projections tab (b + 5) [d8; d9]) as (E1 & E2 & E3 & E4).
  split_and!.
  - rewrite !trains_app, A1, B1, C1, D1, E1. reflexivity.
  - rewrite !processed_app, A2, B2, C2, D2, E2. reflexivity.
  - rewrite !dispatched_app, A3, B3, C3, D3, E3. reflexivity.
  - rewrite !dispatched_app, A4, B4, C4, D4, E4. reflexivity.
Qed.

(** C1, as the code has it: with [batch_size=8] and [mini_batch_size=4]
    one epoch over a loader of ten mini-batches completes five accumulation
    batches (mini-batches 0-1, 2-3, 4-5, 6-7 and 8-9), calls [train_batch]
    five times and processes all ten mini-batches; the loop is left by the
    [break] only after the fifth batch, when nothing is left to discard. *)
Theorem epoch_of_ten_mini_batches e b w :
  classes w = cs -> steady c 8 4 loader e b (this w) ->
  (exists w5, batch_loop uc 10 0 loader w = (Ok Broke, w5)
              /\ trace w5 = trace w ++ pairs_trace tab b loader)
  /\ exists w1 evs,
       epoch uc w = (Ok false, w1)
       /\ trace w1 = trace w ++ evs
       /\ evs = epoch_trace tab (e + 1) (pairs_trace tab b loader)
       /\ trains evs = 5%nat
       /\ processed evs = loader
       /\ dispatched BatchEnd evs
          = [VInt (b + 1); VInt (b + 2); VInt (b + 3); VInt (b + 4); VInt (b + 5)]
       /\ steady c 8 4 loader (e + 1) (b + 5) (this w1).
Proof.
  intros Hcs Hst. split.
  - destruct (loop_of_ten e b w Hcs Hst) as (w5 & E & _ & _ & Ht & _). eauto.
  - destruct (epoch_run uc cs c 8 4 loader tab Hstatic Hstable e b (b + 5) w Broke
                (pairs_trace tab b loader) Hcs Hst) as (w2 & E & Hc & Hl & Ht & H2).
    + done.
    + intros w0 Hc0 H0. destruct (loop_of_ten (e + 1) b w0 Hc0 H0) as (w5 & E5 & ?).
      exists w5. split; [exact E5 | assumption].
    + destruct (epoch_projections tab (e + 1) (pairs_trace tab b loader)) as (P1 & P2 & P3 & P4).
      destruct (ten_projections b) as (T1 & T2 & T3 & T4).
      exists w2, (epoch_trace tab (e + 1) (pairs_trace tab b loader)).
      split_and!; try done; congruence.
Qed.

End TenMiniBatches.

(** ** The concrete session *)

Lemma demo_static : static Demo.hooked_classes "Trainer" 4 Demo.tables.
Proof.
  split.
  - intros name [<-|[<-|[<-|[]]]]; reflexivity.
  - intros []; reflexivity.
  - intros []; repeat constructor; done.
  - done.
Qed.

Lemma demo_steady : steady "Trainer" 8 4 Demo.ten 0 0 (this Demo.trainer).
Proof.
  split; try reflexivity.
  - intros name [<-|[<-|[<-|[]]]]; reflexivity.
  - intros []; reflexivity.
Qed.

Lemma demo_stable : stable Demo.user_code "Trainer" 8 4 Demo.ten.
Proof.
  split; simpl; unfold default_start, default_quit; eauto.
  intros d e b i [].
  eexists. split; [reflexivity|].
  split; simpl; try done; try (rewrite lookup_insert_ne by done; assumption).
  - intros name [<-|[<-|[<-|[]]]]; rewrite lookup_insert_ne by done;
      apply st_free0; simpl; tauto.
  - intros t. rewrite lookup_insert_ne by (destruct t; done). apply st_tab0.
Qed.


(** The engine of the concrete session is the one [__init__] builds. *)
Lemma demo_new :
  new Demo.hooked_classes "Trainer" Demo.store (VList Demo.ten) [] = (Ok tt, Demo.trainer).
Proof. vm_compute. reflexivity. Qed.

Lemma demo_register :
  register BatchStart "Trainer" 2 Demo.show_rate Demo.two_classes = Ok Demo.hooked_classes.
Proof. vm_compute. reflexivity. Qed.

(** C1, against the claim as the specification states it: the epoch of the
    concrete session calls [train_batch] five times, not four, and the last
    two mini-batches are processed, not discarded. *)
Lemma four_batches_refuted :
  fst (epoch Demo.user_code Demo.trainer) = Ok false
  /\ trains Demo.epoch_events <> 4%nat
  /\ processed Demo.epoch_events
     <> [VInt 0; VInt 1; VInt 2; VInt 3; VInt 4; VInt 5; VInt 6; VInt 7]
  /\ In (EvProcess (VInt 8)) Demo.epoch_events
  /\ In (EvProcess (VInt 9)) Demo.epoch_events.
Proof.
  split_and!.
  - vm_compute. reflexivity.
  - vm_compute. discriminate.
  - vm_compute. discriminate.
  - vm_compute. tauto.
  - vm_compute. tauto.
Qed.

Lemma epoch_of_ten_mini_batches_witness :
  exists w1 evs,
    epoch Demo.user_code Demo.trainer = (Ok false, w1)
    /\ trace w1 = trace Demo.trainer ++ evs
    /\ trains evs = 5%nat
    /\ processed evs = Demo.ten.
Proof.
  destruct (epoch_of_ten_mini_batches Demo.user_code Demo.hooked_classes "Trainer"
              Demo.tables (VInt 0) (VInt 1) (VInt 2) (VInt 3) (VInt 4) (VInt 5) (VInt 6)
              (VInt 7) (VInt 8) (VInt 9) demo_static demo_stable 0 0 Demo.trainer
              eq_refl demo_steady)
    as [_ (w1 & evs & E & Ht & _ & Hn & Hp & _)].
  exists w1, evs. split_and!; assumption.
Defined.

Lemma batch_start_dispatch_repeats_witness :
  exists w1 evs,
    trace w1 = trace Demo.trainer ++ evs
    /\ dispatched BatchStart evs = [VInt 1; VInt 1]
    /\ trains evs = 1%nat.
Proof.
  destruct (batch_start_dispatch_repeats Demo.user_code Demo.hooked_classes "Trainer" 8 4
              Demo.ten Demo.tables demo_static demo_stable 10 0 [VInt 0; VInt 1]
              [VInt 2; VInt 3; VInt 4; VInt 5; VInt 6; VInt 7; VInt 8; VInt 9]
              0 0 Demo.trainer eq_refl demo_steady eq_refl eq_refl eq_refl)
    as (w1 & evs & _ & Ht & _ & Hd & Hn & _).
  exists w1, evs. split_and!; assumption.
Defined.

Lemma dispatch_calls_matching_intervals_witness :
  exists w',
    _run_hooks Demo.journalling (VInt 4)
      (add_hook 2 Demo.plot (add_hook 2 Demo.show_rate [(4, [Demo.backup]); (3, [Demo.backup])]))
      Demo.trainer
    = (Ok tt, w')
    /\ In (hook_event Demo.show_rate)
          (fired 4 (add_hook 2 Demo.plot
                      (add_hook 2 Demo.show_rate [(4, [Demo.backup]); (3, [Demo.backup])])))
    /\ dict (this w') !! "journal"
       = Some (VList [VStr "backup"; VStr "show_rate"; VStr "plot"]).
Proof.
  destruct (dispatch_calls_matching_intervals Demo.journalling
              [(4, [Demo.backup]); (3, [Demo.backup])] 2
              Demo.show_rate Demo.plot 4 Demo.trainer)
    as (w' & E & _ & _ & _ & Hf & _ & _ & _ & _ & _ & Hi & _).
  - intros fn i. eexists. reflexivity.
  - repeat constructor.
  - reflexivity.
  - intros k (fns & [Heq|[Heq|[]]] & Hin); inversion Heq; subst;
      destruct Hin as [H|[]]; discriminate.
  - intros k (fns & [Heq|[Heq|[]]] & Hin); inversion Heq; subst;
      destruct Hin as [H|[]]; discriminate.
  - exists w'. split; [exact E|]. split; [apply Hf; reflexivity|].
    rewrite Hi. vm_compute. reflexivity.
Defined.

(** C2, against the claim as the specification states it: a hook
    registered through [Trainer] is in the table of [Validator] as well. *)
Lemma other_subtype_changed :
  register BatchStart "Trainer" 2 Demo.show_rate Demo.two_classes = Ok Demo.hooked_classes
  /\ lookup_table Demo.two_classes "Validator" BatchStart = Some []
  /\ lookup_table Demo.hooked_classes "Validator" BatchStart = Some [(2, [Demo.show_rate])]
  /\ lookup_table Demo.hooked_classes "Validator" BatchStart
     <> lookup_table Demo.two_classes "Validator" BatchStart.
Proof.
  split_and!.
  - exact demo_register.
  - reflexivity.
  - reflexivity.
  - vm_compute. discriminate.
Qed.

Lemma register_shared_along_mro_witness :
  lookup_table Demo.hooked_classes "Validator" BatchStart
  = Some (add_hook 2 Demo.show_rate []).
Proof.
  destruct (register_shared_along_mro BatchStart "Trainer" 2 Demo.show_rate
              Demo.two_classes Demo.hooked_classes demo_register)
    as (table & Ht & _ & Hsame & _).
  assert (table = []) as -> by (vm_compute in Ht; congruence).
  apply Hsame. reflexivity.
Defined.

Lemma sigint_is_idempotent_witness :
  exists w1, signals 2 Demo.trainer = (Ok tt, w1) /\ notices (log w1) = 1%nat.
Proof.
  destruct (sigint_is_idempotent Demo.hooked_classes "Trainer" Demo.store (VList Demo.ten)
              [] Demo.trainer eq_refl demo_new) as (_ & _ & w1 & _ & _ & _ & Hn & _ & H2 & _).
  exists w1. split; assumption.
Defined.

Lemma read_falls_back_to_store_witness :
  read "batch_size" Demo.trainer = (Ok (VInt 8), Demo.trainer)
  /\ read "momentum" Demo.trainer = (Raise AttributeError, Demo.trainer).
Proof.
  split.
  - apply (read_falls_back_to_store Demo.trainer "batch_size" eq_refl eq_refl). reflexivity.
  - apply (read_falls_back_to_store Demo.trainer "momentum" eq_refl eq_refl); reflexivity.
Defined.

End EngineProps.

(** * Further properties of the container *)

Module HyperParametersLaws.
Import HyperParameters HyperParametersProps.

(** ** What construction touches *)

Lemma for_each_app {S A} (l1 l2 : list A) (body : A -> M S unit) s :
  for_each (l1 ++ l2) body s = (for_each l1 body ;; for_each l2 body) s.
Proof.
  revert s. induction l1 as [|x l1 IH]; intros s; [done|].
  cbn [app for_each]. unfold bind in *.
  destruct (body x s) as [[[]|e] s1]; [apply IH | done].
Qed.

Lemma frame_bind {A B} (c : M World A) (k : A -> M World B) :
  (forall w, heap (snd (c w)) = heap w /\ files (snd (c w)) = files w) ->
  (forall a w, heap (snd (k a w)) = heap w /\ files (snd (k a w)) = files w) ->
  forall w, heap (snd (bind c k w)) = heap w /\ files (snd (bind c k w)) = files w.
Proof.
  intros Hc Hk w. unfold bind. specialize (Hc w).
  destruct (c w) as [[a|e] w1]; [|exact Hc].
  destruct (Hk a w1) as [H1 H2]. simpl in Hc. destruct Hc as [H3 H4].
  split; congruence.
Qed.

Lemma assign_frame name v w :
  heap (snd (assign name v w)) = heap w /\ files (snd (assign name v w)) = files w.
Proof. unfold assign. by destruct (setattr (self w) name v). Qed.

Lemma read_no_serialize_frame w :
  heap (snd (read_no_serialize w)) = heap w /\ files (snd (read_no_serialize w)) = files w.
Proof. by rewrite read_no_serialize_self. Qed.

Lemma settle_frame key val w :
  heap (snd (settle key val w)) = heap w /\ files (snd (settle key val w)) = files w.
Proof.
  unfold settle. revert w. apply frame_bind; [done|]. intros h.
  destruct (negb h); [apply assign_frame|].
  apply frame_bind; [done|]. intros _.
  apply frame_bind; [apply read_no_serialize_frame|]. intros l.
  destruct (str_in key l); [apply assign_frame | done].
Qed.

Lemma init_kwarg_frame kv w :
  heap (snd (init_kwarg kv w)) = heap w /\ files (snd (init_kwarg kv w)) = files w.
Proof.
  rewrite init_kwarg_split.
  destruct (fst kv) as [|a rest]; [apply settle_frame|].
  destruct a as [[] [] [] [] [] [] [] []]; try apply settle_frame.
  revert w. apply frame_bind; [apply read_no_serialize_frame|]. intros l.
  apply frame_bind; [apply assign_frame|]. intros _. apply settle_frame.
Qed.

Lemma for_each_frame kwargs w :
  heap (snd (for_each kwargs init_kwarg w)) = heap w
  /\ files (snd (for_each kwargs init_kwarg w)) = files w.
Proof.
  revert w. induction kwargs as [|kv kwargs IH]; intros w; [done|].
  cbn [for_each]. revert w. apply frame_bind; [apply init_kwarg_frame|].
  intros _. exact IH.
Qed.

Lemma new_fields w network optimizers schedulers bs mbs kwargs w' :
  new w network optimizers schedulers bs mbs kwargs = (Ok tt, w') ->
  exists m,
    (forall name v, name <> no_serialize ->
       fields network optimizers schedulers bs m !! name = Some v ->
       self w' !! name = Some v)
    /\ match mbs with
       | None => m = bs
       | Some x => (bs < x /\ m = bs) \/ (x <= bs /\ x <> 0 /\ bs mod x = 0 /\ m = x)
       end
    /\ heap w' = heap w /\ files w' = files w.
Proof.
  intros H. destruct (new_inv _ _ _ _ _ _ _ _ H) as (Hk & m & E & Hm).
  exists m. split_and!; [|exact Hm| |].
  - intros name v Hne Hf.
    pose proof (for_each_keeps kwargs
      (mkWorld (fields network optimizers schedulers bs m) (heap w) (files w) (warnings w))
      name v Hne Hf) as Hs. by rewrite E in Hs.
  - pose proof (for_each_frame kwargs
      (mkWorld (fields network optimizers schedulers bs m) (heap w) (files w) (warnings w)))
      as [Hh _]. by rewrite E in Hh.
  - pose proof (for_each_frame kwargs
      (mkWorld (fields network optimizers schedulers bs m) (heap w) (files w) (warnings w)))
      as [_ Hf]. by rewrite E in Hf.
Qed.

(** X1: Whatever keyword arguments come with them, a successful construction
    leaves the model, the batch size and the two sequences as they were
    passed (a single optimizer or scheduler wrapped in a list), starts both
    counters at 0, settles the mini-batch size on the one given or on the
    batch size, and touches neither the torch objects nor the files. *)
Theorem construction_sets_fields w network optimizers schedulers bs mbs kwargs w' :
  new w network optimizers schedulers bs mbs kwargs = (Ok tt, w') ->
  self w' !! "network" = Some network
  /\ self w' !! "batch_size" = Some (VInt bs)
  /\ self w' !! "batch" = Some (VInt 0)
  /\ self w' !! "epoch" = Some (VInt 0)
  /\ self w' !! "optimizers" = Some (normalised optimizers)
  /\ self w' !! "schedulers" = Some (normalised schedulers)
  /\ (exists m, self w' !! "mini_batch_size" = Some (VInt m)
                /\ (m = bs \/ mbs = Some m))
  /\ heap w' = heap w /\ files w' = files w.
Proof.
  intros H. destruct (new_fields _ _ _ _ _ _ _ _ H) as (m & Hkeep & Hm & Hh & Hf).
  split_and!; try (apply Hkeep; done); try done.
  exists m. split; [by apply Hkeep|].
  destruct mbs as [x|]; [|by left].
  destruct Hm as [[_ ->]|(_ & _ & _ & ->)]; [by left | by right].
Qed.

(** X2: The [optimizer] and [scheduler] properties of a constructed store
    answer with the first element of the sequence as construction
    normalised it: the single object that was passed, the head of the list
    that was passed; they raise [IndexError] for an empty list and
    [TypeError] when the argument was left [None]. *)
Theorem optimizer_property_follows_argument
    w network optimizers schedulers bs mbs kwargs w' :
  new w network optimizers schedulers bs mbs kwargs = (Ok tt, w') ->
  getattr (self w') "optimizer" = subscript0 (normalised optimizers)
  /\ getattr (self w') "scheduler" = subscript0 (normalised schedulers)
  /\ (forall a, optimizers = VRef a -> getattr (self w') "optimizer" = Ok (VRef a))
  /\ (forall x l, optimizers = VList (x :: l) -> getattr (self w') "optimizer" = Ok x)
  /\ (optimizers = VList [] -> getattr (self w') "optimizer" = Raise IndexError)
  /\ (optimizers = VNone -> getattr (self w') "optimizer" = Raise TypeError).
Proof.
  intros H. destruct (new_keeps _ _ _ _ _ _ _ _ H) as (_ & Hopt & Hsch & _).
  assert (E1 : getattr (self w') "optimizer" = subscript0 (normalised optimizers)).
  { unfold getattr, inst_attr. cbn [String.eqb Ascii.eqb Bool.eqb]. by rewrite Hopt. }
  assert (E2 : getattr (self w') "scheduler" = subscript0 (normalised schedulers)).
  { unfold getattr, inst_attr. cbn [String.eqb Ascii.eqb Bool.eqb]. by rewrite Hsch. }
  split_and!; try done.
  - intros a ->. by rewrite E1.
  - intros x l ->. by rewrite E1.
  - intros ->. by rewrite E1.
  - intros ->. by rewrite E1.
Qed.

(** X3: For positive sizes a constructed store holds a mini-batch size that
    divides the batch size: [batch_subdivisions] is their exact quotient, at
    least 1, and 1 when no mini-batch size was given or the one given was
    larger than the batch size. *)
Theorem batch_subdivisions_is_exact
    w network optimizers schedulers bs mbs kwargs w' :
  0 < bs -> (forall x, mbs = Some x -> 0 < x) ->
  new w network optimizers schedulers bs mbs kwargs = (Ok tt, w') ->
  exists m,
    self w' !! "mini_batch_size" = Some (VInt m)
    /\ 0 < m <= bs /\ bs mod m = 0
    /\ getattr (self w') "batch_subdivisions" = Ok (VInt (bs / m))
    /\ 1 <= bs / m /\ bs / m * m = bs
    /\ (mbs = None \/ (exists x, mbs = Some x /\ bs < x) -> m = bs /\ bs / m = 1).
Proof.
  intros Hbs Hpos H. destruct (new_fields _ _ _ _ _ _ _ _ H) as (m & Hkeep & Hm & _).
  assert (Hmini : self w' !! "mini_batch_size" = Some (VInt m)) by (by apply Hkeep).
  assert (Hsize : self w' !! "batch_size" = Some (VInt bs)) by (by apply Hkeep).
  assert (Hrange : 0 < m <= bs /\ bs mod m = 0).
  { destruct mbs as [x|].
    - specialize (Hpos x eq_refl).
      destruct Hm as [[_ ->]|(? & _ & ? & ->)]; [|lia].
      split; [lia | apply Z.mod_same; lia].
    - subst m. split; [lia | apply Z.mod_same; lia]. }
  destruct Hrange as [Hr Hdiv].
  assert (Hq : bs / m * m = bs).
  { pose proof (Z.div_mod bs m ltac:(lia)). lia. }
  exists m. do 3 (split; [done|]). split; [|split; [|split; [done|]]].
  - apply EngineProps.getattr_subdivisions; [done | done | lia].
  - apply Z.div_le_lower_bound; lia.
  - intros Hcl.
    assert (m = bs) as ->.
    { destruct Hcl as [->|(x & -> & Hx)]; [done|]. destruct Hm as [[_ ?]|(? & _)]; [done | lia]. }
    split; [done | apply Z.div_same; lia].
Qed.

(** X4: A mini-batch size of 0 is not caught as a configuration error: for a
    batch size that is not negative the remainder is taken and construction
    fails with [ZeroDivisionError]. *)
Theorem zero_mini_batch_size_raises w network optimizers schedulers bs kwargs :
  0 <= bs ->
  existsb (fun kv => name_in (fst kv) parameter_names) kwargs = false ->
  fst (new w network optimizers schedulers bs (Some 0) kwargs) = Raise ZeroDivisionError.
Proof.
  intros Hbs Hk. rewrite new_call by exact Hk.
  unfold __init__.
  do 4 (erewrite bind_run by (apply assign_ok; reflexivity)).
  destruct (0 >? bs) eqn:E; [lia|].
  reflexivity.
Qed.

(** ** Keyword arguments *)

Lemma unprefixed_split key :
  prefixed key = false ->
  stripped key = key /\ forall val w, init_kwarg (key, val) w = settle key val w.
Proof.
  intros Hp. destruct key as [|a rest]; [split; [done|]; intros; by rewrite init_kwarg_split|].
  destruct a as [[] [] [] [] [] [] [] []]; try discriminate Hp;
    (split; [done|]; intros; by rewrite init_kwarg_split).
Qed.

Lemma prefixed_split key :
  prefixed key = true ->
  key = String "_"%char (stripped key).
Proof.
  destruct key as [|a rest]; [done|].
  destruct a as [[] [] [] [] [] [] [] []]; try done.
Qed.

Lemma hasattr_false_absent s name :
  name_in name property_names = false -> hasattr s name = Ok false -> s !! name = None.
Proof.
  intros Hp. rewrite hasattr_plain by done. unfold inst_attr.
  by destruct (s !! name).
Qed.

Lemma settle_new key val w :
  name_in key property_names = false -> hasattr (self w) key = Ok false ->
  settle key val w
  = (Ok tt, mkWorld (<[key := val]> (self w)) (heap w) (files w) (warnings w)).
Proof.
  intros Hp Hh. unfold settle.
  erewrite bind_run by (rewrite has_spec, Hh; reflexivity).
  cbn [negb]. by apply assign_ok.
Qed.

Lemma excluded_insert_other s k v n :
  k <> no_serialize -> excluded (<[k := v]> s) n = excluded s n.
Proof. intros Hk. unfold excluded. by rewrite lookup_insert_ne. Qed.

(** X5: A keyword argument whose name, without the exclusion prefix, is not yet
    an attribute of the store is stored under that name with its value; it
    is marked as excluded from [save] exactly when the keyword carried the
    prefix; no other field, no other exclusion mark, no torch object and no
    file changes, and nothing is logged. *)
Theorem kwarg_is_stored_under_stripped_name key val w ns :
  self w !! no_serialize = Some (VList ns) ->
  name_in (stripped key) property_names = false ->
  hasattr (self w) (stripped key) = Ok false ->
  exists w',
    init_kwarg (key, val) w = (Ok tt, w')
    /\ self w' !! stripped key = Some val
    /\ excluded (self w') (stripped key)
       = prefixed key || excluded (self w) (stripped key)
    /\ (forall n, n <> stripped key -> excluded (self w') n = excluded (self w) n)
    /\ (forall k, k <> stripped key -> k <> no_serialize -> self w' !! k = self w !! k)
    /\ heap w' = heap w /\ files w' = files w /\ warnings w' = warnings w.
Proof.
  intros Hns Hp Hh.
  pose proof (hasattr_false_absent _ _ Hp Hh) as Habs.
  assert (Hne : stripped key <> no_serialize) by (intros E; rewrite E in Habs; congruence).
  destruct (prefixed key) eqn:Epre.
  - pose proof (prefixed_split key Epre) as Ekey.
    set (rest := stripped key) in *. rewrite Ekey.
    set (w1 := mkWorld (<[no_serialize := VList (ns ++ [VStr rest])]> (self w))
                 (heap w) (files w) (warnings w)).
    assert (Hh1 : hasattr (self w1) rest = Ok false).
    { rewrite hasattr_plain in * by done. unfold inst_attr in *. cbn [self w1].
      by rewrite lookup_insert_ne. }
    exists (mkWorld (<[rest := val]> (self w1)) (heap w) (files w) (warnings w)).
    split_and!; try done.
    + rewrite init_kwarg_split. cbn [fst snd].
      erewrite bind_run by (by apply read_no_serialize_ok).
      erewrite bind_run by (apply assign_ok; reflexivity).
      fold w1. by rewrite settle_new.
    + cbn [self]. by rewrite lookup_insert_eq.
    + cbn [self orb]. rewrite excluded_insert_other by done.
      unfold excluded. cbn [self w1]. rewrite lookup_insert_eq.
      rewrite str_in_app. cbn [str_in existsb]. rewrite is_str_refl.
      by rewrite orb_true_r.
    + intros n Hn. cbn [self]. rewrite excluded_insert_other by done.
      unfold excluded. cbn [self w1]. rewrite lookup_insert_eq, Hns.
      rewrite str_in_app. cbn [str_in existsb is_str].
      destruct (String.eqb rest n) eqn:E; [apply String.eqb_eq in E; congruence|].
      by rewrite !orb_false_r.
    + intros k Hk Hk'. cbn [self w1]. by rewrite !lookup_insert_ne.
  - destruct (unprefixed_split key Epre) as [Es Ei].
    rewrite Es in *. rewrite Ei, settle_new by done.
    eexists. split; [reflexivity|]. cbn [self heap files warnings orb].
    split_and!; try done.
    + by rewrite lookup_insert_eq.
    + by rewrite excluded_insert_other.
    + intros n _. by rewrite excluded_insert_other.
    + intros k Hk _. by rewrite lookup_insert_ne.
Qed.

Lemma new_reaches_kwargs w network optimizers schedulers bs mbs kwargs w' more :
  new w network optimizers schedulers bs mbs kwargs = (Ok tt, w') ->
  existsb (fun kv => name_in (fst kv) parameter_names) more = false ->
  new w network optimizers schedulers bs mbs (kwargs ++ more)
  = for_each more init_kwarg w'.
Proof.
  intros H Hmore. destruct (new_inv _ _ _ _ _ _ _ _ H) as (Hk & m & E & Hm).
  rewrite new_call by (by rewrite existsb_app, Hk, Hmore).
  rewrite (init_settled _ _ _ _ _ m) by exact Hm.
  rewrite for_each_app. by erewrite bind_run by exact E.
Qed.

(** X6: The keyword loop asks [hasattr] for every key, and [hasattr] runs the
    getter of a property: on a store built without optimizers a keyword
    named [optimizer] or [_optimizer], after keyword arguments that were
    accepted, makes construction fail with [TypeError]; the same holds for
    [scheduler] without schedulers. *)
Theorem property_keyword_raises_type_error
    w network optimizers schedulers bs mbs kwargs w' key val more :
  new w network optimizers schedulers bs mbs kwargs = (Ok tt, w') ->
  existsb (fun kv => name_in (fst kv) parameter_names) more = false ->
  (optimizers = VNone /\ stripped key = "optimizer")
  \/ (schedulers = VNone /\ stripped key = "scheduler") ->
  fst (new w network optimizers schedulers bs mbs (kwargs ++ (key, val) :: more))
  = Raise TypeError.
Proof.
  intros H Hmore Hcase.
  assert (Hkey : name_in key parameter_names = false).
  { destruct (prefixed key) eqn:Ep.
    - rewrite (prefixed_split key Ep). by destruct Hcase as [[_ ->]|[_ ->]].
    - destruct (unprefixed_split key Ep) as [Es _]. rewrite Es in Hcase.
      by destruct Hcase as [[_ ->]|[_ ->]]. }
  rewrite (new_reaches_kwargs _ _ _ _ _ _ _ w') by (cbn [existsb fst]; by rewrite ?Hkey, ?Hmore).
  destruct (new_keeps _ _ _ _ _ _ _ _ H) as (_ & Hopt & Hsch & _).
  destruct (new_store_ok _ _ _ _ _ _ _ _ H) as [(ns & Hns & _) _].
  assert (Hraise : forall s, s !! "optimizers" = self w' !! "optimizers" ->
                             s !! "schedulers" = self w' !! "schedulers" ->
                             hasattr s (stripped key) = Raise TypeError).
  { intros s Ho Hs. unfold hasattr, getattr, inst_attr.
    destruct Hcase as [[-> ->]|[-> ->]]; cbn [String.eqb Ascii.eqb Bool.eqb].
    - by rewrite Ho, Hopt.
    - by rewrite Hs, Hsch. }
  assert (Hsettle : forall w1, self w1 !! "optimizers" = self w' !! "optimizers" ->
                               self w1 !! "schedulers" = self w' !! "schedulers" ->
                               fst (settle (stripped key) val w1) = Raise TypeError).
  { intros w1 Ho Hs. unfold settle.
    erewrite bind_raise by (rewrite has_spec, (Hraise _ Ho Hs); reflexivity). done. }
  cbn [for_each]. unfold bind at 1.
  assert (E : fst (init_kwarg (key, val) w') = Raise TypeError).
  { destruct (prefixed key) eqn:Ep.
    - rewrite (prefixed_split key Ep) at 1. rewrite init_kwarg_split. cbn [fst snd].
      erewrite bind_run by (by apply read_no_serialize_ok).
      erewrite bind_run by (apply assign_ok; reflexivity).
      apply Hsettle; cbn [self]; by rewrite lookup_insert_ne.
    - destruct (unprefixed_split key Ep) as [Es Ei]. rewrite Ei, <- Es. by apply Hsettle. }
  destruct (init_kwarg (key, val) w') as [[[]|e] w1]; simpl in E; [done | by injection E as ->].
Qed.

(** ** Saving *)

Section Saving.
Context `{TorchAPI}.

Lemma serializable_self w : snd (serializable w) = w.
Proof.
  unfold serializable, bind, get, read, lift, ret.
  destruct (map_to_list (self w)); [done|].
  destruct (getattr (self w) no_serialize) as [c|e]; [|done].
  by destruct (contains c "").
Qed.

Lemma snapshot_self v w : snd (snapshot v w) = w.
Proof.
  unfold snapshot, bind. pose proof (deref_self v w) as Hd.
  destruct (deref v w) as [[ao|e] w1]; simpl in Hd; by subst w1.
Qed.

Lemma map_m_snapshot_self items w : snd (map_m snapshot items w) = w.
Proof.
  induction items as [|v items IH]; [done|].
  cbn [map_m]. unfold bind. pose proof (snapshot_self v w) as Hs.
  destruct (snapshot v w) as [[y|e] w1]; simpl in Hs; subst w1; [|done].
  destruct (map_m snapshot items w) as [[ys|e] w2]; simpl in IH; by subst w2.
Qed.

Lemma snapshots_of_self (name : string) (state : gmap string Value) v w :
  snd ((do items <- lift (iterate v);
        do sds <- map_m snapshot items;
        ret (<[name := VList sds]> state)) w) = w.
Proof.
  unfold bind, lift. destruct (iterate v) as [items|e]; [|done].
  pose proof (map_m_snapshot_self items w) as Hs.
  destruct (map_m snapshot items w) as [[sds|e] w1]; simpl in Hs; by subst w1.
Qed.

Lemma sequence_entry_self (name : string) (state : gmap string Value) v w :
  snd ((match v with
        | VNone => ret state
        | _ => do items <- lift (iterate v);
               do sds <- map_m snapshot items;
               ret (<[name := VList sds]> state)
        end : M World (gmap string Value)) w) = w.
Proof. destruct v; try done; apply snapshots_of_self. Qed.

Local Abbreviation outcome f c w :=
  ((exists e, c w = (Raise e, w))
   \/ (exists st e,
         open_for_writing f = Ok tt /\ pickle st = Raise e
         /\ c w = (Raise e, mkWorld (self w) (heap w) (<[f%string := Incomplete]> (files w))
                              (warnings w)))
   \/ (exists st,
         storable f st
         /\ c w = (Ok tt, mkWorld (self w) (heap w) (<[f%string := Pickled st]> (files w))
                            (warnings w)))).

Lemma outcome_bind {A} (c : M World A) (k : A -> M World unit) (f : string) w :
  snd (c w) = w -> (forall a, outcome f (k a) w) -> outcome f (bind c k) w.
Proof.
  intros Hc Hk. unfold bind.
  destruct (c w) as [[a|e] w1]; simpl in Hc; subst w1; [apply Hk|].
  left. by exists e.
Qed.

Lemma torch_save_outcome st f w : outcome f (torch_save st f) w.
Proof.
  destruct (open_for_writing f) as [[]|e] eqn:Eo.
  - destruct (pickle st) as [[]|e] eqn:Ep.
    + right. right. exists st. split; [done|]. by apply torch_save_ok.
    + right. left. exists st, e. split_and!; [done..|].
      unfold torch_save.
      erewrite bind_run by (unfold lift; by rewrite Eo).
      erewrite bind_run by reflexivity.
      by erewrite bind_raise by (unfold lift; by rewrite Ep).
  - left. exists e. unfold torch_save.
    by erewrite bind_raise by (unfold lift; by rewrite Eo).
Qed.

Lemma save_outcome f w : outcome f (save f) w.
Proof.
  unfold save.
  apply outcome_bind; [apply serializable_self|]. intros state.
  apply outcome_bind; [done|]. intros net.
  apply outcome_bind; [apply snapshot_self|]. intros sd.
  apply outcome_bind; [done|]. intros optims.
  apply outcome_bind; [apply sequence_entry_self|]. intros state1.
  apply outcome_bind; [done|]. intros scheds.
  apply outcome_bind; [apply sequence_entry_self|]. intros state2.
  apply torch_save_outcome.
Qed.

(** X7: Whether it succeeds or raises, [save] changes nothing but the file it
    is given: the fields of the store, the torch objects, the log and every
    other file stay as they were.  The file is touched by [torch.save]
    alone: a [save] that raises before the file is open has changed nothing,
    one that raises while the record is pickled leaves the file without a
    complete record, and one that returns leaves the record in it. *)
Theorem save_changes_only_its_file f w :
  self (snd (save f w)) = self w
  /\ heap (snd (save f w)) = heap w
  /\ warnings (snd (save f w)) = warnings w
  /\ (forall g, g <> f -> files (snd (save f w)) !! g = files w !! g)
  /\ ((exists e, save f w = (Raise e, w))
      \/ (exists st e,
            open_for_writing f = Ok tt /\ pickle st = Raise e
            /\ save f w = (Raise e, mkWorld (self w) (heap w)
                                      (<[f := Incomplete]> (files w)) (warnings w)))
      \/ (exists st,
            storable f st
            /\ save f w = (Ok tt, mkWorld (self w) (heap w)
                                    (<[f := Pickled st]> (files w)) (warnings w)))).
Proof.
  pose proof (save_outcome f w) as Hout.
  destruct Hout as [[e E]|[(st & e & Ho & Hp & E)|(st & Hst & E)]];
    rewrite E; cbn [fst snd self heap files warnings].
  - split_and!; [done..|]. left. by exists e.
  - split_and!; [done | done | done | |].
    + intros g Hg. by rewrite lookup_insert_ne.
    + right. left. by exists st, e.
  - split_and!; [done | done | done | |].
    + intros g Hg. by rewrite lookup_insert_ne.
    + right. right. by exists st.
Qed.

Lemma snapshots_present h refs :
  Forall (fun a => is_Some (h !! a)) refs ->
  Forall2 (fun a v => exists o, h !! a = Some o /\ v = VStateDict (state_dict o))
          refs (snapshots h refs).
Proof.
  induction 1 as [|a refs [o Ho] _ IH]; [constructor|].
  unfold snapshots. cbn [flat_map]. rewrite Ho. cbn [app].
  constructor; [by exists o | exact IH].
Qed.

Lemma save_sequence_of {A} name w refs state (k : gmap string Value -> M World A) :
  sequence_of w name refs ->
  name_in name property_names = false ->
  (do v <- read name;
   do st <- match v with
            | VNone => ret state
            | _ => do items <- lift (iterate v);
                   do sds <- map_m snapshot items;
                   ret (<[name := VList sds]> state)
            end;
   k st) w
  = k (match refs with
       | Some l => <[name := VList (snapshots (heap w) l)]> state
       | None => state
       end) w.
Proof.
  intros Hs Hn. destruct refs as [l|]; simpl in Hs.
  - destruct Hs as [Hv Hl].
    erewrite bind_run by (unfold read; by rewrite (getattr_present _ _ _ Hn Hv)).
    erewrite bind_run; [reflexivity|].
    erewrite bind_run by reflexivity.
    erewrite bind_run by (by apply map_m_snapshot).
    reflexivity.
  - erewrite bind_run by (unfold read; by rewrite (getattr_present _ _ _ Hn Hs)).
    by erewrite bind_run by reflexivity.
Qed.

(** X8: What [save] writes for a store whose references are to objects that
    exist: under [network] the snapshot of the model; under [optimizers] and
    [schedulers] one snapshot for each object, in order, and no entry when
    the store holds [None]; every other field of the store that is not
    marked as excluded, with its value, and no excluded field.  This record
    is what [save] hands to [torch.save], from a store it has not changed;
    when [torch.save] runs to its end, [save] returns and the file holds
    the record. *)
Theorem save_writes_serializable_fields f w a o optims scheds :
  store_ok (self w) ->
  self w !! "network" = Some (VRef a) -> heap w !! a = Some o ->
  sequence_of w "optimizers" optims -> sequence_of w "schedulers" scheds ->
  exists st,
    save f w = torch_save st f w
    /\ (storable f st ->
        save f w = (Ok tt, mkWorld (self w) (heap w) (<[f := Pickled st]> (files w))
                             (warnings w)))
    /\ st !! "network" = Some (VStateDict (state_dict o))
    /\ match optims with
       | None => st !! "optimizers" = None
       | Some l => exists sds, st !! "optimizers" = Some (VList sds)
           /\ Forall2 (fun a v => exists o, heap w !! a = Some o
                                            /\ v = VStateDict (state_dict o)) l sds
       end
    /\ match scheds with
       | None => st !! "schedulers" = None
       | Some l => exists sds, st !! "schedulers" = Some (VList sds)
           /\ Forall2 (fun a v => exists o, heap w !! a = Some o
                                            /\ v = VStateDict (state_dict o)) l sds
       end
    /\ (forall k, k <> "network" -> k <> "optimizers" -> k <> "schedulers" ->
          st !! k = if excluded (self w) k then None else self w !! k).
Proof.
  intros Hok Hnet Ho Hopt Hsch.
  pose proof Hok as [(ns & Hns & _) _].
  destruct (excluded_torch _ Hok) as (_ & Eo & Es).
  set (base := filter (fun kv : string * Value => excluded (self w) (fst kv) = false) (self w)).
  assert (Hbase : forall k, base !! k = if excluded (self w) k then None else self w !! k)
    by (intros k; apply filter_excluded).
  cut (exists st,
         save f w = torch_save st f w
         /\ st !! "network" = Some (VStateDict (state_dict o))
         /\ match optims with
            | None => st !! "optimizers" = None
            | Some l => exists sds, st !! "optimizers" = Some (VList sds)
                /\ Forall2 (fun a v => exists o, heap w !! a = Some o
                                                 /\ v = VStateDict (state_dict o)) l sds
            end
         /\ match scheds with
            | None => st !! "schedulers" = None
            | Some l => exists sds, st !! "schedulers" = Some (VList sds)
                /\ Forall2 (fun a v => exists o, heap w !! a = Some o
                                                 /\ v = VStateDict (state_dict o)) l sds
            end
         /\ (forall k, k <> "network" -> k <> "optimizers" -> k <> "schedulers" ->
               st !! k = if excluded (self w) k then None else self w !! k)).
  { intros (st & E & Hrec). exists st. split; [exact E|]. split; [|exact Hrec].
    intros Hst. rewrite E. by apply torch_save_ok. }
  eexists. split.
  - unfold save.
    erewrite bind_run by (by apply (serializable_ok w ns)).
    erewrite bind_run by (unfold read; by rewrite (getattr_present _ "network" _ eq_refl Hnet)).
    erewrite bind_run by (by apply snapshot_ref).
    rewrite (save_sequence_of "optimizers" w optims) by done.
    rewrite (save_sequence_of "schedulers" w scheds) by done.
    reflexivity.
  - fold base. split_and!.
    + destruct scheds, optims; by rewrite ?lookup_insert_ne, lookup_insert_eq by done.
    + destruct optims as [l|].
      * exists (snapshots (heap w) l). split; [|apply snapshots_present; apply Hopt].
        destruct scheds; by rewrite ?lookup_insert_ne, lookup_insert_eq by done.
      * destruct scheds; rewrite ?lookup_insert_ne by done; by rewrite Hbase, Eo.
    + destruct scheds as [l|].
      * exists (snapshots (heap w) l). split; [|apply snapshots_present; apply Hsch].
        by rewrite lookup_insert_eq.
      * destruct optims; rewrite ?lookup_insert_ne by done; by rewrite Hbase, Es.
    + intros k K1 K2 K3.
      destruct scheds, optims; rewrite ?lookup_insert_ne by done; apply Hbase.
Qed.

End Saving.

(** ** Loading *)

Section Loading.
Context `{TorchAPI}.

Lemma load_network f strict w st a o sd o' :
  files w !! f = Some (Pickled st) ->
  self w !! "network" = Some (VRef a) -> heap w !! a = Some o ->
  st !! "network" = Some (VStateDict sd) ->
  module_load_state_dict strict sd o = Ok o' ->
  load f strict w
  = (do optims <- read "optimizers";
     do state <- match optims with
                 | VNone => ret (delete "network" st)
                 | _ => do vs <- pop "optimizers" (delete "network" st);
                        do items <- lift (iterate optims);
                        load_each (fst vs) 0 items ;;
                        ret (snd vs)
                 end;
     do scheds <- read "schedulers";
     do state <- match scheds with
                 | VNone => ret state
                 | _ => do vs <- pop "schedulers" state;
                        do items <- lift (iterate scheds);
                        load_each (fst vs) 0 items ;;
                        ret (snd vs)
                 end;
     for_each (map_to_list state) (fun kv => assign (fst kv) (snd kv)))
      (mkWorld (self w) (<[a := o']> (heap w)) (files w) (warnings w)).
Proof.
  intros Hf Hnet Ho Hst Hload. unfold load.
  erewrite bind_run by reflexivity.
  erewrite bind_run by (rewrite Hf; reflexivity).
  erewrite bind_run by (unfold read; by rewrite (getattr_present _ "network" _ eq_refl Hnet)).
  erewrite bind_run by (unfold deref; by rewrite Ho).
  erewrite bind_run by (unfold pop; by rewrite Hst).
  erewrite bind_run by reflexivity.
  erewrite bind_run by (unfold lift; cbn [snd]; by rewrite Hload).
  erewrite bind_run by reflexivity. reflexivity.
Qed.

(** X9: [load] is not all-or-nothing.  Without the file it raises
    [FileNotFoundError] and a record without [network] raises [KeyError],
    both before anything is changed; but on a store that has optimizers a
    record without [optimizers] raises [KeyError] only after the model has
    been overwritten with the saved state.  A file that a failed
    [torch.save] left without a complete record makes [torch.load] raise,
    before anything is changed. *)
Theorem load_stops_where_it_fails f strict w :
  (files w !! f = None -> load f strict w = (Raise FileNotFoundError, w))
  /\ (forall st a o,
        files w !! f = Some (Pickled st) ->
        self w !! "network" = Some (VRef a) -> heap w !! a = Some o ->
        st !! "network" = None ->
        load f strict w = (Raise KeyError, w))
  /\ (forall st a o sd o' v,
        files w !! f = Some (Pickled st) ->
        self w !! "network" = Some (VRef a) -> heap w !! a = Some o ->
        st !! "network" = Some (VStateDict sd) ->
        module_load_state_dict strict sd o = Ok o' ->
        self w !! "optimizers" = Some v -> v <> VNone ->
        st !! "optimizers" = None ->
        load f strict w
        = (Raise KeyError,
           mkWorld (self w) (<[a := o']> (heap w)) (files w) (warnings w)))
  /\ (files w !! f = Some Incomplete -> load f strict w = (Raise truncated, w)).
Proof.
  split_and!; cycle 3.
  { intros Hf. unfold load. erewrite bind_run by reflexivity.
    by erewrite bind_raise by (rewrite Hf; reflexivity). }
  - intros Hf. unfold load. erewrite bind_run by reflexivity.
    by erewrite bind_raise by (rewrite Hf; reflexivity).
  - intros st a o Hf Hnet Ho Hst. unfold load.
    erewrite bind_run by reflexivity.
    erewrite bind_run by (rewrite Hf; reflexivity).
    erewrite bind_run by (unfold read; by rewrite (getattr_present _ "network" _ eq_refl Hnet)).
    erewrite bind_run by (unfold deref; by rewrite Ho).
    by erewrite bind_raise by (unfold pop; by rewrite Hst).
  - intros st a o sd o' v Hf Hnet Ho Hst Hload Hopt Hv Hnone.
    rewrite (load_network f strict w st a o sd o') by done.
    erewrite bind_run
      by (unfold read; cbn [self]; by rewrite (getattr_present _ "optimizers" _ eq_refl Hopt)).
    assert (Hpop : forall A (k : Value * gmap string Value -> M World A) w1,
              (do vs <- pop "optimizers" (delete "network" st); k vs) w1
              = (Raise KeyError, w1)).
    { intros A k w1. erewrite bind_raise; [reflexivity|].
      unfold pop. by rewrite lookup_delete_ne, Hnone. }
    destruct v; try done; by erewrite bind_raise by apply Hpop.
Qed.

(** X10: [load] validates nothing: on a store built without optimizers and
    schedulers, every key the record holds besides [network] is written to
    the store with the saved value, a saved list of optimizer snapshots
    among them, which then stands where the store had [None]; fields the
    record does not name are left alone. *)
Theorem load_writes_every_remaining_key f strict w st a o sd o' :
  files w !! f = Some (Pickled st) ->
  self w !! "network" = Some (VRef a) -> heap w !! a = Some o ->
  st !! "network" = Some (VStateDict sd) ->
  module_load_state_dict strict sd o = Ok o' ->
  self w !! "optimizers" = Some VNone -> self w !! "schedulers" = Some VNone ->
  (forall k, name_in k property_names = true -> st !! k = None) ->
  exists wl,
    load f strict w = (Ok tt, wl)
    /\ heap wl = <[a := o']> (heap w)
    /\ (forall k v, k <> "network" -> st !! k = Some v -> self wl !! k = Some v)
    /\ (forall k, st !! k = None -> self wl !! k = self w !! k)
    /\ self wl !! "network" = Some (VRef a)
    /\ (forall v, st !! "optimizers" = Some v -> self wl !! "optimizers" = Some v).
Proof.
  intros Hf Hnet Ho Hst Hload Hopt Hsch Hprops.
  set (w1 := mkWorld (self w) (<[a := o']> (heap w)) (files w) (warnings w)).
  destruct (assign_record (delete "network" st) w1) as (wl & El & Hheap & _ & _ & Hfields).
  { intros k Hk. destruct (decide (k = "network")) as [->|Hne]; [apply lookup_delete_eq|].
    rewrite lookup_delete_ne by done. by apply Hprops. }
  assert (Hall : forall k v, k <> "network" -> st !! k = Some v -> self wl !! k = Some v).
  { intros k v Hk Hv. by rewrite Hfields, lookup_delete_ne, Hv. }
  exists wl. split_and!; try done.
  - rewrite (load_network f strict w st a o sd o') by done. fold w1.
    erewrite bind_run
      by (unfold read; cbn [self w1]; by rewrite (getattr_present _ "optimizers" _ eq_refl Hopt)).
    erewrite bind_run by reflexivity.
    erewrite bind_run
      by (unfold read; cbn [self w1]; by rewrite (getattr_present _ "schedulers" _ eq_refl Hsch)).
    erewrite bind_run by reflexivity.
    exact El.
  - intros k Hk. rewrite Hfields.
    destruct (decide (k = "network")) as [->|Hne]; [by rewrite lookup_delete_eq|].
    by rewrite lookup_delete_ne, Hk.
  - by rewrite Hfields, lookup_delete_eq.
  - intros v Hv. by apply Hall.
Qed.

End Loading.

Section Marks.
Context `{TorchShapes}.

(** X11: The record [save] writes carries the exclusion list of the store, and
    [load] installs it: after a round trip between stores of the same
    shapes, with a [torch.save] that runs to its end, the loading store
    marks as excluded exactly the fields the saved store marked, whatever it
    marked before. *)
Theorem load_installs_saved_marks wo wf f strict :
  store_ok (self wo) -> same_shapes wo wf -> storable f (record wo) ->
  excluded (self wo) no_serialize = false ->
  exists ws,
    save f wo = (Ok tt, ws)
    /\ (files wf !! f = files ws !! f ->
        exists wl, load f strict wf = (Ok tt, wl)
                   /\ self wl !! no_serialize = self wo !! no_serialize
                   /\ forall k, excluded (self wl) k = excluded (self wo) k).
Proof.
  intros Hok Hsame Hstore Hex.
  destruct (round_trip wo wf f strict Hok Hsame Hstore) as (ws & Es & _ & _ & Hload).
  exists ws. split; [exact Es|]. intros Hfile.
  destruct (Hload Hfile) as (wl & El & Hkept & _).
  pose proof Hok as [(ns & Hns & _) _].
  pose proof (Hkept _ _ Hns Hex) as Hl.
  exists wl. split_and!; [exact El | congruence |].
  intros k. unfold excluded. by rewrite Hl, Hns.
Qed.

End Marks.

(** ** Moving to a device *)

Section Moving.
Context `{TorchAPI}.

Lemma move_tensor_twice device t :
  move_tensor device (move_tensor device t) = move_tensor device t.
Proof. unfold move_tensor. cbn [grad_device]. by destruct (grad_device t). Qed.

Lemma move_optim_param_twice device p :
  move_optim_param device (move_optim_param device p) = move_optim_param device p.
Proof.
  destruct p as [t|d|n]; cbn [move_optim_param]; [by rewrite move_tensor_twice| |done].
  f_equal. rewrite map_map. apply map_ext. intros [k sp]. cbn [fst snd].
  f_equal. destruct sp as [t|n]; [|done]. cbn [move_subparam]. by rewrite move_tensor_twice.
Qed.

Lemma move_sched_param_twice device p :
  move_sched_param device (move_sched_param device p) = move_sched_param device p.
Proof. destruct p as [t|d|n]; cbn [move_sched_param]; [by rewrite move_tensor_twice|done|done]. Qed.

Lemma moved_twice f o :
  (forall p, f (f p) = f p) -> moved f (moved f o) = moved f o.
Proof.
  intros Hf. unfold moved. cbn [obj_device obj_state]. f_equal.
  rewrite map_map. apply map_ext. intros [k p]. cbn [fst snd]. by rewrite Hf.
Qed.

Lemma move_obj_ref f a o w :
  heap w !! a = Some o ->
  move_obj f (VRef a) w
  = (Ok tt, mkWorld (self w) (<[a := moved f o]> (heap w)) (files w) (warnings w)).
Proof. intros Ho. unfold move_obj, bind, deref. by rewrite Ho. Qed.

(** The loop [for obj in refs: move obj] over references that exist. *)
Lemma for_each_move f refs :
  (forall p, f (f p) = f p) ->
  forall w,
  Forall (fun a => is_Some (heap w !! a)) refs ->
  exists w',
    for_each (map VRef refs) (move_obj f) w = (Ok tt, w')
    /\ self w' = self w /\ files w' = files w /\ warnings w' = warnings w
    /\ (forall a, a ∉ refs -> heap w' !! a = heap w !! a)
    /\ (forall a o, heap w !! a = Some (moved f o) -> heap w' !! a = Some (moved f o))
    /\ (forall a o, a ∈ refs -> heap w !! a = Some o -> heap w' !! a = Some (moved f o))
    /\ (forall a, is_Some (heap w !! a) -> is_Some (heap w' !! a)).
Proof.
  intros Hf. induction refs as [|b refs IH]; intros w Hall.
  - exists w. split_and!; try done. intros a o Hin. by apply elem_of_nil in Hin.
  - apply Forall_cons in Hall as [[ob Hob] Hrest].
    set (w1 := mkWorld (self w) (<[b := moved f ob]> (heap w)) (files w) (warnings w)).
    destruct (IH w1) as (w' & E & Hs & Hfi & Hw & Hout & Hstay & Hin & Hdom).
    { eapply Forall_impl; [exact Hrest|]. intros a [oa Hoa]. cbn [heap w1].
      destruct (decide (b = a)) as [->|Hne];
        [rewrite lookup_insert_eq | rewrite lookup_insert_ne by done]; eauto. }
    exists w'. split_and!; try done.
    + cbn [map for_each]. by erewrite bind_run by (by apply move_obj_ref).
    + intros a Ha. apply not_elem_of_cons in Ha as [Hne Ha].
      rewrite Hout by done. cbn [heap w1]. by rewrite lookup_insert_ne.
    + intros a o Ho. apply Hstay. cbn [heap w1].
      destruct (decide (b = a)) as [->|Hne]; [|by rewrite lookup_insert_ne].
      rewrite lookup_insert_eq. rewrite Hob in Ho. injection Ho as ->.
      by rewrite moved_twice.
    + intros a o Ha Ho. destruct (decide (b = a)) as [->|Hne].
      * apply Hstay. cbn [heap w1]. rewrite lookup_insert_eq. congruence.
      * apply elem_of_cons in Ha as [->|Ha]; [done|].
        apply Hin; [done|]. cbn [heap w1]. by rewrite lookup_insert_ne.
    + intros a Ha. apply Hdom. cbn [heap w1].
      destruct (decide (b = a)) as [->|Hne];
        [rewrite lookup_insert_eq | rewrite lookup_insert_ne by done]; eauto.
Qed.

(** X12: On a store whose model, optimizers and schedulers exist, [to] returns
    and changes no field of the store and no file.  An optimizer that is
    neither the model nor a scheduler has every tensor of its state, and
    every tensor one dict below, moved to the device together with its
    gradient when it has one; a scheduler that is neither the model nor an
    optimizer has the tensors among its attributes moved, and nothing below
    them; the model, when it is in neither list, is what [module.to] made of
    it; any other torch object is untouched. *)
Theorem to_moves_every_object device w net onet optims scheds :
  self w !! "network" = Some (VRef net) -> heap w !! net = Some onet ->
  sequence_of w "optimizers" (Some optims) ->
  sequence_of w "schedulers" (Some scheds) ->
  exists w',
    to device w = (Ok tt, w')
    /\ self w' = self w /\ files w' = files w /\ warnings w' = warnings w
    /\ (forall a o, a ∈ optims -> a <> net -> a ∉ scheds -> heap w !! a = Some o ->
          heap w' !! a = Some (moved (move_optim_param device) o))
    /\ (forall a o, a ∈ scheds -> a <> net -> a ∉ optims -> heap w !! a = Some o ->
          heap w' !! a = Some (moved (move_sched_param device) o))
    /\ (net ∉ optims -> net ∉ scheds -> heap w' !! net = Some (module_to device onet))
    /\ (forall a, a <> net -> a ∉ optims -> a ∉ scheds -> heap w' !! a = heap w !! a).
Proof.
  intros Hnet Honet [Hopt Hopts] [Hsch Hschs].
  set (w1 := mkWorld (self w) (<[net := module_to device onet]> (heap w)) (files w)
               (warnings w)).
  assert (Hdom1 : forall a, is_Some (heap w !! a) -> is_Some (heap w1 !! a)).
  { intros a Ha. cbn [heap w1].
    destruct (decide (net = a)) as [->|Hne];
      [rewrite lookup_insert_eq | rewrite lookup_insert_ne by done]; eauto. }
  destruct (for_each_move (move_optim_param device) optims (move_optim_param_twice device) w1)
    as (w2 & E2 & Hs2 & Hf2 & Hw2 & Hout2 & _ & Hin2 & Hdom2).
  { eapply Forall_impl; [exact Hopts|]. exact Hdom1. }
  destruct (for_each_move (move_sched_param device) scheds (move_sched_param_twice device) w2)
    as (w3 & E3 & Hs3 & Hf3 & Hw3 & Hout3 & _ & Hin3 & _).
  { eapply Forall_impl; [exact Hschs|]. intros a Ha. by apply Hdom2, Hdom1. }
  exists w3. split_and!.
  - unfold to.
    erewrite bind_run by (unfold read; by rewrite (getattr_present _ "network" _ eq_refl Hnet)).
    erewrite bind_run by (unfold deref; by rewrite Honet).
    erewrite bind_run by reflexivity. cbn [fst snd]. fold w1.
    erewrite bind_run
      by (unfold read; cbn [self w1]; by rewrite (getattr_present _ "optimizers" _ eq_refl Hopt)).
    erewrite bind_run by reflexivity.
    erewrite bind_run by exact E2.
    erewrite bind_run
      by (unfold read; rewrite Hs2; cbn [self w1];
          by rewrite (getattr_present _ "schedulers" _ eq_refl Hsch)).
    erewrite bind_run by reflexivity.
    exact E3.
  - by rewrite Hs3, Hs2.
  - by rewrite Hf3, Hf2.
  - by rewrite Hw3, Hw2.
  - intros a o Ha Hne Hns Ho. rewrite Hout3 by done.
    apply Hin2; [done|]. cbn [heap w1]. by rewrite lookup_insert_ne.
  - intros a o Ha Hne Hno Ho. apply Hin3; [done|].
    rewrite Hout2 by done. cbn [heap w1]. by rewrite lookup_insert_ne.
  - intros Hno Hns. rewrite Hout3, Hout2 by done. cbn [heap w1]. by rewrite lookup_insert_eq.
  - intros a Hne Hno Hns. rewrite Hout3, Hout2 by done. cbn [heap w1].
    by rewrite lookup_insert_ne.
Qed.

End Moving.

(** ** The session of the examples *)

Lemma demo_full :
  new Demo.machine (VRef 0) (VRef 1) (VRef 2) 8 (Some 4) [] = (Ok tt, Demo.full).
Proof. vm_compute. reflexivity. Qed.

Lemma construction_sets_fields_witness :
  self Demo.saved !! "batch" = Some (VInt 0)
  /\ self Demo.saved !! "optimizers" = Some (VList [VRef 1])
  /\ heap Demo.saved = heap Demo.machine.
Proof.
  destruct (construction_sets_fields _ _ _ _ _ _ _ _ demo_saved)
    as (_ & _ & Hb & _ & Ho & _ & _ & Hh & _).
  split_and!; [exact Hb | exact Ho | exact Hh].
Defined.

Lemma optimizer_property_follows_argument_witness :
  getattr (self Demo.saved) "optimizer" = Ok (VRef 1)
  /\ getattr (self Demo.saved) "scheduler" = Raise TypeError.
Proof.
  destruct (optimizer_property_follows_argument _ _ _ _ _ _ _ _ demo_saved)
    as (_ & Hs & Ho & _).
  split; [by apply Ho | exact Hs].
Defined.

Lemma batch_subdivisions_is_exact_witness :
  exists m, self Demo.saved !! "mini_batch_size" = Some (VInt m)
            /\ getattr (self Demo.saved) "batch_subdivisions" = Ok (VInt (8 / m))
            /\ 8 / m * m = 8.
Proof.
  destruct (batch_subdivisions_is_exact Demo.machine (VRef 0) (VRef 1) VNone 8 (Some 4)
              [("rate", VInt 3); ("_tag", VStr "run")] Demo.saved)
    as (m & Hm & _ & _ & Hg & _ & Hq & _).
  - lia.
  - intros x Hx. injection Hx as <-. lia.
  - exact demo_saved.
  - exists m. split_and!; assumption.
Defined.

Lemma zero_mini_batch_size_raises_witness :
  fst (new Demo.machine (VRef 0) VNone VNone 8 (Some 0) []) = Raise ZeroDivisionError.
Proof.
  apply (zero_mini_batch_size_raises Demo.machine (VRef 0) VNone VNone 8 []);
    [lia | reflexivity].
Defined.

Lemma kwarg_is_stored_under_stripped_name_witness :
  exists w', init_kwarg ("_tag", VStr "run") Demo.bare = (Ok tt, w')
             /\ self w' !! "tag" = Some (VStr "run")
             /\ excluded (self w') "tag" = true.
Proof.
  destruct (kwarg_is_stored_under_stripped_name "_tag" (VStr "run") Demo.bare
              [VStr "network"; VStr "optimizers"; VStr "schedulers"])
    as (w' & E & Hv & Hx & _); [vm_compute; reflexivity..|].
  exists w'. split_and!; [exact E | exact Hv | exact Hx].
Defined.

Lemma property_keyword_raises_type_error_witness :
  fst (new Demo.machine (VRef 0) VNone VNone 8 (Some 4) [("optimizer", VRef 1)])
  = Raise TypeError.
Proof.
  apply (property_keyword_raises_type_error Demo.machine (VRef 0) VNone VNone 8 (Some 4) []
           Demo.bare "optimizer" (VRef 1) [] demo_bare); [reflexivity|].
  left. split; reflexivity.
Defined.

Lemma save_changes_only_its_file_witness :
  self (snd (save Demo.checkpoint Demo.with_function)) = self Demo.with_function
  /\ files (snd (save Demo.checkpoint Demo.with_function)) !! "other.pt" = None
  /\ fst (save Demo.checkpoint Demo.with_function) = Raise AttributeError
  /\ files Demo.with_function !! Demo.checkpoint = Some (Pickled (record Demo.saved))
  /\ files (snd (save Demo.checkpoint Demo.with_function)) !! Demo.checkpoint
     = Some Incomplete.
Proof.
  destruct (save_changes_only_its_file Demo.checkpoint Demo.with_function)
    as (Hs & _ & _ & Hf & _).
  split_and!; [exact Hs | rewrite Hf; [reflexivity | done] | vm_compute; reflexivity..].
Defined.

Lemma save_writes_serializable_fields_witness :
  exists st,
    save Demo.checkpoint Demo.saved = torch_save st Demo.checkpoint Demo.saved
    /\ st !! "rate" = Some (VInt 3) /\ st !! "tag" = None
    /\ st !! "schedulers" = None.
Proof.
  destruct (save_writes_serializable_fields Demo.checkpoint Demo.saved 0%nat
              (mkObj "cpu" [("weight", PTensor (Demo.cpu true));
                            ("bias", PTensor (Demo.cpu true))])
              (Some [1%nat]) None)
    as (st & E & _ & _ & _ & Hs & Hk).
  - apply (new_store_ok _ _ _ _ _ _ _ _ demo_saved).
  - reflexivity.
  - reflexivity.
  - split; [reflexivity|]. constructor; [|constructor]. eexists. reflexivity.
  - reflexivity.
  - exists st. split_and!; [exact E | | | exact Hs].
    + rewrite Hk by done. reflexivity.
    + rewrite Hk by done. reflexivity.
Defined.

Lemma load_stops_where_it_fails_witness :
  load "missing.pt" false Demo.with_optimizer
    = (Raise FileNotFoundError, Demo.with_optimizer)
  /\ fst (load Demo.checkpoint false Demo.with_optimizer) = Raise KeyError.
Proof.
  destruct (load_stops_where_it_fails "missing.pt" false Demo.with_optimizer) as (H1 & _).
  destruct (load_stops_where_it_fails Demo.checkpoint false Demo.with_optimizer)
    as (_ & _ & H3 & _).
  split; [apply H1; vm_compute; reflexivity|].
  rewrite (H3 (record Demo.bare) 0%nat
             (mkObj "cpu" [("weight", PTensor (Demo.cpu true));
                           ("bias", PTensor (Demo.cpu true))])
             [("weight", PTensor (Demo.cpu true)); ("bias", PTensor (Demo.cpu true))]
             (mkObj "cpu" [("weight", PTensor (Demo.cpu true));
                           ("bias", PTensor (Demo.cpu true))])
             (VList [VRef 1]));
    [reflexivity | vm_compute; reflexivity .. | discriminate | vm_compute; reflexivity].
Defined.

Lemma load_writes_every_remaining_key_witness :
  exists wl,
    load Demo.checkpoint false Demo.without_optimizer = (Ok tt, wl)
    /\ self Demo.without_optimizer !! "optimizers" = Some VNone
    /\ self wl !! "optimizers"
       = Some (VList [VStateDict [("weight", PDict [("momentum", STensor (Demo.cpu false));
                                                    ("step", SOther 0)])]]).
Proof.
  destruct (load_writes_every_remaining_key Demo.checkpoint false Demo.without_optimizer
              (record Demo.saved) 0%nat
              (mkObj "cpu" [("weight", PTensor (Demo.cpu true));
                            ("bias", PTensor (Demo.cpu true))])
              [("weight", PTensor (Demo.cpu true)); ("bias", PTensor (Demo.cpu true))]
              (mkObj "cpu" [("weight", PTensor (Demo.cpu true));
                            ("bias", PTensor (Demo.cpu true))]))
    as (wl & E & _ & _ & _ & _ & Ho);
    [vm_compute; reflexivity .. | | ].
  - intros k Hk. apply existsb_exists in Hk as (p & Hin & Hp).
    apply String.eqb_eq in Hp. subst p.
    destruct Hin as [<-|[<-|[<-|[]]]]; vm_compute; reflexivity.
  - exists wl. split_and!; [exact E | vm_compute; reflexivity |].
    apply Ho. vm_compute. reflexivity.
Defined.

Lemma load_installs_saved_marks_witness :
  exists wl,
    load Demo.checkpoint false Demo.loading = (Ok tt, wl)
    /\ excluded (self Demo.loading) "rate" = true
    /\ excluded (self wl) "rate" = false
    /\ excluded (self wl) "tag" = true.
Proof.
  destruct (load_installs_saved_marks Demo.saved Demo.loading Demo.checkpoint false)
    as (ws & Es & Hl).
  - apply (new_store_ok _ _ _ _ _ _ _ _ demo_saved).
  - exact demo_same_shapes.
  - exact demo_storable.
  - vm_compute. reflexivity.
  - destruct Hl as (wl & El & _ & Hx).
    + assert (ws = Demo.after_save) as ->
        by (unfold Demo.after_save; by rewrite Es).
      vm_compute. reflexivity.
    + exists wl. split_and!; [exact El | vm_compute; reflexivity | |];
        rewrite Hx; vm_compute; reflexivity.
Defined.

Lemma to_moves_every_object_witness :
  exists w',
    to "cuda:0" Demo.full = (Ok tt, w')
    /\ self w' = self Demo.full
    /\ heap w' !! 1%nat
       = Some (mkObj "cpu" [("weight", PDict [("momentum", STensor (mkTensor "cuda:0" None));
                                              ("step", SOther 0)])])
    /\ heap w' !! 0%nat
       = Some (mkObj "cuda:0" [("weight", PTensor (Demo.cpu true));
                               ("bias", PTensor (Demo.cpu true))]).
Proof.
  destruct (to_moves_every_object "cuda:0" Demo.full 0%nat
              (mkObj "cpu" [("weight", PTensor (Demo.cpu true));
                            ("bias", PTensor (Demo.cpu true))])
              [1%nat] [2%nat])
    as (w' & E & Hs & _ & _ & Ho & _ & Hn & _).
  - reflexivity.
  - reflexivity.
  - split; [reflexivity|]. constructor; [|constructor]. eexists. reflexivity.
  - split; [reflexivity|]. constructor; [|constructor]. eexists. reflexivity.
  - exists w'. split_and!; [exact E | exact Hs | |].
    + rewrite (Ho 1%nat (mkObj "cpu" [("weight", PDict [("momentum", STensor (Demo.cpu false));
                                                         ("step", SOther 0)])]));
        [reflexivity | by apply list_elem_of_singleton | done
         | by intros ?%list_elem_of_singleton | reflexivity].
    + rewrite Hn; [reflexivity | by intros ?%list_elem_of_singleton
                   | by intros ?%list_elem_of_singleton].
Defined.

End HyperParametersLaws.

(** * Further properties of the engine *)

Module EngineLaws.
Import Engine EngineProps.

(** ** Construction *)

Section Building.
Variable cs : gmap string ClassDef.
Variable c : string.
Variable p : gmap string Value.
Variable dataloader : Value.
Hypothesis Hclass : class_attr cs c "_init_done" = Some (VBool false).

Local Abbreviation building := (Engine.building cs c p dataloader).

(** One turn of the keyword loop: the key is warned about, or set on the
    engine itself. *)
Lemma init_kwarg_building kv w w' :
  name_in (fst kv) parameter_names = false ->
  building w -> init_kwarg kv w = (Ok tt, w') ->
  building w'
  /\ ((exists v, read (fst kv) w = (Ok v, w))
      /\ dict (this w') = dict (this w)
      /\ log w' = log w ++ [("WARNING", exists_warning (fst kv))]
      \/ read (fst kv) w = (Raise AttributeError, w)
         /\ dict (this w) !! fst kv = None
         /\ dict (this w') = <[fst kv := snd kv]> (dict (this w))
         /\ log w' = log w).
Proof.
  intros Hkey (Hcs & Hcl & Hp & Htr & Hdone & Hpar & Hsig & Hdl & Hlog) H.
  unfold init_kwarg in H. unfold bind in H at 1.
  pose proof (has_pure (fst kv) w) as Hpure.
  destruct (has (fst kv) w) as [[h|e] w1] eqn:Eh; simpl in Hpure; subst w1; [|done].
  assert (Hread : if h then exists v, read (fst kv) w = (Ok v, w)
                  else read (fst kv) w = (Raise AttributeError, w)).
  { unfold has in Eh.
    destruct (read (fst kv) w) as [[v|e] w1]; [|destruct e];
      try discriminate Eh; inversion Eh; subst; eauto. }
  destruct h; cbn [negb] in H.
  - unfold log_record, modify in H. injection H as <-.
    split.
    + unfold Engine.building; simpl. split_and!; try done.
      apply Forall_app. split; [done|]. by constructor.
    + left. done.
  - rewrite setattr_during_init in H by (rewrite ?Hcs, ?Hcl; done).
    apply has_false in Eh. rewrite Hcs in Eh. unfold native in Eh.
    destruct (dict (this w) !! fst kv) eqn:Ed; [done|].
    unfold set_native, modify in H. injection H as <-.
    assert (Hne : forall name, is_Some (dict (this w) !! name) -> fst kv <> name).
    { intros name [v Hv] <-. congruence. }
    split.
    + unfold Engine.building; simpl. split_and!; try done.
      * rewrite lookup_insert_ne; [done|]. intros Heq.
        rewrite Heq, Hcl, Hclass in Eh. done.
      * rewrite lookup_insert_ne; [done|]. apply Hne. by rewrite Hpar.
      * rewrite lookup_insert_ne; [done|]. apply Hne. by rewrite Hsig.
      * rewrite lookup_insert_ne; [done|]. intros Heq. by rewrite Heq in Hkey.
    + right. done.
Qed.

Lemma for_each_building kwargs :
  forall w w',
  existsb (fun kv => name_in (fst kv) parameter_names) kwargs = false ->
  building w -> for_each kwargs init_kwarg w = (Ok tt, w') ->
  building w'
  /\ (exists l, log w' = log w ++ l)
  /\ (forall key old,
        dict (this w) !! key = None -> class_attr cs c key = None ->
        HyperParameters.getattr p key = Ok old ->
        dict (this w') !! key = None
        /\ forall val, In (key, val) kwargs ->
                       In ("WARNING", exists_warning key) (log w')).
Proof.
  induction kwargs as [|kv kwargs IH]; intros w w' Hk Hw H.
  - injection H as <-. split_and!; [done| |].
    + exists []. by rewrite app_nil_r.
    + intros key old Hd _ _. split; [done|]. intros val [].
  - cbn [existsb] in Hk. apply orb_false_elim in Hk as [Hkv Hk].
    cbn [for_each] in H. unfold bind in H at 1.
    destruct (init_kwarg kv w) as [[[]|e] w1] eqn:E; [|done].
    destruct (init_kwarg_building kv w w1 Hkv Hw E) as [Hw1 Hstep].
    destruct (IH w1 w' Hk Hw1 H) as (Hw' & [l Hl] & Hcoll).
    split_and!; try done.
    + destruct Hstep as [(_ & _ & Hlog1)|(_ & _ & _ & Hlog1)]; rewrite Hl, Hlog1.
      * eexists. by rewrite <- app_assoc.
      * by eexists.
    + intros key old Hd Hc Hg.
      destruct Hw as (Hcs & Hcl & Hp & _ & _ & Hpar & _).
      assert (Hread : read key w = (Ok old, w)).
      { apply read_bridge; rewrite ?Hcs, ?Hcl, ?Hp; done. }
      assert (Hd1 : dict (this w1) !! key = None).
      { destruct Hstep as [(_ & Hd1 & _)|(Hr & _ & Hd1 & _)]; rewrite Hd1; [done|].
        rewrite lookup_insert_ne; [done|]. intros Heq. rewrite Heq in Hr. congruence. }
      destruct (Hcoll key old Hd1 Hc Hg) as [Hd' Hin']. split; [exact Hd'|].
      intros val [Heq|Hin]; [|by eapply Hin'].
      subst kv. cbn [fst] in Hstep.
      destruct Hstep as [(_ & _ & Hlog1)|(Hr & _)]; [|congruence].
      rewrite Hl, Hlog1. apply in_or_app. left. apply in_or_app. right. by left.
Qed.

Lemma new_building kwargs w0 :
  new cs c p dataloader kwargs = (Ok tt, w0) ->
  exists w3 w4,
    building w3 /\ dict (this w3) !! "_Engine__log" = Some (VMethod "ln.logger")
    /\ (forall key, key <> "params" -> key <> "dataloader" -> key <> "sigint" ->
          key <> "_Engine__log" -> dict (this w3) !! key = None)
    /\ log w3 = match dataloader with
                | VNone => [("WARNING", no_dataloader_warning)]
                | _ => []
                end
    /\ existsb (fun kv => name_in (fst kv) parameter_names) kwargs = false
    /\ for_each kwargs init_kwarg w3 = (Ok tt, w4)
    /\ w0 = mkWorld (classes w4)
              (mkInst (cls (this w4)) (<["_init_done" := VBool true]> (dict (this w4)))
                 (params (this w4)))
              (trace w4) (log w4).
Proof.
  unfold new. destruct (existsb _ kwargs) eqn:Ek; [done|]. unfold __init__. intros H.
  set (w1 := snd (set_native "params" VStore (mkWorld cs (mkInst c ∅ p) [] []))) in H.
  rewrite HyperParametersProps.bind_run with (a := tt) (s' := w1) in H
    by (rewrite setattr_during_init by done; reflexivity).
  assert (Hdl : exists w2,
    match dataloader with
    | VNone => log_record "WARNING" no_dataloader_warning
    | _ => __setattr__ "dataloader" dataloader
    end w1 = (Ok tt, w2)
    /\ classes w2 = cs /\ cls (this w2) = c /\ params (this w2) = p /\ trace w2 = []
    /\ dict (this w2) !! "_init_done" = None
    /\ dict (this w2) !! "params" = Some VStore
    /\ dict (this w2) !! "sigint" = None
    /\ dict (this w2) !! "_Engine__log" = None
    /\ dict (this w2) !! "dataloader"
       = match dataloader with VNone => None | v => Some v end
    /\ (forall key, key <> "params" -> key <> "dataloader" -> dict (this w2) !! key = None)
    /\ log w2 = match dataloader with
                | VNone => [("WARNING", no_dataloader_warning)]
                | _ => []
                end).
  { destruct dataloader;
      try (rewrite setattr_during_init by done; eexists; split; [reflexivity|];
           cbn; split_and!; try done;
           intros key K1 K2; by rewrite !lookup_insert_ne by done).
    eexists; split; [reflexivity|]. cbn. split_and!; try done.
    intros key K1 K2. by rewrite lookup_insert_ne by done. }
  destruct Hdl as (w2 & E2 & Hc2 & Hl2 & Hp2 & Ht2 & Hd2 & Hpar2 & Hs2 & Hlg2 & Hdl2 & Hrest2
                   & Hlog2).
  rewrite (HyperParametersProps.bind_run _ _ _ _ _ E2) in H.
  erewrite HyperParametersProps.bind_run in H; cycle 1.
  { rewrite setattr_during_init by (rewrite ?Hc2, ?Hl2; done). reflexivity. }
  erewrite HyperParametersProps.bind_run in H by reflexivity.
  erewrite HyperParametersProps.bind_run in H; cycle 1.
  { rewrite setattr_during_init; [reflexivity | simpl | simpl; rewrite Hc2, Hl2; done].
    rewrite !lookup_insert_ne by done. exact Hd2. }
  unfold bind in H at 1.
  match type of H with context [for_each kwargs init_kwarg ?w] => set (w3 := w) in H end.
  destruct (for_each kwargs init_kwarg w3) as [[[]|e] w4] eqn:E4; [|done].
  exists w3, w4.
  assert (H3 : building w3).
  { unfold Engine.building, w3; simpl. rewrite Ht2, Hlog2. split_and!; try done.
    - rewrite !lookup_insert_ne by done. exact Hd2.
    - rewrite !lookup_insert_ne by done. exact Hpar2.
    - rewrite lookup_insert_ne by done. by rewrite lookup_insert_eq.
    - rewrite !lookup_insert_ne by done. exact Hdl2.
    - destruct dataloader; repeat constructor. }
  split_and!; [exact H3 | | | | done | done |].
  - unfold w3; simpl. by rewrite lookup_insert_eq.
  - intros key K1 K2 K3 K4. unfold w3; simpl.
    rewrite !lookup_insert_ne by done. by apply Hrest2.
  - unfold w3; simpl. exact Hlog2.
  - destruct (for_each_building kwargs w3 w4 Ek H3 E4) as ((Hc4 & Hl4 & _ & _ & Hd4 & _) & _).
    rewrite setattr_during_init in H by (rewrite ?Hc4, ?Hl4; done).
    unfold set_native, modify in H. by injection H as <-.
Qed.

(** X13: A successful construction leaves the store it was given exactly as it
    was, whatever the keyword arguments are.  The interrupt handler has
    been installed once; the engine holds [params], [sigint = False],
    [_init_done = True] and the loader, when one was given; and nothing but
    warnings was logged. *)
Theorem engine_construction_leaves_store kwargs w0 :
  new cs c p dataloader kwargs = (Ok tt, w0) ->
  classes w0 = cs /\ cls (this w0) = c
  /\ params (this w0) = p
  /\ trace w0 = [EvSignalHandler]
  /\ dict (this w0) !! "params" = Some VStore
  /\ dict (this w0) !! "sigint" = Some (VBool false)
  /\ dict (this w0) !! "_init_done" = Some (VBool true)
  /\ dict (this w0) !! "dataloader"
     = match dataloader with VNone => None | v => Some v end
  /\ Forall (fun r : string * string => fst r = "WARNING") (log w0).
Proof.
  intros H.
  destruct (new_building kwargs w0 H) as (w3 & w4 & H3 & _ & _ & _ & Ek & E4 & ->).
  destruct (for_each_building kwargs w3 w4 Ek H3 E4)
    as ((Hc4 & Hl4 & Hp4 & Ht4 & Hd4 & Hpar4 & Hs4 & Hdl4 & Hlog4) & _).
  cbn [classes this cls params trace dict log].
  split_and!; try done; try (by rewrite lookup_insert_ne).
  by rewrite lookup_insert_eq.
Qed.

(** X14: A keyword argument that names a hyperparameter of the store is not set
    on the engine and does not reach the store: it is answered with the
    warning, and the name keeps reading as the store's value. *)
Theorem engine_keyword_never_overrides kwargs w0 key val old :
  new cs c p dataloader kwargs = (Ok tt, w0) ->
  In (key, val) kwargs ->
  HyperParameters.getattr p key = Ok old ->
  class_attr cs c key = None ->
  key <> "sigint" -> key <> "_Engine__log" ->
  dict (this w0) !! key = None
  /\ params (this w0) = p
  /\ read key w0 = (Ok old, w0)
  /\ In ("WARNING", exists_warning key) (log w0).
Proof.
  intros H Hin Hg Hc K3 K4.
  destruct (new_building kwargs w0 H) as (w3 & w4 & H3 & _ & Hrest & _ & Ek & E4 & ->).
  destruct (for_each_building kwargs w3 w4 Ek H3 E4)
    as ((Hc4 & Hl4 & Hp4 & Ht4 & Hd4 & Hpar4 & Hs4 & Hdl4 & Hlog4) & _ & Hcoll).
  assert (Hparam : name_in key parameter_names = false).
  { clear -Ek Hin. induction kwargs as [|kv l IH]; [done|].
    cbn [existsb] in Ek. apply orb_false_elim in Ek as [E1 E2].
    destruct Hin as [->|Hin]; [exact E1 | by apply IH]. }
  assert (K1 : key <> "params") by (intros ->; done).
  assert (K2 : key <> "dataloader") by (intros ->; done).
  assert (K0 : key <> "_init_done").
  { intros ->. by rewrite Hclass in Hc. }
  destruct (Hcoll key old (Hrest key K1 K2 K3 K4) Hc Hg) as [Hd Hw].
  cbn [classes this cls params trace dict log].
  assert (Hd0 : <["_init_done" := VBool true]> (dict (this w4)) !! key = None)
    by (by rewrite lookup_insert_ne).
  split_and!; try done.
  - apply read_bridge; cbn [classes this cls params dict]; rewrite ?Hc4, ?Hl4, ?Hp4; try done.
    by rewrite lookup_insert_ne.
  - by eapply Hw.
Qed.

(** X15: Without a loader the constructor only warns: the warning is the first
    record of the log, the engine has no [dataloader] of its own, and
    unless the class or the store provides one, reading it raises
    [AttributeError]. *)
Theorem missing_dataloader_is_only_warned kwargs w0 :
  dataloader = VNone ->
  new cs c p dataloader kwargs = (Ok tt, w0) ->
  (exists rest, log w0 = ("WARNING", no_dataloader_warning) :: rest)
  /\ dict (this w0) !! "dataloader" = None
  /\ (class_attr cs c "dataloader" = None ->
      HyperParameters.getattr p "dataloader" = Raise AttributeError ->
      read "dataloader" w0 = (Raise AttributeError, w0)).
Proof.
  intros Hnone H.
  destruct (new_building kwargs w0 H) as (w3 & w4 & H3 & _ & _ & Hlog3 & Ek & E4 & ->).
  destruct (for_each_building kwargs w3 w4 Ek H3 E4)
    as ((Hc4 & Hl4 & Hp4 & Ht4 & Hd4 & Hpar4 & Hs4 & Hdl4 & Hlog4) & [l Hl] & _).
  rewrite Hnone in *.
  cbn [classes this cls params trace dict log].
  assert (Hd : <["_init_done" := VBool true]> (dict (this w4)) !! "dataloader" = None)
    by (by rewrite lookup_insert_ne).
  split_and!; try done.
  - rewrite Hl, Hlog3. by eexists.
  - intros Hc Hg. unfold read, native. cbn [classes this cls params dict].
    rewrite Hd, Hc4, Hl4, Hc. unfold __getattr__, native. cbn [classes this cls params dict].
    rewrite lookup_insert_ne by done. rewrite Hpar4, Hp4.
    unfold HyperParameters.hasattr. by rewrite Hg.
Qed.

End Building.

(** ** Assignment through the bridge *)

Lemma setattr_native w name v :
  dict (this w) !! "_init_done" = Some (VBool true) ->
  native (classes w) (this w) name <> None ->
  __setattr__ name v w = set_native name v w.
Proof.
  intros Hdone Hn. unfold __setattr__.
  erewrite HyperParametersProps.bind_run by (apply read_native; exact Hdone).
  erewrite HyperParametersProps.bind_run by reflexivity.
  destruct (native (classes w) (this w) name); [|done].
  cbn [truthy andb]. reflexivity.
Qed.

Lemma setattr_absent w name v :
  dict (this w) !! "_init_done" = Some (VBool true) ->
  dict (this w) !! "params" = Some VStore ->
  native (classes w) (this w) name = None ->
  HyperParameters.getattr (params (this w)) name = Raise AttributeError ->
  __setattr__ name v w = set_native name v w.
Proof.
  intros Hdone Hp Hn Hg. unfold __setattr__.
  erewrite HyperParametersProps.bind_run by (apply read_native; exact Hdone).
  erewrite HyperParametersProps.bind_run by reflexivity.
  rewrite Hn. cbn [truthy andb].
  erewrite HyperParametersProps.bind_run; cycle 1.
  { unfold params_has. erewrite HyperParametersProps.bind_run by (apply read_native; exact Hp).
    unfold HyperParameters.hasattr. rewrite Hg. reflexivity. }
  reflexivity.
Qed.

Lemma setattr_property w name v old :
  dict (this w) !! "_init_done" = Some (VBool true) ->
  dict (this w) !! "params" = Some VStore ->
  native (classes w) (this w) name = None ->
  HyperParameters.getattr (params (this w)) name = Ok old ->
  name_in name HyperParameters.property_names = true ->
  __setattr__ name v w = (Raise AttributeError, w).
Proof.
  intros Hdone Hp Hn Hg Hprop. unfold __setattr__.
  erewrite HyperParametersProps.bind_run by (apply read_native; exact Hdone).
  erewrite HyperParametersProps.bind_run by reflexivity.
  rewrite Hn. cbn [truthy andb].
  erewrite HyperParametersProps.bind_run; cycle 1.
  { unfold params_has. erewrite HyperParametersProps.bind_run by (apply read_native; exact Hp).
    unfold HyperParameters.hasattr. rewrite Hg. reflexivity. }
  cbv iota. unfold set_param, HyperParameters.setattr. by rewrite Hprop.
Qed.

(** X16: Where an assignment on a constructed engine goes.  A name the engine
    does not have itself and the store answers is written to the store, and
    reads back through the engine; when that name is a property of the
    store the assignment raises [AttributeError] and changes nothing.  A
    name the engine has, or that the store does not answer either, is
    written to the engine and leaves the store alone.  In each case that
    returns, reading the name afterwards gives the value assigned. *)
Theorem assignment_is_routed w name v :
  dict (this w) !! "_init_done" = Some (VBool true) ->
  dict (this w) !! "params" = Some VStore ->
  (native (classes w) (this w) name = None ->
   forall old, HyperParameters.getattr (params (this w)) name = Ok old ->
     (name_in name HyperParameters.property_names = false ->
      exists w', __setattr__ name v w = (Ok tt, w')
                 /\ params (this w') = <[name := v]> (params (this w))
                 /\ dict (this w') = dict (this w)
                 /\ read name w' = (Ok v, w'))
     /\ (name_in name HyperParameters.property_names = true ->
         __setattr__ name v w = (Raise AttributeError, w)))
  /\ (native (classes w) (this w) name <> None
      \/ (native (classes w) (this w) name = None
          /\ HyperParameters.getattr (params (this w)) name = Raise AttributeError) ->
      exists w', __setattr__ name v w = (Ok tt, w')
                 /\ dict (this w') = <[name := v]> (dict (this w))
                 /\ params (this w') = params (this w)
                 /\ read name w' = (Ok v, w')).
Proof.
  intros Hdone Hp. split.
  - intros Hn old Hg. split.
    + intros Hprop.
      assert (Hd : dict (this w) !! name = None
                   /\ class_attr (classes w) (cls (this w)) name = None).
      { unfold native in Hn. destruct (dict (this w) !! name); [done|]. done. }
      destruct Hd as [Hd Hc].
      exists (with_params w (<[name := v]> (params (this w)))).
      split_and!; try done.
      * by eapply setattr_bridge.
      * apply read_bridge; try done. cbn [with_params this params].
        apply HyperParametersProps.getattr_present; [done|]. by rewrite lookup_insert_eq.
    + intros Hprop. by eapply setattr_property.
  - intros Hcase.
    assert (E : __setattr__ name v w = set_native name v w).
    { destruct Hcase as [Hn|[Hn Hg]]; [by apply setattr_native | by apply setattr_absent]. }
    eexists. split; [rewrite E; reflexivity|]. cbn. split_and!; try done.
    apply read_native. cbn. by rewrite lookup_insert_eq.
Qed.

(** ** Hooks *)

Lemma register_lookup t cls k fn cs cs' :
  register t cls k fn cs = Ok cs' ->
  exists table,
    lookup_table cs cls t = Some table
    /\ lookup_table cs' cls t = Some (add_hook k fn table).
Proof.
  intros Hreg.
  destruct (register_inv _ _ _ _ _ _ Hreg) as (c0 & d & table & Ho & Hd & Ht & ->).
  set (d' := mkClass (cls_mro d) (cls_names d)
               (set_table t (add_hook k fn table) (cls_tables d))).
  assert (Hsome : forall t', is_Some (get_table t' (cls_tables d'))
                             <-> is_Some (get_table t' (cls_tables d))).
  { intros t'. unfold d'. cbn [cls_tables]. rewrite get_set_table.
    destruct (table_eqb t t') eqn:E; [|done].
    apply table_eqb_eq in E. subst t'. rewrite Ht. split; eauto. }
  exists table. split.
  - unfold lookup_table. by rewrite Ho, Hd.
  - rewrite (lookup_table_update cs c0 d d') by done.
    rewrite decide_True by done.
    unfold d'. cbn [cls_tables]. rewrite get_set_table.
    by rewrite (proj2 (table_eqb_eq t t) eq_refl).
Qed.

Section Calls.
Variable uc : UserCode.
Hypothesis hooks_return : forall fn i, exists i', hook_body uc fn i = (Ok tt, i').

Lemma hooks_keep_true fn (i : Instance) :
  True -> exists i', hook_body uc fn i = (Ok tt, i') /\ True.
Proof. intros _. destruct (hooks_return fn i) as [i' E]. by exists i'. Qed.

Lemma add_hook_fresh k fn table :
  Forall (fun kf : Z * list Fn => fst kf <> k) table ->
  add_hook k fn table = table ++ [(k, [fn])].
Proof.
  induction 1 as [|[k1 fns] table Hk _ IH]; [done|].
  cbn [add_hook app]. cbn [fst] in Hk.
  destruct (k1 =? k) eqn:E; [lia|]. by rewrite IH.
Qed.

Lemma run_hooks_until_zero v fns table :
  forall w,
  nonzero_keys table ->
  exists w',
    _run_hooks uc (VInt v) (table ++ [(0, fns)]) w = (Raise ZeroDivisionError, w')
    /\ classes w' = classes w /\ log w' = log w
    /\ trace w' = trace w ++ fired v table.
Proof.
  induction table as [|[k fns1] table IH]; intros w Hnz.
  - exists w. split_and!; try done. by rewrite app_nil_r.
  - apply Forall_cons in Hnz as [Hk Hnz]. cbn [fst] in Hk.
    cbn [app _run_hooks].
    erewrite HyperParametersProps.bind_run by (by apply divides_int).
    assert (Hstep : exists w1,
              (forall B (k0 : unit -> M World B),
                 bind (if v mod k =? 0 then for_each fns1 (call_hook uc) else ret tt) k0 w
                 = k0 tt w1)
              /\ classes w1 = classes w /\ log w1 = log w
              /\ trace w1 = trace w ++ (if v mod k =? 0 then map hook_event fns1 else [])).
    { destruct (v mod k =? 0).
      - destruct (run_then _ _ _ _
                    (run_call_hooks uc (fun _ => True) hooks_keep_true fns1 w I))
          as ([] & w1 & E & Hc & Hl & Ht & _).
        exists w1. done.
      - exists w. split_and!; try done. by rewrite app_nil_r. }
    destruct Hstep as (w1 & E1 & Hc1 & Hl1 & Ht1). rewrite E1.
    destruct (IH w1 Hnz) as (w' & E & Hc & Hl & Ht).
    exists w'. split_and!; try congruence.
    rewrite Ht, Ht1, fired_cons. by rewrite <- app_assoc.
Qed.

(** X17: The decorators take any interval, 0 as well; but once a callback is
    registered under 0 in a table whose other intervals are not 0, every
    dispatch on that table raises [ZeroDivisionError], after it has made the
    calls of the intervals registered before. *)
Theorem zero_interval_breaks_dispatch t cls fn cs cs' table :
  register t cls 0 fn cs = Ok cs' ->
  lookup_table cs cls t = Some table ->
  nonzero_keys table ->
  lookup_table cs' cls t = Some (table ++ [(0, [fn])])
  /\ forall v w, exists w',
       _run_hooks uc (VInt v) (table ++ [(0, [fn])]) w = (Raise ZeroDivisionError, w')
       /\ trace w' = trace w ++ fired v table.
Proof.
  intros Hreg Hlook Hnz. split.
  - destruct (register_lookup _ _ _ _ _ _ Hreg) as (table0 & H0 & H1).
    rewrite H1. rewrite Hlook in H0. injection H0 as <-.
    f_equal. apply add_hook_fresh. exact Hnz.
  - intros v w. destruct (run_hooks_until_zero v [fn] table w Hnz) as (w' & E & _ & _ & Ht).
    by exists w'.
Qed.

Lemma calls_hooks g fns :
  calls g (map hook_event fns) = length (List.filter (fn_eqb g) fns).
Proof.
  unfold calls. induction fns as [|f fns IH]; [done|].
  cbn [map List.filter hook_event]. destruct (fn_eqb g f); cbn [length]; by rewrite IH.
Qed.

Lemma calls_add_hook g v k fn table :
  calls g (fired v (add_hook k fn table))
  = (calls g (fired v table)
     + (if (v mod k =? 0)%Z && fn_eqb g fn then 1 else 0))%nat.
Proof.
  induction table as [|[k1 fns] table IH].
  - cbn [add_hook]. rewrite fired_cons. cbn [fired flat_map]. rewrite app_nil_r.
    destruct (v mod k =? 0); [|done]. rewrite calls_hooks. cbn [List.filter andb].
    by destruct (fn_eqb g fn).
  - cbn [add_hook]. destruct (k1 =? k) eqn:E.
    + apply Z.eqb_eq in E as ->. rewrite !fired_cons, !calls_app.
      destruct (v mod k =? 0); cbn [andb]; [|unfold calls at 1 3; simpl; lia].
      rewrite !calls_hooks, List.filter_app, length_app. cbn [List.filter].
      destruct (fn_eqb g fn); cbn [length]; lia.
    + rewrite !fired_cons, !calls_app, IH. lia.
Qed.

(** X18: Registering a callback under an interval adds exactly one call of it
    to every dispatch on a multiple of the interval and none to the others:
    the calls of every other callback are as many as before, and a callback
    registered under the default interval 1 is called at every dispatch. *)
Theorem registration_adds_one_call k fn table v w :
  nonzero_keys table -> k <> 0 ->
  exists w',
    _run_hooks uc (VInt v) (add_hook k fn table) w = (Ok tt, w')
    /\ trace w' = trace w ++ fired v (add_hook k fn table)
    /\ (forall g, calls g (fired v (add_hook k fn table))
                  = (calls g (fired v table)
                     + (if (v mod k =? 0)%Z && fn_eqb g fn then 1 else 0))%nat)
    /\ (k = 1 -> calls fn (fired v (add_hook k fn table))
                 = S (calls fn (fired v table))).
Proof.
  intros Hnz Hk.
  destruct (run_hooks_fired uc (fun _ => True) hooks_keep_true
              (add_hook k fn table) v w (add_hook_nonzero k fn table Hk Hnz) I)
    as ([] & w' & E & _ & _ & Ht & _).
  exists w'. split_and!; [exact E | exact Ht | intros g; apply calls_add_hook |].
  intros ->. rewrite calls_add_hook, Z.mod_1_r, fn_eqb_refl. cbn. lia.
Qed.

End Calls.

(** ** The cycle *)

Lemma dispatched_mini tab t b g :
  table_eqb t BatchStart = false -> dispatched t (flat_map (mini tab b) g) = [].
Proof.
  intros Ht. induction g as [|d g IH]; [done|].
  cbn [flat_map]. rewrite dispatched_app, IH, app_nil_r.
  unfold mini. change (?x :: ?l ++ ?r) with ([x] ++ l ++ r).
  rewrite !dispatched_app. destruct (fired_only b (tab BatchStart)) as (_ & _ & ->).
  cbn. by rewrite Ht.
Qed.

Lemma dispatched_completion tab t b :
  table_eqb t BatchEnd = false -> dispatched t (completion tab b) = [].
Proof.
  intros Ht. unfold completion. rewrite !dispatched_app.
  destruct (fired_only b (tab BatchEnd)) as (_ & _ & ->).
  cbn. by rewrite Ht.
Qed.

Lemma dispatched_group tab t b g :
  table_eqb t BatchStart = false -> table_eqb t BatchEnd = false ->
  dispatched t (group tab b g) = [].
Proof.
  intros H1 H2. unfold group.
  by rewrite dispatched_app, dispatched_mini, dispatched_completion.
Qed.

Lemma dispatched_groups tab t n size :
  table_eqb t BatchStart = false -> table_eqb t BatchEnd = false ->
  forall b items, dispatched t (groups_trace tab n size b items) = [].
Proof.
  intros H1 H2. induction n as [|n IH]; intros b items; [done|].
  cbn [groups_trace]. by rewrite dispatched_app, dispatched_group, IH.
Qed.

Lemma dispatched_epoch tab e evs :
  dispatched EpochStart evs = [] -> dispatched EpochEnd evs = [] ->
  dispatched EpochStart (epoch_trace tab e evs) = [VInt e]
  /\ dispatched EpochEnd (epoch_trace tab e evs) = [VInt e].
Proof.
  intros H1 H2. unfold epoch_trace.
  change (?x :: ?l) with ([x] ++ l).
  rewrite !dispatched_app, H1, H2.
  destruct (fired_only e (tab EpochStart)) as (_ & _ & F1).
  destruct (fired_only e (tab EpochEnd)) as (_ & _ & F2).
  rewrite !F1, !F2. done.
Qed.

Section Epochs.
Variable uc : UserCode.
Variable cs : gmap string ClassDef.
Variable c : string.
Variables bsz mbsz : Z.
Variable loader : list Value.
Variable tab : Table -> HookTable.

Local Abbreviation steady := (Engine.steady c bsz mbsz loader).
Local Abbreviation sub := (Engine.sub bsz mbsz).

Hypothesis Hstatic : static cs c mbsz tab.
Hypothesis Hstable : stable uc c bsz mbsz loader.

(** One turn of [while True] on any loader. *)
Lemma epoch_whole e b w :
  classes w = cs -> steady e b (this w) -> 0 < sub ->
  let N := Z.of_nat (length loader) in
  exists w' evs,
    epoch uc w = (Ok false, w') /\ classes w' = cs /\ log w' = log w
    /\ trace w' = trace w ++ evs
    /\ steady (e + 1) (b + N / sub) (this w')
    /\ trains evs = Z.to_nat (N / sub)
    /\ processed evs = (if N <? sub then loader
                        else take (Z.to_nat (N / sub * sub)) loader)
    /\ dispatched EpochStart evs = [VInt (e + 1)]
    /\ dispatched EpochEnd evs = [VInt (e + 1)].
Proof.
  intros Hcs Hst Hsub N.
  pose proof (Z.div_mod N sub ltac:(lia)) as Hdm.
  pose proof (Z.mod_pos_bound N sub Hsub) as Hmod.
  assert (Hq : 0 <= N / sub) by (apply Z.div_pos; lia).
  destruct (N <? sub) eqn:Elt.
  - apply Z.ltb_lt in Elt.
    assert (Hz : N / sub = 0) by (apply Z.div_small; lia).
    destruct (epoch_run uc cs c bsz mbsz loader tab Hstatic Hstable
                e b b w Exhausted (flat_map (mini tab (b + 1)) loader) Hcs Hst)
      as (w2 & E & Hc2 & Hl2 & Ht & H2); [done| |].
    + intros w0 Hc0 H0.
      destruct (loop_incomplete uc cs c bsz mbsz loader tab Hstatic Hstable
                  N loader 0 (e + 1) b w0 Hc0 H0) as (w1 & E1 & ?); [lia| |].
      * intros k Hk. rewrite Z.add_0_l, Z.mod_small by lia. lia.
      * exists w1. split; [exact E1 | assumption].
    + exists w2, (epoch_trace tab (e + 1) (flat_map (mini tab (b + 1)) loader)).
      destruct (epoch_projections tab (e + 1) (flat_map (mini tab (b + 1)) loader))
        as (P1 & P2 & _).
      destruct (mini_projections tab (b + 1) loader) as (M1 & M2 & _).
      destruct (dispatched_epoch tab (e + 1) (flat_map (mini tab (b + 1)) loader))
        as (D1 & D2); [by apply dispatched_mini..|].
      rewrite Hz, Z.add_0_r.
      split_and!; try done.
      * by rewrite P1, M1.
      * by rewrite P2, M2.
  - apply Z.ltb_ge in Elt.
    assert (Hq1 : 1 <= N / sub).
    { apply Z.div_le_lower_bound; lia. }
    set (n := Z.to_nat (N / sub - 1)).
    assert (Hn : Z.of_nat (S n) = N / sub) by (unfold n; lia).
    destruct (epoch_run uc cs c bsz mbsz loader tab Hstatic Hstable
                e b (b + Z.of_nat (S n)) w Broke
                (groups_trace tab (S n) (Z.to_nat sub) b loader) Hcs Hst)
      as (w2 & E & Hc2 & Hl2 & Ht & H2); [done| |].
    + intros w0 Hc0 H0.
      destruct (loop_whole_batches uc cs c bsz mbsz loader tab Hstatic Hstable
                  N n loader 0 (N mod sub) (e + 1) b w0 Hc0 H0)
        as (w1 & E1 & ?); try done; try lia.
      exists w1. split; [exact E1 | assumption].
    + exists w2, (epoch_trace tab (e + 1) (groups_trace tab (S n) (Z.to_nat sub) b loader)).
      destruct (epoch_projections tab (e + 1)
                  (groups_trace tab (S n) (Z.to_nat sub) b loader)) as (P1 & P2 & _).
      destruct (groups_projections tab (S n) (Z.to_nat sub) b loader) as (G1 & G2).
      { unfold N in *. nia. }
      destruct (dispatched_epoch tab (e + 1)
                  (groups_trace tab (S n) (Z.to_nat sub) b loader))
        as (D1 & D2); [by apply dispatched_groups..|].
      rewrite Hn in H2.
      split_and!; try done.
      * rewrite P1, G1. lia.
      * rewrite P2, G2. f_equal. nia.
Qed.

(** X19: One epoch over a loader of [N] mini-batches, with user code that
    returns normally and a [quit] that answers false: the epoch counter
    goes up by one and is dispatched once to the epoch-start and once to the
    epoch-end hooks; [train_batch] is called [N // batch_subdivisions]
    times and the batch counter goes up by as much; the mini-batches behind
    the last whole batch are not processed, unless the loader holds no whole
    batch, in which case all of them are processed and nothing is
    trained. *)
Theorem epoch_advances_counters e b w :
  classes w = cs -> steady e b (this w) -> 0 < sub ->
  let N := Z.of_nat (length loader) in
  exists w' evs,
    epoch uc w = (Ok false, w')
    /\ trace w' = trace w ++ evs /\ log w' = log w
    /\ steady (e + 1) (b + N / sub) (this w')
    /\ trains evs = Z.to_nat (N / sub)
    /\ processed evs = (if N <? sub then loader
                        else take (Z.to_nat (N / sub * sub)) loader)
    /\ dispatched EpochStart evs = [VInt (e + 1)]
    /\ dispatched EpochEnd evs = [VInt (e + 1)].
Proof.
  intros Hcs Hst Hsub N.
  destruct (epoch_whole e b w Hcs Hst Hsub)
    as (w' & evs & E & _ & Hl & Ht & H' & T & P & D1 & D2).
  exists w', evs. split_and!; assumption.
Qed.

Lemma epochs_whole n :
  forall e b w,
  classes w = cs -> steady e b (this w) -> 0 < sub ->
  let N := Z.of_nat (length loader) in
  exists w' evs,
    epochs uc n w = (Ok false, w')
    /\ trace w' = trace w ++ evs /\ log w' = log w /\ classes w' = cs
    /\ steady (e + Z.of_nat n) (b + Z.of_nat n * (N / sub)) (this w')
    /\ trains evs = (n * Z.to_nat (N / sub))%nat.
Proof.
  induction n as [|n IH]; intros e b w Hcs Hst Hsub N.
  - exists w, []. cbn [epochs]. rewrite app_nil_r.
    replace (e + Z.of_nat 0) with e by lia.
    replace (b + Z.of_nat 0 * (N / sub)) with b by lia. done.
  - destruct (epoch_whole e b w Hcs Hst Hsub)
      as (w1 & evs1 & E1 & Hc1 & Hl1 & Ht1 & H1 & T1 & _).
    destruct (IH (e + 1) (b + N / sub) w1 Hc1 H1 Hsub)
      as (w2 & evs2 & E2 & Ht2 & Hl2 & Hc2 & H2 & T2).
    exists w2, (evs1 ++ evs2). cbn [epochs].
    erewrite HyperParametersProps.bind_run by exact E1.
    split_and!; try congruence.
    + rewrite Ht2, Ht1. by rewrite <- app_assoc.
    + replace (e + Z.of_nat (S n)) with (e + 1 + Z.of_nat n) by lia.
      replace (b + Z.of_nat (S n) * (N / sub))
        with (b + N / sub + Z.of_nat n * (N / sub)) by lia.
      exact H2.
    + rewrite trains_app, T1, T2. fold N. lia.
Qed.

(** X20: The cycle has no end of its own: as long as [quit] answers false and no
    interrupt arrives it has not returned after any number of epochs; after
    [n] of them the epoch counter has gone up by [n], the batch counter and
    the number of [train_batch] calls by [n] times the whole batches of the
    loader, and nothing was logged. *)
Theorem cycle_runs_until_quit n e b w :
  classes w = cs -> steady e b (this w) -> 0 < sub ->
  let N := Z.of_nat (length loader) in
  exists w' evs,
    epochs uc n w = (Ok false, w')
    /\ trace w' = trace w ++ evs /\ log w' = log w /\ classes w' = cs
    /\ steady (e + Z.of_nat n) (b + Z.of_nat n * (N / sub)) (this w')
    /\ trains evs = (n * Z.to_nat (N / sub))%nat.
Proof. apply epochs_whole. Qed.

End Epochs.

Section Calling.
Variable uc : UserCode.
Variable cs : gmap string ClassDef.
Variable c : string.
Variables bsz mbsz : Z.
Variable loader : list Value.
Variable tab : Table -> HookTable.

Local Abbreviation steady := (Engine.steady c bsz mbsz loader).
Local Abbreviation sub := (Engine.sub bsz mbsz).
Local Abbreviation cycle := (with_default_start uc).

Hypothesis Hstatic : static cs c mbsz tab.

(** Of the user code that runs in the cycle; nothing is asked of [start]. *)
Hypothesis Hcycle : stable cycle c bsz mbsz loader.

Lemma epochs_cycle n : epochs cycle n = epochs uc n.
Proof. reflexivity. Qed.

(** X21: Calling the engine runs [start] before anything else, on the engine
    as it is: when [start] raises, the call raises with it, nothing was
    logged and the model was not touched.  When [start] has returned, the
    start of the training is logged, on the engine [start] left, and then
    [self.network] is read: when that raises the call raises after the log
    record, before the cycle.  When [start] has left an engine that is
    ready, its dataloader in place, be it that [start] created it, the
    model is put in training mode and the cycle entered, which the call
    does not leave by itself: for any number of epochs it is cut off after,
    it has not returned. *)
Theorem call_starts_then_cycles fuel w :
  (forall e i', start uc (this w) = (Raise e, i') ->
     __call__ uc fuel w
     = (Raise e, mkWorld (classes w) i' (trace w ++ [EvStart]) (log w)))
  /\ (forall i', start uc (this w) = (Ok tt, i') ->
        let w1 := mkWorld (classes w) i' (trace w ++ [EvStart])
                    (log w ++ [("INFO", "Start training")]) in
        (forall e w2, read "network" w1 = (Raise e, w2) ->
           __call__ uc fuel w = (Raise e, w2))
        /\ (forall e b a,
              classes w = cs -> steady e b i' -> 0 < sub ->
              class_attr cs c "network" = None ->
              dict i' !! "network" = None -> params i' !! "network" = Some (VRef a) ->
              let N := Z.of_nat (length loader) in
              exists w' evs,
                __call__ uc fuel w = (Ok false, w')
                /\ trace w' = trace w ++ [EvStart; EvNetworkTrain] ++ evs
                /\ log w' = log w ++ [("INFO", "Start training")]
                /\ steady (e + Z.of_nat fuel) (b + Z.of_nat fuel * (N / sub)) (this w')
                /\ trains evs = (fuel * Z.to_nat (N / sub))%nat)).
Proof.
  split.
  - intros e i' Es. unfold __call__.
    erewrite HyperParametersProps.bind_run by reflexivity.
    erewrite HyperParametersProps.bind_raise; [reflexivity|].
    unfold user. cbn [this classes trace log emit modify snd]. by rewrite Es.
  - intros i' Es w1.
    assert (Hhead : forall A (k : Value -> M World A),
              (emit EvStart ;; user (start uc) ;; log_record "INFO" "Start training" ;;
               do net <- read "network"; k net) w
              = (do net <- read "network"; k net) w1).
    { intros A k.
      erewrite HyperParametersProps.bind_run by reflexivity.
      erewrite HyperParametersProps.bind_run
        by (unfold user; cbn [this emit modify snd]; rewrite Es; reflexivity).
      erewrite HyperParametersProps.bind_run by reflexivity.
      reflexivity. }
    split.
    + intros e w2 Hr. unfold __call__. rewrite Hhead.
      by erewrite HyperParametersProps.bind_raise by exact Hr.
    + intros e b a Hcs Hi Hsub Hclass Hd Hp N.
      set (w3 := mkWorld (classes w) i' ((trace w ++ [EvStart]) ++ [EvNetworkTrain])
                   (log w ++ [("INFO", "Start training")])).
      destruct (epochs_whole cycle cs c bsz mbsz loader tab Hstatic Hcycle
                  fuel e b w3 Hcs Hi Hsub)
        as (w' & evs & E & Ht & Hl & _ & H' & T).
      rewrite epochs_cycle in E.
      exists w', evs. split_and!; try done.
      * unfold __call__. rewrite Hhead.
        erewrite HyperParametersProps.bind_run; cycle 1.
        { apply (read_bridge _ "network" (VRef a)); cbn [this classes w1];
            rewrite ?Hcs, ?(st_cls _ _ _ Hi); try done.
          - apply (st_params _ _ _ Hi).
          - by apply HyperParametersProps.getattr_present. }
        erewrite HyperParametersProps.bind_run by reflexivity.
        exact E.
      * rewrite Ht. cbn [trace w3]. by rewrite <- !app_assoc.
Qed.

End Calling.

(** ** Leaving the cycle *)

Section Quitting.
Variable uc : UserCode.
Variable cs : gmap string ClassDef.
Variable c : string.
Variables bsz mbsz : Z.
Variable loader : list Value.
Variable tab : Table -> HookTable.

Local Abbreviation steady := (Engine.steady c bsz mbsz loader).
Local Abbreviation sub := (Engine.sub bsz mbsz).
Local Abbreviation calm := (with_default_quit uc).

Hypothesis Hstatic : static cs c mbsz tab.
(* [start], [process_batch], [train_batch] and the hooks return normally *)
Hypothesis Hcalm : stable calm c bsz mbsz loader.
(* and [quit] answers a true value *)
Hypothesis Hquit : forall e b i, steady e b i ->
  exists v i', quit uc i = (Ok v, i') /\ truthy v = true /\ steady e b i'.

Lemma dispatch_calm counter t : dispatch calm counter t = dispatch uc counter t.
Proof. reflexivity. Qed.

Lemma quitting_mini_batch len idx d rest e b w :
  classes w = cs -> steady e b (this w) ->
  exists w1,
    classes w1 = cs /\ log w1 = log w /\ trace w1 = trace w ++ mini tab (b + 1) d
    /\ steady e (b + 1) (this w1)
    /\ batch_loop uc len idx (d :: rest) w =
       (do r <- lift (pymod (idx + 1) sub);
        if negb (r =? 0) then
          add_to "batch" (-1) ;; batch_loop uc len (idx + 1) rest
        else
          emit EvTrain ;; user (train_batch uc) ;; dispatch uc "batch" BatchEnd ;;
          do q <- quit_or_sigint uc;
          if q then quitting ;; ret Returned
          else do sub <- read_int "batch_subdivisions";
               if len - idx <=? sub then ret Broke
               else batch_loop uc len (idx + 1) rest) w1.
Proof.
  intros Hcs Hst. cbn [batch_loop].
  destruct (run_then _ _ _ _ (run_add_batch cs c bsz mbsz loader tab Hstatic 1 e b w Hcs Hst))
    as ([] & w1 & E1 & Hc1 & Hl1 & Ht1 & H1). rewrite E1. clear E1.
  rewrite Hcs in Hc1.
  destruct (run_then _ _ _ _
              (run_dispatch_batch calm cs c bsz mbsz loader tab Hstatic Hcalm
                 BatchStart e (b + 1) w1 Hc1 H1))
    as ([] & w2 & E2 & Hc2 & Hl2 & Ht2 & H2).
  rewrite dispatch_calm in E2. rewrite E2. clear E2.
  rewrite Hc1 in Hc2.
  destruct (run_then _ _ _ _ (run_emit w2 (EvProcess d) _ H2))
    as ([] & w3 & E3 & Hc3 & Hl3 & Ht3 & H3). rewrite E3. clear E3.
  rewrite Hc2 in Hc3.
  assert (Hu : run (user (process_batch uc d)) w3 [] (fun _ i => steady e (b + 1) i)).
  { apply run_user. destruct (sb_process Hcalm d _ _ _ H3) as (i' & Hp & Hi).
    exists tt, i'. done. }
  destruct (run_then _ _ _ _ Hu) as ([] & w4 & E4 & Hc4 & Hl4 & Ht4 & H4).
  rewrite E4. clear E4. rewrite Hc3 in Hc4.
  erewrite HyperParametersProps.bind_run
    by (by eapply (read_subdivisions cs c bsz mbsz loader tab Hstatic)).
  exists w4. split_and!; try congruence.
  rewrite Ht4, Ht3, Ht2, Ht1. unfold mini.
  rewrite !app_nil_r, <- !app_assoc. reflexivity.
Qed.

Lemma quitting_partial_step len idx d rest e b w :
  classes w = cs -> steady e b (this w) -> sub <> 0 -> (idx + 1) mod sub <> 0 ->
  exists w1,
    classes w1 = cs /\ log w1 = log w /\ trace w1 = trace w ++ mini tab (b + 1) d
    /\ steady e b (this w1)
    /\ batch_loop uc len idx (d :: rest) w = batch_loop uc len (idx + 1) rest w1.
Proof.
  intros Hcs Hst Hsub Hmod.
  destruct (quitting_mini_batch len idx d rest e b w Hcs Hst)
    as (w1 & Hc1 & Hl1 & Ht1 & H1 & E). rewrite E. clear E.
  unfold pymod. destruct (sub =? 0) eqn:Es; [lia|].
  erewrite HyperParametersProps.bind_run by reflexivity.
  destruct ((idx + 1) mod sub =? 0) eqn:Em; [lia|]. cbn [negb].
  destruct (run_then _ _ _ _
              (run_add_batch cs c bsz mbsz loader tab Hstatic (-1) e (b + 1) w1 Hc1 H1))
    as ([] & w2 & E2 & Hc2 & Hl2 & Ht2 & H2). rewrite E2. clear E2.
  replace (b + 1 + -1) with b in H2 by lia.
  exists w2. split_and!; try congruence.
  rewrite Ht2, Ht1, app_nil_r. reflexivity.
Qed.

Lemma quitting_check e b w :
  classes w = cs -> steady e b (this w) ->
  exists w1,
    quit_or_sigint uc w = (Ok true, w1)
    /\ classes w1 = cs /\ log w1 = log w /\ trace w1 = trace w ++ [EvQuit]
    /\ steady e b (this w1).
Proof.
  intros Hcs Hst. unfold quit_or_sigint.
  erewrite HyperParametersProps.bind_run by reflexivity.
  destruct (Hquit e b _ Hst) as (v & i' & Eq & Hv & Hi).
  erewrite HyperParametersProps.bind_run; cycle 1.
  { unfold user. cbn [this emit modify snd]. rewrite Eq. reflexivity. }
  rewrite Hv. eexists. split; [reflexivity|]. cbn. done.
Qed.

Lemma quitting_step len idx d rest e b w :
  classes w = cs -> steady e b (this w) -> sub <> 0 -> (idx + 1) mod sub = 0 ->
  exists w1,
    batch_loop uc len idx (d :: rest) w = (Ok Returned, w1)
    /\ classes w1 = cs
    /\ log w1 = log w ++ [("INFO", "Reached quitting criteria")]
    /\ trace w1 = trace w ++ mini tab (b + 1) d ++ completion tab (b + 1)
    /\ steady e (b + 1) (this w1).
Proof.
  intros Hcs Hst Hsub Hmod.
  destruct (quitting_mini_batch len idx d rest e b w Hcs Hst)
    as (w1 & Hc1 & Hl1 & Ht1 & H1 & E). rewrite E. clear E.
  unfold pymod. destruct (sub =? 0) eqn:Es; [lia|].
  erewrite HyperParametersProps.bind_run by reflexivity.
  rewrite Hmod. cbn [Z.eqb negb].
  destruct (run_then _ _ _ _ (run_emit w1 EvTrain _ H1))
    as ([] & w2 & E2 & Hc2 & Hl2 & Ht2 & H2). rewrite E2. clear E2.
  rewrite Hc1 in Hc2.
  assert (Hu : run (user (train_batch uc)) w2 [] (fun _ i => steady e (b + 1) i)).
  { apply run_user. destruct (sb_train Hcalm _ _ _ H2) as (i' & Hp & Hi).
    exists tt, i'. done. }
  destruct (run_then _ _ _ _ Hu) as ([] & w3 & E3 & Hc3 & Hl3 & Ht3 & H3).
  rewrite E3. clear E3. rewrite Hc2 in Hc3.
  destruct (run_then _ _ _ _
              (run_dispatch_batch calm cs c bsz mbsz loader tab Hstatic Hcalm
                 BatchEnd e (b + 1) w3 Hc3 H3))
    as ([] & w4 & E4 & Hc4 & Hl4 & Ht4 & H4).
  rewrite dispatch_calm in E4. rewrite E4. clear E4.
  rewrite Hc3 in Hc4.
  destruct (quitting_check e (b + 1) w4 Hc4 H4) as (w5 & E5 & Hc5 & Hl5 & Ht5 & H5).
  erewrite HyperParametersProps.bind_run by exact E5.
  eexists. split; [reflexivity|]. cbn [classes log trace this].
  split_and!; try congruence.
  rewrite Ht5, Ht4, Ht3, Ht2, Ht1. unfold completion.
  rewrite !app_nil_r, <- !app_assoc. reflexivity.
Qed.

Lemma quitting_group len rest g :
  forall idx e b w,
  classes w = cs -> steady e b (this w) -> sub <> 0 -> g <> [] ->
  (forall k, 1 <= k < Z.of_nat (length g) -> (idx + k) mod sub <> 0) ->
  (idx + Z.of_nat (length g)) mod sub = 0 ->
  exists w1,
    batch_loop uc len idx (g ++ rest) w = (Ok Returned, w1)
    /\ classes w1 = cs
    /\ log w1 = log w ++ [("INFO", "Reached quitting criteria")]
    /\ trace w1 = trace w ++ group tab (b + 1) g
    /\ steady e (b + 1) (this w1).
Proof.
  induction g as [|d g IH]; intros idx e b w Hcs Hst Hsub Hne Hmid Hend; [done|].
  destruct g as [|d' g].
  - simpl length in *. simpl app.
    destruct (quitting_step len idx d rest e b w Hcs Hst Hsub Hend)
      as (w1 & E & Hc1 & Hl1 & Ht1 & H1).
    exists w1. split_and!; try done.
    rewrite Ht1. unfold group. simpl flat_map. by rewrite app_nil_r.
  - assert (Hm1 : (idx + 1) mod sub <> 0).
    { apply Hmid. simpl length. lia. }
    change ((d :: d' :: g) ++ rest) with (d :: ((d' :: g) ++ rest)).
    destruct (quitting_partial_step len idx d ((d' :: g) ++ rest) e b w Hcs Hst Hsub Hm1)
      as (w1 & Hc1 & Hl1 & Ht1 & H1 & E). rewrite E. clear E.
    destruct (IH (idx + 1) e b w1 Hc1 H1 Hsub) as (w2 & E2 & Hc2 & Hl2 & Ht2 & H2).
    + done.
    + intros k Hk. replace (idx + 1 + k) with (idx + (k + 1)) by lia.
      apply Hmid. simpl length in *. lia.
    + replace (idx + 1 + Z.of_nat (length (d' :: g)))
        with (idx + Z.of_nat (length (d :: d' :: g))) by (simpl length; lia).
      exact Hend.
    + exists w2. split_and!; try congruence.
      rewrite Ht2, Ht1. unfold group. cbn [flat_map]. by rewrite <- !app_assoc.
Qed.

(** X22: When [quit] answers a true value the cycle returns at the first check,
    which comes after the first whole accumulation batch: the batch is
    trained once, the mini-batches behind it are not processed, the
    epoch-end hooks of the running epoch are not dispatched, and the only
    record logged is the one of the quitting criteria.  The other methods
    and the hooks are taken to return normally and to leave the control
    fields of the engine alone, which is said as: the user code is stable
    once the [quit] of the base class stands in for its own. *)
Theorem quit_stops_after_the_batch g rest e b w :
  loader = g ++ rest -> Z.of_nat (length g) = sub -> 0 < sub ->
  classes w = cs -> steady e b (this w) ->
  exists w' evs,
    epoch uc w = (Ok true, w')
    /\ (forall n, epochs uc (S n) w = (Ok true, w'))
    /\ trace w' = trace w ++ evs
    /\ evs = (EvDispatch EpochStart (VInt (e + 1)) :: fired (e + 1) (tab EpochStart))
             ++ group tab (b + 1) g
    /\ trains evs = 1%nat /\ processed evs = g
    /\ dispatched EpochEnd evs = []
    /\ log w' = log w ++ [("INFO", "Reached quitting criteria")]
    /\ steady (e + 1) (b + 1) (this w').
Proof.
  intros Hload Hlen Hsub Hcs Hst.
  assert (E : exists w',
            epoch uc w = (Ok true, w')
            /\ trace w' = trace w
                 ++ (EvDispatch EpochStart (VInt (e + 1)) :: fired (e + 1) (tab EpochStart))
                 ++ group tab (b + 1) g
            /\ log w' = log w ++ [("INFO", "Reached quitting criteria")]
            /\ steady (e + 1) (b + 1) (this w')).
  { unfold epoch.
    destruct (run_then _ _ _ _ (run_add_epoch cs c bsz mbsz loader tab Hstatic 1 e b w Hcs Hst))
      as ([] & w1 & E1 & Hc1 & Hl1 & Ht1 & H1). rewrite E1. clear E1.
    rewrite Hcs in Hc1.
    destruct (run_then _ _ _ _
                (run_dispatch_epoch calm cs c bsz mbsz loader tab Hstatic Hcalm
                   EpochStart (e + 1) b w1 Hc1 H1))
      as ([] & w2 & E2 & Hc2 & Hl2 & Ht2 & H2).
    rewrite dispatch_calm in E2. rewrite E2. clear E2.
    rewrite Hc1 in Hc2.
    erewrite HyperParametersProps.bind_run by (apply read_native; apply (st_loader _ _ _ H2)).
    erewrite HyperParametersProps.bind_run by reflexivity.
    destruct (quitting_group (Z.of_nat (length loader)) rest g 0 (e + 1) b w2 Hc2 H2)
      as (w3 & E3 & Hc3 & Hl3 & Ht3 & H3).
    - lia.
    - intros ->. simpl in Hlen. lia.
    - intros k Hk. rewrite Z.add_0_l, Z.mod_small by lia. lia.
    - rewrite Z.add_0_l, Hlen. apply Z.mod_same. lia.
    - rewrite <- Hload in E3.
      erewrite HyperParametersProps.bind_run by exact E3.
      exists w3. split_and!; [reflexivity | | congruence | exact H3].
      rewrite Ht3, Ht2, Ht1. by rewrite app_nil_r, <- app_assoc. }
  destruct E as (w' & E & Ht & Hl & H').
  destruct (group_projections tab (b + 1) g) as (G1 & G2 & _).
  destruct (fired_only (e + 1) (tab EpochStart)) as (F1 & F2 & F3).
  eexists w', _. split_and!; [exact E | | exact Ht | reflexivity | | | | exact Hl | exact H'].
  - intros n. cbn [epochs]. by erewrite HyperParametersProps.bind_run by exact E.
  - change (?x :: ?l) with ([x] ++ l). rewrite !trains_app, F1, G1. reflexivity.
  - change (?x :: ?l) with ([x] ++ l). rewrite !processed_app, F2, G2. reflexivity.
  - change (?x :: ?l) with ([x] ++ l). rewrite !dispatched_app, F3.
    by rewrite dispatched_group.
Qed.

End Quitting.

(** X23: Once the interrupt handler has run on a constructed engine, the next
    check of the quitting criteria answers true whatever [quit] returns;
    [quit] is still called first, as it is before the signal, when its
    answer alone decides. *)
Theorem interrupt_stops_at_next_check uc cs c p dataloader kwargs w0 :
  class_attr cs c "_init_done" = Some (VBool false) ->
  new cs c p dataloader kwargs = (Ok tt, w0) ->
  (forall i, exists v i', quit uc i = (Ok v, i')
                          /\ dict i' !! "sigint" = dict i !! "sigint") ->
  (exists v w', quit_or_sigint uc w0 = (Ok (truthy v), w')
                /\ fst (quit uc (this w0)) = Ok v
                /\ trace w' = trace w0 ++ [EvQuit])
  /\ exists w1,
       __sigint_handler w0 = (Ok tt, w1)
       /\ exists w2, quit_or_sigint uc w1 = (Ok true, w2)
                     /\ trace w2 = trace w1 ++ [EvQuit]
                     /\ log w2 = log w1.
Proof.
  intros Hclass Hnew Hq.
  destruct (new_constructed cs c Hclass _ _ _ _ Hnew) as (_ & _ & Hdone & Hsig & _).
  assert (Hcheck : forall w s, dict (this w) !! "sigint" = Some (VBool s) ->
            exists v w', quit_or_sigint uc w = (Ok (truthy v || s), w')
                         /\ fst (quit uc (this w)) = Ok v
                         /\ trace w' = trace w ++ [EvQuit] /\ log w' = log w).
  { intros w s Hs. unfold quit_or_sigint.
    erewrite HyperParametersProps.bind_run by reflexivity.
    destruct (Hq (this w)) as (v & i' & Eq & Hkeep).
    erewrite HyperParametersProps.bind_run; cycle 1.
    { unfold user. cbn [this emit modify snd]. rewrite Eq. reflexivity. }
    exists v. rewrite Eq. cbn [fst snd].
    destruct (truthy v); [eexists; split; [reflexivity|]; done|].
    erewrite HyperParametersProps.bind_run; cycle 1.
    { apply read_native. cbn [this dict]. rewrite Hkeep. exact Hs. }
    eexists. split; [reflexivity|]. done. }
  split.
  - destruct (Hcheck w0 false Hsig) as (v & w' & E & Ev & Ht & _).
    rewrite orb_false_r in E. by exists v, w'.
  - rewrite (handler_first w0 Hdone Hsig). eexists. split; [reflexivity|].
    match goal with |- exists w2, quit_or_sigint uc ?w1 = _ /\ _ =>
      destruct (Hcheck w1 true) as (v & w' & E & _ & Ht & Hl) end.
    { cbn [this dict]. by rewrite lookup_insert_eq. }
    rewrite orb_true_r in E. by exists w'.
Qed.

(** ** The session of the examples *)

Lemma demo_class : class_attr Demo.hooked_classes "Trainer" "_init_done" = Some (VBool false).
Proof. vm_compute. reflexivity. Qed.

Lemma demo_new_with_keyword :
  new Demo.hooked_classes "Trainer" Demo.store (VList Demo.ten) [("batch_size", VInt 3)]
  = (Ok tt, Demo.trainer_with_keyword).
Proof. vm_compute. reflexivity. Qed.

Lemma demo_new_without_loader :
  new Demo.hooked_classes "Trainer" Demo.store VNone [] = (Ok tt, Demo.trainer_without_loader).
Proof. vm_compute. reflexivity. Qed.

Lemma demo_register_zero :
  register BatchStart "Trainer" 0 Demo.plot Demo.two_classes = Ok Demo.zero_hooked.
Proof. vm_compute. reflexivity. Qed.

Lemma demo_hooks_return fn (i : Instance) :
  exists i', hook_body Demo.user_code fn i = (Ok tt, i').
Proof. by eexists. Qed.

Lemma engine_construction_leaves_store_witness :
  params (this Demo.trainer) = Demo.store
  /\ trace Demo.trainer = [EvSignalHandler]
  /\ dict (this Demo.trainer) !! "dataloader" = Some (VList Demo.ten).
Proof.
  destruct (engine_construction_leaves_store Demo.hooked_classes "Trainer" Demo.store
              (VList Demo.ten) demo_class [] Demo.trainer demo_new)
    as (_ & _ & Hp & Ht & _ & _ & _ & Hd & _).
  split_and!; [exact Hp | exact Ht | exact Hd].
Defined.

Lemma engine_keyword_never_overrides_witness :
  dict (this Demo.trainer_with_keyword) !! "batch_size" = None
  /\ read "batch_size" Demo.trainer_with_keyword
     = (Ok (VInt 8), Demo.trainer_with_keyword)
  /\ In ("WARNING", exists_warning "batch_size") (log Demo.trainer_with_keyword).
Proof.
  destruct (engine_keyword_never_overrides Demo.hooked_classes "Trainer" Demo.store
              (VList Demo.ten) demo_class [("batch_size", VInt 3)]
              Demo.trainer_with_keyword "batch_size" (VInt 3) (VInt 8)
              demo_new_with_keyword)
    as (Hd & _ & Hr & Hw); [by left | vm_compute; reflexivity | vm_compute; reflexivity
                            | done | done |].
  split_and!; [exact Hd | exact Hr | exact Hw].
Defined.

Lemma missing_dataloader_is_only_warned_witness :
  (exists rest, log Demo.trainer_without_loader
                = ("WARNING", no_dataloader_warning) :: rest)
  /\ read "dataloader" Demo.trainer_without_loader
     = (Raise AttributeError, Demo.trainer_without_loader).
Proof.
  destruct (missing_dataloader_is_only_warned Demo.hooked_classes "Trainer" Demo.store
              VNone demo_class [] Demo.trainer_without_loader eq_refl
              demo_new_without_loader)
    as (Hl & _ & Hr).
  split; [exact Hl|]. apply Hr; vm_compute; reflexivity.
Defined.

Lemma assignment_is_routed_witness :
  (exists w', __setattr__ "batch" (VInt 5) Demo.trainer = (Ok tt, w')
              /\ dict (this w') = dict (this Demo.trainer)
              /\ read "batch" w' = (Ok (VInt 5), w'))
  /\ __setattr__ "batch_subdivisions" (VInt 3) Demo.trainer
     = (Raise AttributeError, Demo.trainer).
Proof.
  destruct (assignment_is_routed Demo.trainer "batch" (VInt 5)) as [Hstore _];
    [vm_compute; reflexivity | vm_compute; reflexivity |].
  destruct (assignment_is_routed Demo.trainer "batch_subdivisions" (VInt 3)) as [Hprop _];
    [vm_compute; reflexivity | vm_compute; reflexivity |].
  split.
  - destruct (Hstore ltac:(vm_compute; reflexivity) (VInt 0) ltac:(vm_compute; reflexivity))
      as [Hs _].
    destruct (Hs eq_refl) as (w' & E & _ & Hd & Hr).
    exists w'. split_and!; [exact E | exact Hd | exact Hr].
  - destruct (Hprop ltac:(vm_compute; reflexivity) (VInt 2) ltac:(vm_compute; reflexivity))
      as [_ Hp].
    apply Hp. reflexivity.
Defined.

Lemma zero_interval_breaks_dispatch_witness :
  lookup_table Demo.zero_hooked "Trainer" BatchStart = Some [(0, [Demo.plot])]
  /\ exists w', _run_hooks Demo.user_code (VInt 4) [(0, [Demo.plot])] Demo.trainer
                = (Raise ZeroDivisionError, w').
Proof.
  destruct (zero_interval_breaks_dispatch Demo.user_code demo_hooks_return BatchStart
              "Trainer" Demo.plot Demo.two_classes Demo.zero_hooked [] demo_register_zero)
    as [Hl Hr]; [vm_compute; reflexivity | constructor |].
  split; [exact Hl|].
  destruct (Hr 4 Demo.trainer) as (w' & E & _). by exists w'.
Defined.

Lemma registration_adds_one_call_witness :
  calls Demo.show_rate (fired 4 (add_hook 2 Demo.show_rate [(3, [Demo.backup])])) = 1%nat
  /\ calls Demo.backup (fired 4 (add_hook 2 Demo.show_rate [(3, [Demo.backup])])) = 0%nat.
Proof.
  destruct (registration_adds_one_call Demo.user_code demo_hooks_return 2 Demo.show_rate
              [(3, [Demo.backup])] 4 Demo.trainer)
    as (w' & _ & _ & Hc & _); [repeat constructor; done | done |].
  split; rewrite Hc; reflexivity.
Defined.

Lemma epoch_advances_counters_witness :
  exists w' evs,
    epoch Demo.user_code Demo.trainer = (Ok false, w')
    /\ trace w' = trace Demo.trainer ++ evs
    /\ trains evs = 5%nat
    /\ dispatched EpochEnd evs = [VInt 1]
    /\ params (this w') !! "batch" = Some (VInt 5).
Proof.
  destruct (epoch_advances_counters Demo.user_code Demo.hooked_classes "Trainer" 8 4
              Demo.ten Demo.tables demo_static demo_stable 0 0 Demo.trainer eq_refl
              demo_steady)
    as (w' & evs & E & Ht & _ & Hs & Hn & _ & _ & He); [reflexivity|].
  exists w', evs. split_and!; [exact E | exact Ht | exact Hn | exact He |].
  apply (st_batch _ _ _ Hs).
Defined.

Lemma demo_late_loader :
  start Demo.late_loader (this Demo.trainer_without_loader)
  = (Ok tt, mkInst "Trainer"
              (<["dataloader" := VList Demo.ten]> (dict (this Demo.trainer_without_loader)))
              Demo.store).
Proof. reflexivity. Qed.

Lemma call_starts_then_cycles_witness :
  dict (this Demo.trainer_without_loader) !! "dataloader" = None
  /\ exists w' evs,
       __call__ Demo.late_loader 2 Demo.trainer_without_loader = (Ok false, w')
       /\ trace w' = trace Demo.trainer_without_loader ++ [EvStart; EvNetworkTrain] ++ evs
       /\ log w' = log Demo.trainer_without_loader ++ [("INFO", "Start training")]
       /\ trains evs = 10%nat.
Proof.
  split; [reflexivity|].
  destruct (call_starts_then_cycles Demo.late_loader Demo.hooked_classes "Trainer" 8 4
              Demo.ten Demo.tables demo_static demo_stable 2 Demo.trainer_without_loader)
    as [_ Hret].
  destruct (Hret _ demo_late_loader) as [_ Hcycle].
  destruct (Hcycle 0 0 0%nat) as (w' & evs & E & Ht & Hl & _ & Hn);
    [reflexivity | | reflexivity | vm_compute; reflexivity | vm_compute; reflexivity
     | vm_compute; reflexivity |].
  - split; try reflexivity.
    + intros name [<-|[<-|[<-|[]]]]; reflexivity.
    + intros []; reflexivity.
  - exists w', evs. split_and!; [exact E | exact Ht | exact Hl | exact Hn].
Defined.

Lemma cycle_runs_until_quit_witness :
  exists w' evs,
    epochs Demo.user_code 3 Demo.trainer = (Ok false, w')
    /\ trace w' = trace Demo.trainer ++ evs
    /\ trains evs = 15%nat
    /\ params (this w') !! "epoch" = Some (VInt 3).
Proof.
  destruct (cycle_runs_until_quit Demo.user_code Demo.hooked_classes "Trainer" 8 4
              Demo.ten Demo.tables demo_static demo_stable 3 0 0 Demo.trainer eq_refl
              demo_steady)
    as (w' & evs & E & Ht & _ & _ & Hs & Hn); [reflexivity|].
  exists w', evs. split_and!; [exact E | exact Ht | exact Hn |].
  apply (st_epoch _ _ _ Hs).
Defined.

Lemma quit_stops_after_the_batch_witness :
  exists w' evs,
    epoch Demo.quitter Demo.trainer = (Ok true, w')
    /\ trace w' = trace Demo.trainer ++ evs
    /\ trains evs = 1%nat
    /\ processed evs = [VInt 0; VInt 1]
    /\ dispatched EpochEnd evs = [].
Proof.
  destruct (quit_stops_after_the_batch Demo.quitter Demo.hooked_classes "Trainer" 8 4
              Demo.ten Demo.tables demo_static demo_stable)
    with (g := [VInt 0; VInt 1])
         (rest := [VInt 2; VInt 3; VInt 4; VInt 5; VInt 6; VInt 7; VInt 8; VInt 9])
         (e := 0) (b := 0) (w := Demo.trainer)
    as (w' & evs & E & _ & Ht & _ & Hn & Hp & He & _).
  - intros e b i Hi. exists (VBool true), i. done.
  - reflexivity.
  - reflexivity.
  - reflexivity.
  - reflexivity.
  - exact demo_steady.
  - exists w', evs. split_and!; assumption.
Defined.

Lemma interrupt_stops_at_next_check_witness :
  exists w1, __sigint_handler Demo.trainer = (Ok tt, w1)
             /\ exists w2, quit_or_sigint Demo.user_code w1 = (Ok true, w2).
Proof.
  destruct (interrupt_stops_at_next_check Demo.user_code Demo.hooked_classes "Trainer"
              Demo.store (VList Demo.ten) [] Demo.trainer demo_class demo_new)
    as (_ & w1 & E1 & w2 & E2 & _).
  - intros i. exists (VBool false), i. done.
  - exists w1. split; [exact E1|]. by exists w2.
Defined.

End EngineLaws.
